(** * WebFAST robustness test manager

    A shallow embedding of [scripts/robustness.js]: the
    [RobustnessTestManager] class, the listeners it installs on the page,
    and the event log / metrics / export / reset machinery around it.

    The script runs single-threaded inside a browser.  The model is explicit
    state passing over three pieces of state:
    - [this]: the fields of the manager instance;
    - [document]: the element objects (a store keyed by object identity) and
      the tree of attached elements;
    - [browser]: the clock, pending timers, the console and the files the
      page has offered for download.

    JavaScript numbers are modelled by [Z]: every quantity the script
    computes is an integer far below 2^53 (counters, lengths, millisecond
    clock readings), where double arithmetic on integers is exact.  The one
    division, by 1000 before [Math.round], is taken over the rationals; at
    these magnitudes the double quotient rounds to the same integer. *)

From stdpp Require Import base strings pretty list gmap.
From Stdlib Require Import Ascii ZArith QArith Qround Lia.

Local Open Scope Z_scope.

Set Warnings "-register-all".

(** ** JavaScript values that end up in the log and in the exported file *)

Inductive Value :=
  | VNull
  | VNum (n : Z)
  | VStr (s : string)
  | VArr (items : list Value)
  | VObj (fields : list (string * Value)).

(** An event record is an object literal: its fields in source order. *)
Definition Event := list (string * Value).

(** The event types: [logEvent] is only ever called with one of six string
    literals (lines 32, 52, 81, 99, 181 and 195 of the script), which are
    the keys of [this.testResults]. *)
Inductive EventType :=
  | DynamicIdChange
  | AriaButtonClick
  | NestedElementClick
  | UnstableListClick
  | StressTestClick
  | StressTestPerformed.

Definition eventName (t : EventType) : string :=
  match t with
  | DynamicIdChange => "dynamic-id-change"
  | AriaButtonClick => "aria-button-click"
  | NestedElementClick => "nested-element-click"
  | UnstableListClick => "unstable-list-click"
  | StressTestClick => "stress-test-click"
  | StressTestPerformed => "stress-test-performed"
  end.

#[global] Instance EventType_eq_dec : EqDecision EventType.
Proof. solve_decision. Defined.

(** [this.testResults]: own properties in insertion order, each holding an
    array of event records. *)
Definition EventLog := list (EventType * list Event).

(** ** The document *)

(** Identity of an element object. *)
Definition Ref := nat.
Bind Scope nat_scope with Ref.

(** Listeners are closures; each constructor is one arrow function of the
    script together with the loop variables it captures.  The element a
    listener captures is always the element it is registered on, so it is
    passed at dispatch. *)
Inductive ClickHandler :=
  | DynamicIdClick
  | AriaClick
  | NestedClick (index : Z)
  | ListItemClick (index : Z)
  | StressClick (i j : Z)
  | ExportClick
  | ResetClick
  | RunStressClick.

Inductive KeydownHandler :=
  | AriaKeydown.

(** The fields of an element object that the script reads or writes.
    [innerHTML] and [textContent] hold the content as the page gave it or as
    the script last assigned it; [backgroundColor] and [position] are the
    entries of [style]; [role], [href] and [download] are attributes. *)
Record Element := mkElement {
  tagName : string;
  id_ : string;
  className : string;
  role : option string;
  innerHTML : string;
  textContent : string;
  backgroundColor : string;
  position : string;
  href : string;
  download : string;
  onClick : list ClickHandler;
  onKeydown : list KeydownHandler
}.

(** The tree of attached elements, by identity. *)
Inductive Tree :=
  | Node (ref : Ref) (kids : list Tree).

Record Document := mkDocument {
  heap : gmap Ref Element;
  tree : Tree;
  body : Ref;
  nextRef : Ref
}.

(** ** The browser around the page *)

(** The callbacks passed to [setTimeout].  They run after the handler that
    queued them has returned; the model records them with their delay. *)
Inductive Timeout :=
  | ClearBackground (element : Ref)
  | RestoreAriaText (element : Ref)
  | RemoveRipple (ripple : Ref).

Inductive ConsoleEntry :=
  | LoggedEvent (eventType : EventType) (data : Event)
  | LoggedReset.

Record Download := mkDownload {
  fileName : string;
  fileText : string
}.

Record Browser := mkBrowser {
  clock : nat -> Z;
  ticks : nat;
  timers : list (Timeout * Z);
  console : list ConsoleEntry;
  objectURLs : gmap string string;
  urlsIssued : nat;
  downloads : list Download
}.

(** ** The manager instance and the whole state *)

Record Manager := mkManager {
  dynamicIdCounter : Z;
  testResults : EventLog;
  startTime : Z
}.

Record State := mkState {
  this : Manager;
  document : Document;
  browser : Browser
}.

(** Library functions of the host that the script calls and whose results it
    only passes on. *)
Class Host := {
  toISOString : Z -> string;
  JSON_stringify : Value -> Z -> string;
  trim : string -> string;
  toLowerCase : string -> string;
  blobURL : nat -> string
}.

(** *** Field updates *)

Definition with_dynamicIdCounter (n : Z) (st : State) : State :=
  mkState (mkManager n (testResults (this st)) (startTime (this st)))
          (document st) (browser st).

Definition with_testResults (l : EventLog) (st : State) : State :=
  mkState (mkManager (dynamicIdCounter (this st)) l (startTime (this st)))
          (document st) (browser st).

Definition with_startTime (t : Z) (st : State) : State :=
  mkState (mkManager (dynamicIdCounter (this st)) (testResults (this st)) t)
          (document st) (browser st).

Definition with_document (d : Document) (st : State) : State :=
  mkState (this st) d (browser st).

Definition with_browser (w : Browser) (st : State) : State :=
  mkState (this st) (document st) w.

Definition with_heap (h : gmap Ref Element) (d : Document) : Document :=
  mkDocument h (tree d) (body d) (nextRef d).

Definition with_tree (t : Tree) (d : Document) : Document :=
  mkDocument (heap d) t (body d) (nextRef d).

Definition set_id (s : string) (e : Element) : Element :=
  mkElement (tagName e) s (className e) (role e) (innerHTML e)
            (textContent e) (backgroundColor e) (position e) (href e)
            (download e) (onClick e) (onKeydown e).

Definition set_className (s : string) (e : Element) : Element :=
  mkElement (tagName e) (id_ e) s (role e) (innerHTML e)
            (textContent e) (backgroundColor e) (position e) (href e)
            (download e) (onClick e) (onKeydown e).

Definition set_content (markup text : string) (e : Element) : Element :=
  mkElement (tagName e) (id_ e) (className e) (role e) markup
            text (backgroundColor e) (position e) (href e)
            (download e) (onClick e) (onKeydown e).

Definition set_backgroundColor (s : string) (e : Element) : Element :=
  mkElement (tagName e) (id_ e) (className e) (role e) (innerHTML e)
            (textContent e) s (position e) (href e)
            (download e) (onClick e) (onKeydown e).

Definition set_position (s : string) (e : Element) : Element :=
  mkElement (tagName e) (id_ e) (className e) (role e) (innerHTML e)
            (textContent e) (backgroundColor e) s (href e)
            (download e) (onClick e) (onKeydown e).

Definition set_href (s : string) (e : Element) : Element :=
  mkElement (tagName e) (id_ e) (className e) (role e) (innerHTML e)
            (textContent e) (backgroundColor e) (position e) s
            (download e) (onClick e) (onKeydown e).

Definition set_download (s : string) (e : Element) : Element :=
  mkElement (tagName e) (id_ e) (className e) (role e) (innerHTML e)
            (textContent e) (backgroundColor e) (position e) (href e)
            s (onClick e) (onKeydown e).

Definition add_onClick (h : ClickHandler) (e : Element) : Element :=
  mkElement (tagName e) (id_ e) (className e) (role e) (innerHTML e)
            (textContent e) (backgroundColor e) (position e) (href e)
            (download e) (onClick e ++ [h]) (onKeydown e).

Definition add_onKeydown (h : KeydownHandler) (e : Element) : Element :=
  mkElement (tagName e) (id_ e) (className e) (role e) (innerHTML e)
            (textContent e) (backgroundColor e) (position e) (href e)
            (download e) (onClick e) (onKeydown e ++ [h]).

(** ** Walking the tree *)

(** Document order. *)
Fixpoint preorder (t : Tree) : list Ref :=
  match t with
  | Node r kids => r :: flat_map preorder kids
  end.

(** Replace the child list of the element [r] (wherever it is attached). *)
Fixpoint updateKids (r : Ref) (f : list Tree -> list Tree) (t : Tree) : Tree :=
  match t with
  | Node x kids =>
      if decide (x = r) then Node x (f kids)
      else Node x (updateKids r f <$> kids)
  end.

(** The chain [r.parentElement, r.parentElement.parentElement, ...] up to the
    root element (whose [parentElement] is null); [None] when [r] is not
    attached. *)
Fixpoint ancestors (r : Ref) (t : Tree) : option (list Ref) :=
  match t with
  | Node x kids =>
      if decide (x = r) then Some []
      else
        (fix first (ks : list Tree) : option (list Ref) :=
           match ks with
           | [] => None
           | k :: ks' =>
               match ancestors r k with
               | Some chain => Some (chain ++ [x])
               | None => first ks'
               end
           end) kids
  end.

Definition parentChain (d : Document) (r : Ref) : list Ref :=
  default [] (ancestors r (tree d)).

Definition subtree_ref (t : Tree) : Ref :=
  match t with Node r _ => r end.

Definition appendChild (parent : Ref) (child : Tree) (d : Document) : Document :=
  with_tree (updateKids parent (fun kids => kids ++ [child]) (tree d)) d.

Definition removeChild (parent child : Ref) (d : Document) : Document :=
  with_tree
    (updateKids parent
       (fun kids => filter (fun k => subtree_ref k <> child) kids) (tree d)) d.

(** ** The DOM operations the script uses *)

Definition blank (tag : string) : Element :=
  mkElement tag "" "" None "" "" "" "" "" "" [] [].

(** Does the element object [r] satisfy [p]? *)
Definition matches (p : Element -> bool) (d : Document) (r : Ref) : bool :=
  from_option p false (heap d !! r).

Definition has_id (s : string) (e : Element) : bool :=
  bool_decide (id_ e = s).

Definition has_role (s : string) (e : Element) : bool :=
  bool_decide (role e = Some s).

Definition has_id_prefix (s : string) (e : Element) : bool :=
  String.prefix s (id_ e).

Definition has_tag (s : string) (e : Element) : bool :=
  bool_decide (tagName e = s).

(** ASCII whitespace separates class tokens: TAB, LF, FF, CR and SPACE. *)
Definition is_ascii_whitespace (c : ascii) : bool :=
  bool_decide (nat_of_ascii c ∈ [9; 10; 12; 13; 32]%nat).

Fixpoint split_whitespace (s word : string) : list string :=
  match s with
  | EmptyString => if decide (word = "") then [] else [word]
  | String c s' =>
      if is_ascii_whitespace c
      then (if decide (word = "") then [] else [word]) ++ split_whitespace s' ""
      else split_whitespace s' (word +:+ String c "")
  end.

(** An ordered set keeps the first occurrence of each token. *)
Fixpoint ordered_set (seen tokens : list string) : list string :=
  match tokens with
  | [] => []
  | x :: rest =>
      if decide (x ∈ seen) then ordered_set seen rest
      else x :: ordered_set (x :: seen) rest
  end.

(** [element.classList], as an array of tokens. *)
Definition classList (e : Element) : list string :=
  ordered_set [] (split_whitespace (className e) "").

Definition has_class (s : string) (e : Element) : bool :=
  bool_decide (s ∈ classList e).

(** [document.getElementById(s)]: the first element in document order whose
    id is [s]. *)
Definition getElementById (s : string) (d : Document) : option Ref :=
  find (matches (has_id s) d) (preorder (tree d)).

(** [document.querySelector(sel)] for a selector on the element alone. *)
Definition querySelector (sel : Element -> bool) (d : Document) : option Ref :=
  find (matches sel d) (preorder (tree d)).

(** The elements below [t] that satisfy [sel] and have a proper ancestor
    satisfying [anc], in document order; [inside] says whether such an
    ancestor has been passed already. *)
Fixpoint descendantsOf (anc sel : Element -> bool) (d : Document)
    (inside : bool) (t : Tree) : list Ref :=
  match t with
  | Node r kids =>
      (if inside && matches sel d r then [r] else []) ++
      flat_map (descendantsOf anc sel d (inside || matches anc d r)) kids
  end.

(** [document.querySelectorAll('A B')] with a descendant combinator. *)
Definition querySelectorAll (anc sel : Element -> bool) (d : Document) : list Ref :=
  descendantsOf anc sel d false (tree d).

(** [document.createElement(tag)]: a fresh, detached element object.  Elements
    of an HTML document report their tag name in upper case. *)
Definition createElement (tag : string) (d : Document) : Ref * Document :=
  (nextRef d,
   mkDocument (<[nextRef d := blank tag]> (heap d)) (tree d) (body d)
              (S (nextRef d))).

Definition modify (r : Ref) (f : Element -> Element) (d : Document) : Document :=
  with_heap (alter f r (heap d)) d.

(** The text left when the tags of a piece of markup are removed.  The markup
    assigned by the script has no comments and no character references. *)
Fixpoint stripTags (inTag : bool) (s : string) : string :=
  match s with
  | EmptyString => EmptyString
  | String c s' =>
      if inTag then stripTags (negb (bool_decide (c = ">"%char))) s'
      else if bool_decide (c = "<"%char) then stripTags true s'
      else String c (stripTags false s')
  end.

(** [r.innerHTML = markup]: the former children are detached.  The elements
    the parser creates for the new markup carry no id, role or listener and
    are not materialised as objects. *)
Definition setInnerHTML (r : Ref) (markup : string) (d : Document) : Document :=
  with_tree (updateKids r (fun _ => []) (tree d))
            (modify r (set_content markup (stripTags false markup)) d).

(** [r.textContent = text]: the children are replaced by one text node.  The
    texts assigned by the script contain no character that markup escapes. *)
Definition setTextContent (r : Ref) (text : string) (d : Document) : Document :=
  with_tree (updateKids r (fun _ => []) (tree d))
            (modify r (set_content text text) d).

(** ** The browser operations the script uses *)

(** [Date.now()] and [new Date()] read the clock; every reading is the next
    value of the clock oracle. *)
Definition Date_now (st : State) : Z * State :=
  let w := browser st in
  (clock w (ticks w),
   with_browser (mkBrowser (clock w) (S (ticks w)) (timers w) (console w)
                           (objectURLs w) (urlsIssued w) (downloads w)) st).

(** [setTimeout(callback, delay)]: the callback is queued with its delay. *)
Definition setTimeout (callback : Timeout) (delay : Z) (st : State) : State :=
  let w := browser st in
  with_browser (mkBrowser (clock w) (ticks w) (timers w ++ [(callback, delay)])
                          (console w) (objectURLs w) (urlsIssued w)
                          (downloads w)) st.

Definition console_log (entry : ConsoleEntry) (st : State) : State :=
  let w := browser st in
  with_browser (mkBrowser (clock w) (ticks w) (timers w) (console w ++ [entry])
                          (objectURLs w) (urlsIssued w) (downloads w)) st.

(** [Math.round]: the nearest integer, a tie going up. *)
Definition Math_round (x : Q) : Z :=
  Qfloor (x + (1 # 2)).

(** ** The event log *)

Definition Object_keys (l : EventLog) : list EventType := map fst l.

Definition Object_values (l : EventLog) : list (list Event) := map snd l.

(** [this.testResults[k]] is undefined or an array (always truthy). *)
Definition has_key (k : EventType) (l : EventLog) : bool :=
  bool_decide (k ∈ Object_keys l).

(** [this.testResults[k].push(data)] *)
Fixpoint push (k : EventType) (data : Event) (l : EventLog) : EventLog :=
  match l with
  | [] => []
  | (k', events) :: rest =>
      if decide (k' = k) then (k', events ++ [data]) :: rest
      else (k', events) :: push k data rest
  end.

(** [Object.values(this.testResults).reduce((sum, events) => sum + events.length, 0)] *)
Definition totalEvents (l : EventLog) : Z :=
  fold_left (fun sum events => sum + Z.of_nat (length events))
            (Object_values l) 0.

(** *** The metrics panel *)

Definition quote : string := String (ascii_of_nat 34) "".
Definition newline : string := String (ascii_of_nat 10) "".
Definition indent8 : string := "        ".
Definition indent12 : string := "            ".
Definition indent16 : string := "                ".

Definition metricCard (title value : string) : string :=
  newline +:+ indent12 +:+ "<div class=" +:+ quote +:+ "metric-card" +:+ quote +:+ ">" +:+
  newline +:+ indent16 +:+ "<h4>" +:+ title +:+ "</h4>" +:+
  newline +:+ indent16 +:+ "<div class=" +:+ quote +:+ "metric-value" +:+ quote +:+ ">" +:+
    value +:+ "</div>" +:+
  newline +:+ indent12 +:+ "</div>".

(** The template literal of [updateMetricsDisplay] (lines 231-244). *)
Definition metricsTemplate (totalEvents eventTypes seconds : Z) : string :=
  metricCard "Total Events" (pretty totalEvents) +:+
  metricCard "Event Types" (pretty eventTypes) +:+
  metricCard "Test Duration" (pretty seconds +:+ "s") +:+
  newline +:+ indent8.

(** ** Methods of [RobustnessTestManager] *)

Definition updateMetricsDisplay (st : State) : State :=
  match getElementById "test-metrics" (document st) with
  | None => st
  | Some metricsContainer =>
      let total := totalEvents (testResults (this st)) in
      let eventTypes := Z.of_nat (length (Object_keys (testResults (this st)))) in
      let '(now, st) := Date_now st in
      let testDuration := now - startTime (this st) in
      with_document
        (setInnerHTML metricsContainer
           (metricsTemplate total eventTypes
              (Math_round (inject_Z testDuration / 1000)))
           (document st)) st
  end.

Definition logEvent (eventType : EventType) (data : Event) (st : State) : State :=
  let results := testResults (this st) in
  let results :=
    if has_key eventType results then results
    else results ++ [(eventType, [])] in
  let st := with_testResults (push eventType data results) st in
  let st := updateMetricsDisplay st in
  console_log (LoggedEvent eventType data) st.

Definition initializeMetrics (st : State) : State :=
  let '(now, st) := Date_now st in
  let st := with_startTime now st in
  updateMetricsDisplay st.

Definition addClickListener (r : Ref) (h : ClickHandler) (st : State) : State :=
  with_document (modify r (add_onClick h) (document st)) st.

Definition addKeydownListener (r : Ref) (h : KeydownHandler) (st : State) : State :=
  with_document (modify r (add_onKeydown h) (document st)) st.

(** [for (let i = 0; i < n; i++) body] *)
Definition for_range {S : Type} (n : nat) (body : Z -> S -> S) (s : S) : S :=
  foldl (fun s i => body (Z.of_nat i) s) s (seq 0 n).

(** [elements.forEach((element, index) => body)] *)
Definition forEach {S : Type} (elements : list Ref) (body : Ref -> Z -> S -> S)
    (s : S) : S :=
  foldl (fun s p => body p.2 (Z.of_nat p.1) s) s (imap pair elements).

Section Script.
Context `{Host}.

(** *** Dynamic ID button (lines 20-45) *)

Definition dynamicIdClick (dynamicButton : Ref) (st : State) : State :=
  match heap (document st) !! dynamicButton with
  | None => st
  | Some e =>
      let oldId := id_ e in
      let newId := "dynamic-btn-" +:+ pretty (dynamicIdCounter (this st)) in
      let st := with_dynamicIdCounter (dynamicIdCounter (this st) + 1) st in
      let st := with_document (modify dynamicButton (set_id newId) (document st)) st in
      let st :=
        with_document
          (setInnerHTML dynamicButton
             ("🔄 Dynamic ID Button (ID: " +:+ newId +:+ ")") (document st)) st in
      let '(now, st) := Date_now st in
      let st :=
        logEvent DynamicIdChange
          [("oldId", VStr oldId); ("newId", VStr newId); ("timestamp", VNum now)]
          st in
      let st :=
        with_document
          (modify dynamicButton (set_backgroundColor "#27ae60") (document st)) st in
      setTimeout (ClearBackground dynamicButton) 500 st
  end.

Definition setupDynamicIdButton (st : State) : State :=
  match getElementById "dynamic-id-btn" (document st) with
  | Some dynamicButton => addClickListener dynamicButton DynamicIdClick st
  | None => st
  end.

(** *** ARIA button (lines 48-72) *)

Definition ariaClick (ariaButton : Ref) (st : State) : State :=
  match heap (document st) !! ariaButton with
  | None => st
  | Some e =>
      let '(now, st) := Date_now st in
      let st :=
        logEvent AriaButtonClick
          [("role", from_option VStr VNull (role e));
           ("tagName", VStr (tagName e));
           ("timestamp", VNum now)] st in
      let st :=
        with_document
          (setTextContent ariaButton "✅ ARIA Button Clicked!" (document st)) st in
      setTimeout (RestoreAriaText ariaButton) 2000 st
  end.

Definition setupAriaButton (st : State) : State :=
  match querySelector (has_role "button") (document st) with
  | Some ariaButton =>
      let st := addClickListener ariaButton AriaClick st in
      addKeydownListener ariaButton AriaKeydown st
  | None => st
  end.

(** *** Nested elements (lines 75-92 and 115-158) *)

(** The loop of [calculateNestingLevel]; [chain] is what repeated
    [.parentElement] yields, ending in null. *)
Fixpoint nestingLoop (body : Ref) (chain : list Ref) (level : Z) : Z :=
  match chain with
  | [] => level
  | parent :: rest =>
      if decide (parent = body) then level
      else nestingLoop body rest (level + 1)
  end.

Definition calculateNestingLevel (element : Ref) (d : Document) : Z :=
  nestingLoop (body d) (parentChain d element) 0.

(** One turn of the loop of [generateCssPath]: the selector of [current]. *)
Definition selectorOf (e : Element) : string :=
  let selector := toLowerCase (tagName e) in
  if bool_decide (id_ e <> "") then selector +:+ "#" +:+ id_ e
  else if bool_decide (className e <> "")
       then selector +:+ "." +:+ String.concat "." (classList e)
       else selector.

Definition elementAt (d : Document) (r : Ref) : Element :=
  default (blank "") (heap d !! r).

Fixpoint cssPathLoop (d : Document) (chain : list Ref) (path : list string)
    : list string :=
  match chain with
  | [] => path
  | current :: rest =>
      if decide (current = body d) then path
      else cssPathLoop d rest (selectorOf (elementAt d current) :: path)
  end.

Definition generateCssPath (element : Ref) (d : Document) : string :=
  String.concat " > " (cssPathLoop d (element :: parentChain d element) []).

Definition createRippleEffect (element : Ref) (st : State) : State :=
  let '(ripple, d) := createElement "SPAN" (document st) in
  let d := modify ripple (set_className "ripple-effect") d in
  let d := modify element (set_position "relative") d in
  let d := appendChild element (Node ripple []) d in
  setTimeout (RemoveRipple ripple) 600 (with_document d st).

(** [e.stopPropagation()] keeps the click from the listeners of the
    ancestors; dispatch below runs the listeners of the target only. *)
Definition nestedClick (element : Ref) (index : Z) (st : State) : State :=
  match heap (document st) !! element with
  | None => st
  | Some _ =>
      let nestingLevel := calculateNestingLevel element (document st) in
      let cssPath := generateCssPath element (document st) in
      let '(now, st) := Date_now st in
      let st :=
        logEvent NestedElementClick
          [("elementIndex", VNum index);
           ("nestingLevel", VNum nestingLevel);
           ("cssPath", VStr cssPath);
           ("timestamp", VNum now)] st in
      createRippleEffect element st
  end.

Definition setupNestedElementTests (st : State) : State :=
  let nestedElements :=
    querySelectorAll (has_class "deeply-nested") (has_tag "SPAN") (document st) in
  forEach nestedElements
    (fun element index => addClickListener element (NestedClick index)) st.

(** *** List items (lines 95-112)

    [item.textContent] is read from the field of the element object: the
    text of the item where no element is attached inside it.  The text of
    an item with elements inside it also has the text of these elements,
    which the field does not follow. *)

Definition listItemClick (item : Ref) (index : Z) (st : State) : State :=
  match heap (document st) !! item with
  | None => st
  | Some e =>
      let '(now, st) := Date_now st in
      let st :=
        logEvent UnstableListClick
          [("itemIndex", VNum index);
           ("itemText", VStr (trim (textContent e)));
           ("timestamp", VNum now)] st in
      let st :=
        with_document
          (modify item (set_backgroundColor "#fff3cd") (document st)) st in
      setTimeout (ClearBackground item) 1000 st
  end.

Definition setupListInteractions (st : State) : State :=
  let listItems :=
    querySelectorAll (has_id "unstable-list") (has_tag "LI") (document st) in
  forEach listItems
    (fun item index => addClickListener item (ListItemClick index)) st.

(** *** Stress test (lines 161-199) *)

Definition stressClick (i j : Z) (st : State) : State :=
  let '(now, st) := Date_now st in
  logEvent StressTestClick
    [("sectionIndex", VNum i); ("subsectionIndex", VNum j); ("timestamp", VNum now)]
    st.

(** One turn of the inner loop.  The section is not attached yet; the
    children appended to it so far are carried in [sectionKids]. *)
Definition buildSubsection (i j : Z) (acc : Document * list Tree)
    : Document * list Tree :=
  let '(d, sectionKids) := acc in
  let '(subsection, d) := createElement "DIV" d in
  let d := modify subsection (set_className ("stress-subsection-" +:+ pretty j)) d in
  let '(button, d) := createElement "BUTTON" d in
  let d := modify button (set_className "stress-test-btn") d in
  let text := "Dynamic Button " +:+ pretty i +:+ "-" +:+ pretty j in
  let d := modify button (set_content text text) d in
  let d := modify button (add_onClick (StressClick i j)) d in
  (d, sectionKids ++ [Node subsection [Node button []]]).

(** One turn of the outer loop. *)
Definition buildSection (container : Ref) (i : Z) (d : Document) : Document :=
  let '(section, d) := createElement "DIV" d in
  let d := modify section (set_className ("stress-section-" +:+ pretty i)) d in
  let '(d, sectionKids) := for_range 3 (buildSubsection i) (d, []) in
  appendChild container (Node section sectionKids) d.

(** Lines 165-193: the container is emptied and the structure is built. *)
Definition buildStressStructure (container : Ref) (d : Document) : Document :=
  for_range 5 (buildSection container) (setInnerHTML container "" d).

Definition performStressTest (st : State) : State :=
  match getElementById "stress-test-container" (document st) with
  | None => st
  | Some container =>
      let st :=
        with_document (buildStressStructure container (document st)) st in
      let '(now, st) := Date_now st in
      logEvent StressTestPerformed
        [("timestamp", VNum now); ("elementsCreated", VNum 15)] st
  end.

(** *** Export (lines 248-268) *)

(** [this.testResults] as the value [JSON.stringify] walks. *)
Definition logValue (l : EventLog) : Value :=
  VObj (map (fun kv => (eventName kv.1, VArr (map VObj kv.2))) l).

(** The object literal of lines 249-254; [t1] is the reading of [Date.now()]
    and [t2] that of [new Date()]. *)
Definition exportObject (m : Manager) (t1 t2 : Z) : Value :=
  VObj [("testResults", logValue (testResults m));
        ("testDuration", VNum (t1 - startTime m));
        ("timestamp", VStr (toISOString t2));
        ("totalEvents", VNum (totalEvents (testResults m)))].

Definition createObjectURL (text : string) (st : State) : string * State :=
  let w := browser st in
  let url := blobURL (urlsIssued w) in
  (url,
   with_browser (mkBrowser (clock w) (ticks w) (timers w) (console w)
                           (<[url := text]> (objectURLs w)) (S (urlsIssued w))
                           (downloads w)) st).

Definition revokeObjectURL (url : string) (st : State) : State :=
  let w := browser st in
  with_browser (mkBrowser (clock w) (ticks w) (timers w) (console w)
                          (delete url (objectURLs w))
                          (urlsIssued w) (downloads w)) st.

(** [a.click()] on the anchor the exporter has just created: it has no
    listener, and activating it saves what its [href] names under the name in
    its [download] attribute. *)
Definition followDownloadLink (a : Ref) (st : State) : State :=
  match heap (document st) !! a with
  | None => st
  | Some e =>
      match objectURLs (browser st) !! href e with
      | None => st
      | Some text =>
          let w := browser st in
          with_browser (mkBrowser (clock w) (ticks w) (timers w) (console w)
                                  (objectURLs w) (urlsIssued w)
                                  (downloads w ++ [mkDownload (download e) text])) st
      end
  end.

Definition exportTestResults (st : State) : State :=
  let '(t1, st) := Date_now st in
  let '(t2, st) := Date_now st in
  let results := exportObject (this st) t1 t2 in
  let blob := JSON_stringify results 2 in
  let '(url, st) := createObjectURL blob st in
  let '(a, d) := createElement "A" (document st) in
  let d := modify a (set_href url) d in
  let st := with_document d st in
  let '(t3, st) := Date_now st in
  let d :=
    modify a (set_download ("webfast-robustness-test-" +:+ pretty t3 +:+ ".json"))
           (document st) in
  let d := appendChild (body d) (Node a []) d in
  let st := followDownloadLink a (with_document d st) in
  let st := with_document (removeChild (body (document st)) a (document st)) st in
  revokeObjectURL url st.

(** *** Reset (lines 271-286) *)

(** [document.getElementById('dynamic-id-btn') ||
     document.querySelector('[id^=dynamic-btn-]')] (lines 278-279) *)
Definition findDynamicButton (d : Document) : option Ref :=
  match getElementById "dynamic-id-btn" d with
  | Some b => Some b
  | None => querySelector (has_id_prefix "dynamic-btn-") d
  end.

Definition resetTests (st : State) : State :=
  let st := with_testResults [] st in
  let st := with_dynamicIdCounter 1 st in
  let '(now, st) := Date_now st in
  let st := with_startTime now st in
  let st := updateMetricsDisplay st in
  let dynamicButton := findDynamicButton (document st) in
  let st :=
    match dynamicButton with
    | Some b =>
        let d := modify b (set_id "dynamic-id-btn") (document st) in
        with_document (setInnerHTML b "🔄 Dynamic ID Button" d) st
    | None => st
    end in
  console_log LoggedReset st.

(** *** Construction (lines 5-17 and 290-313) *)

Definition init (st : State) : State :=
  let st := setupDynamicIdButton st in
  let st := setupListInteractions st in
  let st := setupAriaButton st in
  let st := setupNestedElementTests st in
  initializeMetrics st.

(** [new RobustnessTestManager()] on a loaded page.  [startTime] is undefined
    until [initializeMetrics] assigns it and is not read before. *)
Definition new_RobustnessTestManager (d : Document) (w : Browser) : State :=
  init (mkState (mkManager 1 [] 0) d w).

Definition addClickListenerById (s : string) (h : ClickHandler) (st : State) : State :=
  match getElementById s (document st) with
  | Some button => addClickListener button h st
  | None => st
  end.

(** The listener of DOMContentLoaded (lines 290-313) on the page [d] as it
    is when the event fires.  The statements at the end of the script
    (lines 316-355), which add a style element to the head, have run by
    then: that element is one of the elements of [d]. *)
Definition onDOMContentLoaded (d : Document) (w : Browser) : State :=
  let st := new_RobustnessTestManager d w in
  let st := addClickListenerById "export-results-btn" ExportClick st in
  let st := addClickListenerById "reset-tests-btn" ResetClick st in
  addClickListenerById "run-stress-test-btn" RunStressClick st.

(** *** Dispatch *)

Definition runClick (target : Ref) (st : State) (h : ClickHandler) : State :=
  match h with
  | DynamicIdClick => dynamicIdClick target st
  | AriaClick => ariaClick target st
  | NestedClick index => nestedClick target index st
  | ListItemClick index => listItemClick target index st
  | StressClick i j => stressClick i j st
  | ExportClick => exportTestResults st
  | ResetClick => resetTests st
  | RunStressClick => performStressTest st
  end.

(** A click at [target]: the click listeners of [target] itself run in
    registration order.  This is the whole of a click on [target] when no
    ancestor of [target] carries a click listener, or when a listener of
    [target] stops the propagation; in general it is the first stage of
    [dispatchClick] below, which goes on to the ancestors. *)
Definition click (target : Ref) (st : State) : State :=
  match heap (document st) !! target with
  | None => st
  | Some e => foldl (runClick target) st (onClick e)
  end.

(** The keydown listener of the ARIA button (lines 65-70), up to the
    listeners of the button itself: [ariaButton.click()] as [click].
    [e.preventDefault()] only cancels the default action of the key. *)
Definition ariaKeydown (ariaButton : Ref) (key : string) (st : State) : State :=
  if bool_decide (key = "Enter") || bool_decide (key = " ")
  then click ariaButton st
  else st.

Definition runKeydown (target : Ref) (key : string) (st : State)
    (h : KeydownHandler) : State :=
  match h with
  | AriaKeydown => ariaKeydown target key st
  end.

(** A key at [target]: the keydown listeners of [target] itself, where the
    click they make stays at [target].  [dispatchKeydown] below follows the
    key and the click to the ancestors. *)
Definition keydown (target : Ref) (key : string) (st : State) : State :=
  match heap (document st) !! target with
  | None => st
  | Some e => foldl (runKeydown target key) st (onKeydown e)
  end.

(** *** Propagation

    A click is dispatched along the path of its target: the target, then
    its ancestors up to the root element, as they are when the click
    begins.  At each element of the path the click listeners of that element
    run, and the click moves on to the next element unless one of these
    listeners has stopped the propagation.  Of the listeners of the script
    only the one of the nested elements does so (line 79).  The path is the
    one of an attached target: the tree keeps no record of the ancestors of
    an element that is not attached. *)

Definition stopsPropagation (h : ClickHandler) : bool :=
  match h with
  | NestedClick _ => true
  | _ => false
  end.

Fixpoint bubbleClick (path : list Ref) (st : State) : State :=
  match path with
  | [] => st
  | current :: rest =>
      let stopped :=
        from_option (fun e => existsb stopsPropagation (onClick e)) false
                    (heap (document st) !! current) in
      let st := click current st in
      if stopped then st else bubbleClick rest st
  end.

(** A click on [target], by pointer or by [target.click()]. *)
Definition dispatchClick (target : Ref) (st : State) : State :=
  bubbleClick (target :: parentChain (document st) target) st.

(** The keydown listener of the ARIA button (lines 65-70) on the element
    [ariaButton] it is registered on: [ariaButton.click()] is a click
    dispatched at that element. *)
Definition ariaKeydownListener (ariaButton : Ref) (key : string) (st : State)
    (h : KeydownHandler) : State :=
  match h with
  | AriaKeydown =>
      if bool_decide (key = "Enter") || bool_decide (key = " ")
      then dispatchClick ariaButton st
      else st
  end.

(** The keydown listeners of the script do not stop the propagation. *)
Fixpoint bubbleKeydown (path : list Ref) (key : string) (st : State) : State :=
  match path with
  | [] => st
  | current :: rest =>
      let st :=
        match heap (document st) !! current with
        | None => st
        | Some e => foldl (ariaKeydownListener current key) st (onKeydown e)
        end in
      bubbleKeydown rest key st
  end.

(** What the keydown listeners of the script do when a key is pressed on
    [target].  What the browser itself does with the key (a native button
    that has the focus is clicked by Enter and by Space) is not part of
    it. *)
Definition dispatchKeydown (target : Ref) (key : string) (st : State) : State :=
  bubbleKeydown (target :: parentChain (document st) target) key st.

End Script.

(** ** Timer callbacks (lines 40-42, 59-61, 107-109 and 153-157) *)

(** [r.parentNode] for an element other than the root element: the first
    link of the chain of ancestors, null when [r] is not attached. *)
Definition parentNode (r : Ref) (d : Document) : option Ref :=
  match ancestors r (tree d) with
  | Some (parent :: _) => Some parent
  | _ => None
  end.

(** The body of each arrow function the script passes to [setTimeout]. *)
Definition runTimeout (callback : Timeout) (st : State) : State :=
  match callback with
  | ClearBackground element =>
      with_document (modify element (set_backgroundColor "") (document st)) st
  | RestoreAriaText ariaButton =>
      with_document
        (setTextContent ariaButton "🎯 ARIA Role Button" (document st)) st
  | RemoveRipple ripple =>
      match parentNode ripple (document st) with
      | Some parent => with_document (removeChild parent ripple (document st)) st
      | None => st
      end
  end.

(** ** Sequences of interactions

    What can happen to a loaded page: a click at an element, a key at an
    element, and the expiry of a pending timer.  A click that propagates is
    the sequence of the clicks at the elements of its path, and a key that
    propagates a sequence of such clicks.  The queue records
    the timers in the order in which they were set, not the order in which
    they fall due, so any pending timer may be the next to expire. *)
Inductive Action :=
  | Click (target : Ref)
  | Keydown (target : Ref) (key : string)
  | Expire (n : nat).

(** The pending timer at position [n] expires: it leaves the queue and its
    callback runs. *)
Definition fireTimer (n : nat) (st : State) : State :=
  match timers (browser st) !! n with
  | None => st
  | Some (callback, _) =>
      let w := browser st in
      runTimeout callback
        (with_browser (mkBrowser (clock w) (ticks w) (delete n (timers w))
                                 (console w) (objectURLs w) (urlsIssued w)
                                 (downloads w)) st)
  end.

Definition act `{Host} (a : Action) (st : State) : State :=
  match a with
  | Click target => click target st
  | Keydown target key => keydown target key st
  | Expire n => fireTimer n st
  end.

Definition interact `{Host} (actions : list Action) (st : State) : State :=
  foldl (fun st a => act a st) st actions.

(** ** Notions used to state the properties *)

(** A field of an element that assigning its content leaves alone. *)
Definition keeps {A} (f : Element -> A) : Prop :=
  forall markup text e, f (set_content markup text e) = f e.

(** The tree after [updateMetricsDisplay]: the panel, when there is one, has
    lost its former children. *)
Definition renderTree (d : Document) : Tree :=
  match getElementById "test-metrics" d with
  | Some metricsContainer => updateKids metricsContainer (fun _ => []) (tree d)
  | None => tree d
  end.

(** The sum of the lengths of the arrays stored under the keys of the log. *)
Definition sumOfLengths (l : EventLog) : nat :=
  sum_list (map length (Object_values l)).

(** A sequence of [logEvent] calls, each with its type and its record. *)
Definition logEvents (calls : list (EventType * Event)) (st : State) : State :=
  foldl (fun st call => logEvent call.1 call.2 st) st calls.

(** The log after one [logEvent]. *)
Definition logged (k : EventType) (data : Event) (l : EventLog) : EventLog :=
  push k data (if has_key k l then l else l ++ [(k, [])]).


(** The path segment of an element as the specification words it: the
    lower-cased tag name, followed by the id when the element has one, else
    by the list of its classes when it has classes, else by nothing. *)
Definition segment `{Host} (e : Element) : string :=
  let tag := toLowerCase (tagName e) in
  if decide (id_ e = "") then
    if decide (classList e = []) then tag
    else tag +:+ "." +:+ String.concat "." (classList e)
  else tag +:+ "#" +:+ id_ e.

(** The class attribute of the element is empty or holds at least one class
    token (it is not made of white space only). *)
Definition classAttributeProper (e : Element) : Prop :=
  className e = "" \/ classList e <> [].

#[global] Instance classAttributeProper_dec (e : Element) :
  Decision (classAttributeProper e).
Proof. unfold classAttributeProper. apply _. Defined.

(** *** The structure the stress test builds

    [n] is the identity the first created element receives.  Section [i]
    takes 7 identities: its own, and for each of its three subsections the
    one of the subsection and the one of its button. *)

Definition stressSection (n : Ref) (i : nat) : Ref := (7 * i + n)%nat.

Definition stressSubsection (n : Ref) (i j : nat) : Ref :=
  (7 * i + 2 * j + 1 + n)%nat.

Definition stressButton (n : Ref) (i j : nat) : Ref :=
  (7 * i + 2 * j + 2 + n)%nat.

Definition stressTree (n : Ref) : list Tree :=
  map (fun i =>
         Node (stressSection n i)
              (map (fun j =>
                      Node (stressSubsection n i j)
                           [Node (stressButton n i j) []])
                   [0; 1; 2]%nat))
      [0; 1; 2; 3; 4]%nat.

(** The elements of a tree that have no children. *)
Fixpoint leaves (t : Tree) : list Ref :=
  match t with
  | Node r kids =>
      match kids with
      | [] => [r]
      | _ => flat_map leaves kids
      end
  end.

(** The elements of that structure as the loop leaves them. *)
Definition stressSectionElement (i : Z) : Element :=
  set_className ("stress-section-" +:+ pretty i) (blank "DIV").

Definition stressSubsectionElement (j : Z) : Element :=
  set_className ("stress-subsection-" +:+ pretty j) (blank "DIV").

Definition stressButtonElement (i j : Z) : Element :=
  let text := "Dynamic Button " +:+ pretty i +:+ "-" +:+ pretty j in
  add_onClick (StressClick i j)
    (set_content text text (set_className "stress-test-btn" (blank "BUTTON"))).

(** The seven objects one turn of the outer loop creates, the first of them
    at [n]. *)
Definition sectionHeap (i : Z) (n : Ref) (h : gmap Ref Element)
    : gmap Ref Element :=
  <[(6 + n)%nat := stressButtonElement i 2]>
    (<[(5 + n)%nat := stressSubsectionElement 2]>
       (<[(4 + n)%nat := stressButtonElement i 1]>
          (<[(3 + n)%nat := stressSubsectionElement 1]>
             (<[(2 + n)%nat := stressButtonElement i 0]>
                (<[(1 + n)%nat := stressSubsectionElement 0]>
                   (<[n := stressSectionElement i]> h)))))).

Definition stressHeap (n : Ref) (h : gmap Ref Element) : gmap Ref Element :=
  sectionHeap 4 (28 + n)
    (sectionHeap 3 (21 + n)
       (sectionHeap 2 (14 + n)
          (sectionHeap 1 (7 + n) (sectionHeap 0 n h)))).

(** *** The dynamic button on a well-formed page *)

(** [b] is attached to [t] and none of its proper ancestors satisfies [p]. *)
Fixpoint outside (p : Ref -> bool) (b : Ref) (t : Tree) : bool :=
  match t with
  | Node x kids =>
      bool_decide (x = b) || (negb (p x) && existsb (outside p b) kids)
  end.

(** The button is not inside the metrics panel (which is emptied at every
    render). *)
Definition outsidePanel (b : Ref) (d : Document) : Prop :=
  outside (matches (has_id "test-metrics") d) b (tree d) = true.

(** No attached element other than [b] has the original id of the dynamic
    button or an id of the form the click listener gives it. *)
Definition onlyDynamicButton (b : Ref) (d : Document) : Prop :=
  Forall (fun r =>
            r <> b ->
            matches (has_id "dynamic-id-btn") d r = false /\
            matches (has_id_prefix "dynamic-btn-") d r = false)
         (preorder (tree d)).

(** What clicks on the button and resets maintain. *)
Definition buttonInvariant (b : Ref) (st : State) : Prop :=
  let d := document st in
  onClick <$> heap d !! b = Some [DynamicIdClick] /\
  (exists s, id_ <$> heap d !! b = Some s /\
             (s = "dynamic-id-btn" \/ String.prefix "dynamic-btn-" s = true)) /\
  outsidePanel b d /\
  onlyDynamicButton b d.

(** *** Reading the log back *)

(** [this.testResults[k]], with an empty array for a missing key. *)
Definition eventsOf (k : EventType) (l : EventLog) : list Event :=
  default [] (snd <$> find (fun kv => bool_decide (kv.1 = k)) l).

(** [data[name]] for an event record. *)
Definition field (name : string) (data : Event) : option Value :=
  snd <$> find (fun p => bool_decide (p.1 = name)) data.

(** The records of the calls made with type [k], in call order. *)
Definition recordsOf (k : EventType) (calls : list (EventType * Event))
    : list Event :=
  (filter (fun call => call.1 = k) calls).*2.

(** The types of a sequence of calls, each at its first occurrence. *)
Fixpoint firstSeen (types : list EventType) : list EventType :=
  match types with
  | [] => []
  | k :: rest => k :: filter (fun k' => k' <> k) (firstSeen rest)
  end.

(** *** Trees and fresh identities *)

(** The children of [x] searched in turn for [r], as [ancestors] does below
    a node that is not [r] itself. *)
Definition ancestorsAmong (r x : Ref) (kids : list Tree) : option (list Ref) :=
  (fix first (ks : list Tree) : option (list Ref) :=
     match ks with
     | [] => None
     | k :: ks' =>
         match ancestors r k with
         | Some chain => Some (chain ++ [x])
         | None => first ks'
         end
     end) kids.

(** The identity the next created element receives is in use neither by an
    element object nor in the tree. *)
Definition freshIdentity (d : Document) : Prop :=
  heap d !! nextRef d = None /\ nextRef d ∉ preorder (tree d).

(** *** Paths, loading and controls *)

(** The array [path] that [generateCssPath] joins. *)
Definition pathSegments `{Host} (element : Ref) (d : Document) : list string :=
  cssPathLoop d (element :: parentChain d element) [].

(** The state in which [init] calls [initializeMetrics]: the four setup
    methods have run on the page. *)
Definition afterSetup (d : Document) (w : Browser) : State :=
  setupNestedElementTests
    (setupAriaButton
       (setupListInteractions
          (setupDynamicIdButton (mkState (mkManager 1 [] 0) d w)))).

(** The fields of an element that the script never assigns at load. *)
Definition markupOf (e : Element)
    : string * string * string * option string * string * string * string * string :=
  (tagName e, id_ e, className e, role e, backgroundColor e, position e,
   href e, download e).

(** The three buttons that the script wires after constructing the manager
    (lines 296-312), with the id each is looked up by and the method its
    listener calls. *)
Inductive Control := ExportControl | ResetControl | StressControl.

Definition controlId (c : Control) : string :=
  match c with
  | ExportControl => "export-results-btn"
  | ResetControl => "reset-tests-btn"
  | StressControl => "run-stress-test-btn"
  end.

Definition controlMethod `{Host} (c : Control) : State -> State :=
  match c with
  | ExportControl => exportTestResults
  | ResetControl => resetTests
  | StressControl => performStressTest
  end.

(** *** The counter and the ids of the dynamic button *)

(** The id of the dynamic button after [k] clicks, [original] being its id
    before the first of them. *)
Definition idAfter (original : string) (k : nat) : string :=
  match k with
  | O => original
  | S _ => "dynamic-btn-" +:+ pretty (Z.of_nat k)
  end.

(** The two ids of a dynamic-id-change record. *)
Definition idChange (data : Event) : option Value * option Value :=
  (field "oldId" data, field "newId" data).

(** The counter is one more than the number of dynamic-id-change records in
    the log. *)
Definition counterCountsChanges (m : Manager) : Prop :=
  dynamicIdCounter m =
  1 + Z.of_nat (length (eventsOf DynamicIdChange (testResults m))).

(** *** Listeners on the path of a click *)

#[global] Instance ClickHandler_eq_dec : EqDecision ClickHandler.
Proof. solve_decision. Defined.

(** The click listeners of an element object, none when there is no such
    object. *)
Definition listenersOf (d : Document) (r : Ref) : list ClickHandler :=
  default [] (onClick <$> heap d !! r).

(** [r] carries no click listener. *)
Definition unwired (d : Document) (r : Ref) : Prop :=
  listenersOf d r = [].

(** [r] is in the tree of the page. *)
Definition attached (d : Document) (r : Ref) : Prop :=
  r ∈ preorder (tree d).

(** [r] is attached and no element is attached inside it: the text of [r]
    is its own. *)
Definition childless (d : Document) (r : Ref) : Prop :=
  r ∈ leaves (tree d).

(** The identity [r] has been handed out: no element created later takes
    it.  Every element object of a page is in use. *)
Definition inUse (d : Document) (r : Ref) : Prop :=
  (r < nextRef d)%nat.

#[global] Instance unwired_dec (d : Document) (r : Ref) : Decision (unwired d r).
Proof. unfold unwired. apply _. Defined.

#[global] Instance attached_dec (d : Document) (r : Ref) : Decision (attached d r).
Proof. unfold attached. apply _. Defined.

#[global] Instance childless_dec (d : Document) (r : Ref) : Decision (childless d r).
Proof. unfold childless. apply _. Defined.

#[global] Instance inUse_dec (d : Document) (r : Ref) : Decision (inUse d r).
Proof. unfold inUse. apply _. Defined.

#[global] Typeclasses Opaque unwired attached childless inUse.

(** [r] carries no reset listener. *)
Definition resetFree (d : Document) (r : Ref) : Prop :=
  ResetClick ∉ listenersOf d r.

#[global] Instance resetFree_dec (d : Document) (r : Ref) : Decision (resetFree d r).
Proof. unfold resetFree. apply _. Defined.

#[global] Typeclasses Opaque resetFree.

(** The keydown listeners of an element object. *)
Definition keyListenersOf (d : Document) (r : Ref) : list KeydownHandler :=
  default [] (onKeydown <$> heap d !! r).

(** ** A sample page

    A small page with every element the script looks for, a stand-in host,
    and a clock that advances by 700 ms at every reading.  The examples
    below run the model on it. *)

Definition lowerAscii (c : ascii) : ascii :=
  let n := nat_of_ascii c in
  if bool_decide (65 <= n <= 90)%nat then ascii_of_nat (n + 32) else c.

Fixpoint lowerString (s : string) : string :=
  match s with
  | EmptyString => EmptyString
  | String c s' => String (lowerAscii c) (lowerString s')
  end.

#[local] Instance sampleHost : Host := {|
  toISOString t := "ISO:" +:+ pretty t;
  JSON_stringify v indent := "{...}";
  trim s := s;
  toLowerCase := lowerString;
  blobURL n := "blob:" +:+ pretty n
|}.

Definition sampleElement (r : Ref) (tag i class : string)
    (role : option string) (label : string) : Ref * Element :=
  (r, mkElement tag i class role label label "" "" "" "" [] []).

Definition sampleHeap : gmap Ref Element :=
  list_to_map
    [sampleElement 0 "HTML" "" "" None "";
     sampleElement 1 "HEAD" "" "" None "";
     sampleElement 2 "BODY" "" "" None "";
     sampleElement 3 "DIV" "app" "" None "";
     sampleElement 4 "BUTTON" "dynamic-id-btn" "btn" None "🔄 Dynamic ID Button";
     sampleElement 5 "DIV" "" "" (Some "button") "🎯 ARIA Role Button";
     sampleElement 6 "UL" "unstable-list" "" None "";
     sampleElement 7 "LI" "" "" None "First";
     sampleElement 8 "LI" "" "" None "Second";
     sampleElement 9 "DIV" "" "deeply-nested" None "";
     sampleElement 10 "DIV" "" "level-1  deep" None "";
     sampleElement 11 "SPAN" "" " " None "Deep";
     sampleElement 12 "DIV" "stress-test-container" "" None "";
     sampleElement 13 "DIV" "test-metrics" "" None "";
     sampleElement 14 "BUTTON" "export-results-btn" "" None "Export";
     sampleElement 15 "BUTTON" "reset-tests-btn" "" None "Reset";
     sampleElement 16 "BUTTON" "run-stress-test-btn" "" None "Run";
     sampleElement 17 "SPAN" "" "leaf  tip leaf" None "Deeper"].

Definition sampleTree : Tree :=
  Node 0 [Node 1 [];
          Node 2 [Node 3 [Node 4 []; Node 5 [];
                          Node 6 [Node 7 []; Node 8 []];
                          Node 9 [Node 10 [Node 11 []; Node 17 []]];
                          Node 12 []; Node 13 []; Node 14 []; Node 15 [];
                          Node 16 []]]].

Definition sampleDocument : Document :=
  mkDocument sampleHeap sampleTree 2 18.

Definition sampleBrowser : Browser :=
  mkBrowser (fun n => 1000 + 700 * Z.of_nat n) 0 [] [] ∅ 0 [].

(** The sample page once the script has run on it. *)
Definition sampleLoaded : State :=
  onDOMContentLoaded sampleDocument sampleBrowser.

(** The elements of the sample page that the examples name. *)
Definition sampleButton : Ref := 4.
Definition sampleAria : Ref := 5.
Definition sampleNestedBlank : Ref := 11.
Definition sampleNested : Ref := 17.
Definition sampleContainer : Ref := 12.
Definition sampleMetrics : Ref := 13.

(** The sample page half a second (500 ms) after the start of the session. *)
Definition sampleHalfSecond : State :=
  with_startTime 1900 sampleLoaded.

(** The ARIA button of the sample page as the script has wired it. *)
Definition sampleAriaWired : Element :=
  mkElement "DIV" "" "" (Some "button") "🎯 ARIA Role Button"
            "🎯 ARIA Role Button" "" "" "" "" [AriaClick] [AriaKeydown].

(** Three calls on the sample page. *)
Definition sampleCalls : list (EventType * Event) :=
  [(StressTestClick, [("sectionIndex", VNum 1)]);
   (AriaButtonClick, [("role", VStr "button")]);
   (StressTestClick, [("sectionIndex", VNum 2)])].

(** A page with a body and nothing in it. *)
Definition bareDocument : Document :=
  mkDocument (list_to_map [sampleElement 0 "HTML" "" "" None "";
                           sampleElement 1 "BODY" "" "" None ""])
             (Node 0 [Node 1 []]) 1 2.

Definition bareLoaded : State :=
  onDOMContentLoaded bareDocument sampleBrowser.

(** The bare page after one recorded event. *)
Definition bareAfterEvent : State :=
  logEvent StressTestClick [("sectionIndex", VNum 0)] bareLoaded.

(** The sample page as the constructor finds it. *)
Definition samplePage : State :=
  mkState (mkManager 1 [] 0) sampleDocument sampleBrowser.

(** More elements of the sample page, and some of them as the script has
    wired them. *)
Definition sampleHead : Ref := 1.
Definition sampleItem : Ref := 8.
Definition sampleLevel : Ref := 10.
Definition sampleReset : Ref := 15.

Definition sampleItemWired : Element :=
  mkElement "LI" "" "" None "Second" "Second" "" "" "" "" [ListItemClick 1] [].

Definition sampleButtonWired : Element :=
  mkElement "BUTTON" "dynamic-id-btn" "btn" None "🔄 Dynamic ID Button"
            "🔄 Dynamic ID Button" "" "" "" "" [DynamicIdClick] [].

Definition sampleNestedWired : Element :=
  mkElement "SPAN" "" "leaf  tip leaf" None "Deeper" "Deeper" "" "" "" ""
            [NestedClick 1] [].

(** A visit to the sample page: two clicks on the dynamic button, a key on
    the ARIA button, a timer, a reset, a stress test and one more click. *)
Definition sampleVisit : list Action :=
  [Click 4; Click 4; Keydown 5 "Enter"; Expire 0; Click 15; Click 16; Click 4].

(** A page on which a group with an id of the form dynamic-btn-... comes
    before the dynamic button. *)
Definition decoyDocument : Document :=
  mkDocument
    (list_to_map
       [sampleElement 0 "HTML" "" "" None "";
        sampleElement 1 "BODY" "" "" None "";
        sampleElement 2 "DIV" "dynamic-btn-group" "" None "Group";
        sampleElement 3 "BUTTON" "dynamic-id-btn" "" None "🔄 Dynamic ID Button"])
    (Node 0 [Node 1 [Node 2 []; Node 3 []]]) 1 4.

Definition decoyGroup : Ref := 2.
Definition decoyButton : Ref := 3.

(** That page after loading and one click on the button. *)
Definition decoyClicked : State :=
  click decoyButton (onDOMContentLoaded decoyDocument sampleBrowser).

(** A page on which elements lie inside wired elements: a list item of the
    unstable list holds a nested span with a B element in it, the reset
    button holds an I element and the ARIA button an EM element.  The
    content of each element is given by its text. *)
Definition innerDocument : Document :=
  mkDocument
    (list_to_map
       [sampleElement 0 "HTML" "" "" None "Deep Reset ARIA";
        sampleElement 1 "BODY" "" "" None "Deep Reset ARIA";
        sampleElement 2 "UL" "unstable-list" "deeply-nested" None "Deep";
        sampleElement 3 "LI" "" "" None "Deep";
        sampleElement 4 "SPAN" "" "" None "Deep";
        sampleElement 5 "B" "" "" None "Deep";
        sampleElement 6 "BUTTON" "reset-tests-btn" "" None "Reset";
        sampleElement 7 "I" "" "" None "Reset";
        sampleElement 8 "DIV" "" "" (Some "button") "ARIA";
        sampleElement 9 "EM" "" "" None "ARIA"])
    (Node 0 [Node 1 [Node 2 [Node 3 [Node 4 [Node 5 []]]];
                     Node 6 [Node 7 []];
                     Node 8 [Node 9 []]]])
    1 10.

Definition innerLoaded : State :=
  onDOMContentLoaded innerDocument sampleBrowser.

Definition innerItem : Ref := 3.
Definition innerSpan : Ref := 4.
Definition innerBold : Ref := 5.
Definition innerIcon : Ref := 7.
Definition innerAria : Ref := 8.
Definition innerLabel : Ref := 9.

(** * Properties *)

#[local] Arguments logEvent : simpl never.
#[local] Arguments updateMetricsDisplay : simpl never.
#[local] Arguments metricsTemplate : simpl never.
#[local] Arguments stripTags : simpl never.

(** ** Lists and trees *)

Lemma Tree_ind_all (P : Tree -> Prop) :
  (forall r kids, Forall P kids -> P (Node r kids)) -> forall t, P t.
Proof.
  intros step. fix rec 1. intros [r kids]. apply step.
  induction kids as [|k kids IH]; constructor; [apply rec | exact IH].
Qed.

Lemma differ {A} `{EqDecision A} (x y : A) :
  bool_decide (x = y) = false -> x <> y.
Proof. apply bool_decide_eq_false. Qed.


Lemma find_Some_elem {A} (p : A -> bool) (l : list A) (x : A) :
  find p l = Some x -> x ∈ l /\ p x = true.
Proof.
  intros Hf. apply find_some in Hf as [Hin Hp].
  split; [by apply list_elem_of_In | exact Hp].
Qed.

Lemma find_None_elem {A} (p : A -> bool) (l : list A) :
  find p l = None <-> forall x, x ∈ l -> p x = false.
Proof.
  split.
  - intros Hf x Hx. apply (find_none p l Hf). by apply list_elem_of_In.
  - induction l as [|a l IH]; simpl; intros Hall; [reflexivity|].
    rewrite (Hall a) by constructor.
    apply IH. intros x Hx. apply Hall. by constructor.
Qed.

Lemma find_ext {A} (p q : A -> bool) (l : list A) :
  (forall x, x ∈ l -> p x = q x) -> find p l = find q l.
Proof.
  induction l as [|a l IH]; simpl; intros Heq; [reflexivity|].
  rewrite <- (Heq a) by constructor.
  destruct (p a); [reflexivity|].
  apply IH. intros x Hx. apply Heq. by constructor.
Qed.

Lemma find_unique {A} `{EqDecision A} (p : A -> bool) (l : list A) (x : A) :
  x ∈ l -> p x = true -> (forall y, y ∈ l -> y <> x -> p y = false) ->
  find p l = Some x.
Proof.
  induction l as [|a l IH]; intros Hin Hp Hothers.
  - by apply elem_of_nil in Hin.
  - simpl. destruct (decide (a = x)) as [->|Hne].
    + by rewrite Hp.
    + rewrite (Hothers a) by (by constructor || done).
      apply IH; [|done|].
      * apply elem_of_cons in Hin as [->|Hin]; [done | exact Hin].
      * intros y Hy. apply Hothers. by constructor.
Qed.

Lemma elem_of_flat_map {A B} (f : A -> list B) (l : list A) (y : B) :
  y ∈ flat_map f l <-> exists x, x ∈ l /\ y ∈ f x.
Proof.
  rewrite list_elem_of_In, in_flat_map.
  split; intros (x & Hx & Hy); exists x.
  - by rewrite !list_elem_of_In.
  - by rewrite <- !list_elem_of_In.
Qed.

(** Updating the children of an element that is not attached changes
    nothing. *)
Lemma updateKids_absent (r : Ref) (f : list Tree -> list Tree) (t : Tree) :
  r ∉ preorder t -> updateKids r f t = t.
Proof.
  induction t as [x kids IH] using Tree_ind_all. simpl. intros Hnot.
  destruct (decide (x = r)) as [->|Hne].
  - exfalso. apply Hnot. by constructor.
  - f_equal. apply not_elem_of_cons in Hnot as [_ Hnot].
    induction kids as [|k kids IHkids]; [done|]. simpl in *.
    apply Forall_cons in IH as [Hk Hrest].
    apply not_elem_of_app in Hnot as [Hnotk Hnotrest].
    f_equal; [by apply Hk | by apply IHkids].
Qed.


(** Emptying an element detaches elements and attaches none. *)
Lemma preorder_clear_subset (r x : Ref) (t : Tree) :
  x ∈ preorder (updateKids r (fun _ => []) t) -> x ∈ preorder t.
Proof.
  induction t as [y kids IH] using Tree_ind_all. simpl.
  destruct (decide (y = r)) as [->|Hne]; simpl.
  - intros Hin. apply list_elem_of_singleton in Hin as ->. by constructor.
  - intros Hin. apply elem_of_cons in Hin as [->|Hin]; [by constructor|].
    constructor 2. apply elem_of_flat_map in Hin as (k' & Hk' & Hx).
    apply list_elem_of_fmap in Hk' as (k & -> & Hk).
    apply elem_of_flat_map. exists k. split; [done|].
    rewrite Forall_forall in IH. by apply IH.
Qed.

(** ** What rendering and logging touch *)

Lemma keeps_id : keeps id_.
Proof. done. Qed.

Lemma keeps_onClick : keeps onClick.
Proof. done. Qed.

Lemma lookup_modify (r x : Ref) (f : Element -> Element) (d : Document) :
  heap (modify r f d) !! x =
  if decide (r = x) then f <$> heap d !! r else heap d !! x.
Proof. unfold modify. simpl. apply lookup_alter. Qed.

Lemma this_updateMetricsDisplay (st : State) :
  this (updateMetricsDisplay st) = this st.
Proof.
  unfold updateMetricsDisplay.
  by destruct (getElementById _ _).
Qed.

Lemma tree_updateMetricsDisplay (st : State) :
  tree (document (updateMetricsDisplay st)) = renderTree (document st).
Proof.
  unfold updateMetricsDisplay, renderTree.
  by destruct (getElementById _ _).
Qed.

Lemma field_updateMetricsDisplay {A} (f : Element -> A) (st : State) (r : Ref) :
  keeps f ->
  f <$> heap (document (updateMetricsDisplay st)) !! r =
  f <$> heap (document st) !! r.
Proof.
  intros Hf. unfold updateMetricsDisplay.
  destruct (getElementById _ _) as [m|]; [|done].
  simpl. rewrite lookup_alter. case_decide as Hm; [subst r|done].
  destruct (heap (document st) !! m); simpl; [|done].
  by rewrite Hf.
Qed.

Lemma this_logEvent (eventType : EventType) (data : Event) (st : State) :
  this (logEvent eventType data st) =
  mkManager (dynamicIdCounter (this st))
    (push eventType data
       (if has_key eventType (testResults (this st))
        then testResults (this st)
        else testResults (this st) ++ [(eventType, [])]))
    (startTime (this st)).
Proof. unfold logEvent. simpl. by rewrite this_updateMetricsDisplay. Qed.

Lemma tree_logEvent (eventType : EventType) (data : Event) (st : State) :
  tree (document (logEvent eventType data st)) = renderTree (document st).
Proof. unfold logEvent. simpl. by rewrite tree_updateMetricsDisplay. Qed.

Lemma field_logEvent {A} (f : Element -> A) (eventType : EventType)
    (data : Event) (st : State) (r : Ref) :
  keeps f ->
  f <$> heap (document (logEvent eventType data st)) !! r =
  f <$> heap (document st) !! r.
Proof.
  intros Hf. unfold logEvent. simpl.
  by rewrite field_updateMetricsDisplay.
Qed.

(** ** Clicks on the dynamic ID button *)

Lemma fmap_fmap_keep {A} (f : Element -> A) (g : Element -> Element)
    (o : option Element) :
  (forall e, f (g e) = f e) -> f <$> (g <$> o) = f <$> o.
Proof. intros Hfg. destruct o; simpl; [by rewrite Hfg | done]. Qed.

Section DynamicId.
Context `{Host}.

Lemma dynamicIdClick_counter (b : Ref) (st : State) :
  is_Some (heap (document st) !! b) ->
  dynamicIdCounter (this (dynamicIdClick b st)) = dynamicIdCounter (this st) + 1.
Proof.
  intros [e He]. unfold dynamicIdClick. rewrite He. cbn.
  by rewrite this_logEvent.
Qed.

Lemma dynamicIdClick_id (b : Ref) (st : State) :
  is_Some (heap (document st) !! b) ->
  id_ <$> heap (document (dynamicIdClick b st)) !! b =
  Some ("dynamic-btn-" +:+ pretty (dynamicIdCounter (this st))).
Proof.
  intros [e He]. unfold dynamicIdClick. rewrite He. cbn.
  rewrite lookup_alter, decide_True by done.
  rewrite fmap_fmap_keep by done.
  rewrite (field_logEvent id_) by done. cbn.
  rewrite !lookup_alter, !decide_True by done.
  by rewrite He.
Qed.

Lemma dynamicIdClick_field {A} (f : Element -> A) (b r : Ref) (st : State) :
  keeps f ->
  (forall s e, f (set_id s e) = f e) ->
  (forall s e, f (set_backgroundColor s e) = f e) ->
  f <$> heap (document (dynamicIdClick b st)) !! r =
  f <$> heap (document st) !! r.
Proof.
  intros Hkeep Hid Hbg. unfold dynamicIdClick.
  destruct (heap (document st) !! b) as [e|] eqn:He; [|done]. cbn.
  rewrite lookup_alter. case_decide as Hbr.
  - subst r. rewrite fmap_fmap_keep by done.
    rewrite (field_logEvent f) by done. cbn.
    rewrite !lookup_alter, !decide_True by done.
    rewrite He. cbn. by rewrite Hkeep, Hid.
  - rewrite (field_logEvent f) by done. cbn.
    by rewrite !lookup_alter, !decide_False by done.
Qed.

(** On a button that carries the listener of [setupDynamicIdButton] and no
    other, a click is one run of that listener. *)
Lemma click_dynamic_button (b : Ref) (st : State) :
  onClick <$> heap (document st) !! b = Some [DynamicIdClick] ->
  click b st = dynamicIdClick b st.
Proof.
  unfold click. destruct (heap (document st) !! b) as [e|]; [|done].
  cbn. by intros [= ->].
Qed.

Lemma clicks_keep_listener (b : Ref) (st : State) (N : nat) :
  onClick <$> heap (document st) !! b = Some [DynamicIdClick] ->
  onClick <$> heap (document (Nat.iter N (click b) st)) !! b =
  Some [DynamicIdClick].
Proof.
  intros Hwired. induction N as [|N IH]; [done|].
  rewrite Nat.iter_succ, click_dynamic_button by done.
  by rewrite (dynamicIdClick_field onClick).
Qed.

Lemma clicks_counter (b : Ref) (st : State) (N : nat) :
  onClick <$> heap (document st) !! b = Some [DynamicIdClick] ->
  dynamicIdCounter (this (Nat.iter N (click b) st)) =
  dynamicIdCounter (this st) + Z.of_nat N.
Proof.
  intros Hwired. induction N as [|N IH]; [cbn; lia|].
  pose proof (clicks_keep_listener b st N Hwired) as Hl.
  rewrite Nat.iter_succ, click_dynamic_button by done.
  rewrite dynamicIdClick_counter; [lia|].
  by apply fmap_is_Some with (f := onClick); rewrite Hl.
Qed.

Lemma clicks_id (b : Ref) (st : State) (N : nat) :
  onClick <$> heap (document st) !! b = Some [DynamicIdClick] ->
  id_ <$> heap (document (Nat.iter (S N) (click b) st)) !! b =
  Some ("dynamic-btn-" +:+ pretty (dynamicIdCounter (this st) + Z.of_nat N)).
Proof.
  intros Hwired.
  pose proof (clicks_keep_listener b st N Hwired) as Hl.
  rewrite Nat.iter_succ, click_dynamic_button by done.
  rewrite dynamicIdClick_id.
  - by rewrite clicks_counter.
  - by apply fmap_is_Some with (f := onClick); rewrite Hl.
Qed.

End DynamicId.

Section DynamicIdClaim.
Context `{Host}.

(** C1 (amended).  Start from a state in which the counter is 1 (a fresh or
    freshly reset manager) and the button [b] carries the listener of
    [setupDynamicIdButton].  After N clicks on [b] the counter is N + 1, one
    more click adds exactly one to it, and for N >= 1 the identifier of the
    button is the string dynamic-btn-N; with no click at all the button is
    as it was. *)
Theorem dynamic_id_clicks (st : State) (b : Ref) (N : nat) :
  dynamicIdCounter (this st) = 1 ->
  onClick <$> heap (document st) !! b = Some [DynamicIdClick] ->
  let st' := Nat.iter N (click b) st in
  dynamicIdCounter (this st') = Z.of_nat N + 1 /\
  dynamicIdCounter (this (click b st')) = dynamicIdCounter (this st') + 1 /\
  ((1 <= N)%nat ->
   id_ <$> heap (document st') !! b =
   Some ("dynamic-btn-" +:+ pretty (Z.of_nat N))) /\
  (N = 0%nat -> heap (document st') !! b = heap (document st) !! b).
Proof.
  intros Hfresh Hwired st'. subst st'.
  split; [|split; [|split]].
  - rewrite clicks_counter by done. lia.
  - change (click b (Nat.iter N (click b) st))
      with (Nat.iter (S N) (click b) st).
    rewrite !clicks_counter by done. lia.
  - intros HN. destruct N as [|N]; [lia|].
    rewrite clicks_id by done. do 3 f_equal. lia.
  - by intros ->.
Qed.

End DynamicIdClaim.

(** C1 as stated fails when the sequence is empty: on the sample page, before
    any click, the identifier of the button is still the one of the page, not
    dynamic-btn-0. *)
Lemma dynamic_id_clicks_not_for_zero :
  ~ (forall N : nat,
       let st' := Nat.iter N (click sampleButton) sampleLoaded in
       dynamicIdCounter (this st') = Z.of_nat N + 1 /\
       id_ <$> heap (document st') !! sampleButton =
       Some ("dynamic-btn-" +:+ pretty (Z.of_nat N))).
Proof.
  intros Hall. destruct (Hall 0%nat) as [_ Hid].
  vm_compute in Hid. discriminate Hid.
Qed.

Lemma dynamic_id_clicks_witness :
  let st' := Nat.iter 3 (click sampleButton) sampleLoaded in
  dynamicIdCounter (this st') = 4 /\
  dynamicIdCounter (this (click sampleButton st')) = dynamicIdCounter (this st') + 1 /\
  ((1 <= 3)%nat ->
   id_ <$> heap (document st') !! sampleButton = Some ("dynamic-btn-" +:+ pretty 3)) /\
  (3%nat = 0%nat -> heap (document st') !! sampleButton = heap (document sampleLoaded) !! sampleButton).
Proof.
  apply (dynamic_id_clicks sampleLoaded sampleButton 3); vm_compute; reflexivity.
Defined.

(** ** The metrics panel *)

Lemma Math_round_milliseconds (d : Z) :
  Math_round (inject_Z d / 1000) = (d + 500) / 1000.
Proof.
  unfold Math_round, Qfloor, Qplus, Qdiv, Qmult, Qinv, inject_Z. cbn.
  change (Z.pos (1 * 1000 * 2)) with (1000 * 2).
  change (Z.pos (1 * 1000)) with 1000.
  replace (d * 1 * 2 + 1 * 1000) with ((d + 500) * 2) by lia.
  apply Z.div_mul_cancel_r; lia.
Qed.

Lemma totalEvents_sum (l : EventLog) :
  totalEvents l = Z.of_nat (sumOfLengths l).
Proof.
  unfold totalEvents, sumOfLengths.
  assert (forall (ls : list (list Event)) (acc : Z),
            fold_left (fun sum events => sum + Z.of_nat (length events)) ls acc
            = acc + Z.of_nat (sum_list (map length ls))) as Hgen.
  { induction ls as [|events ls IH]; intros acc; cbn; [lia|].
    rewrite IH. cbn. lia. }
  rewrite Hgen. lia.
Qed.

(** The element [getElementById] returns is an object with that id. *)
Lemma getElementById_Some (s : string) (d : Document) (r : Ref) :
  getElementById s d = Some r ->
  exists e, heap d !! r = Some e /\ id_ e = s /\ r ∈ preorder (tree d).
Proof.
  unfold getElementById. intros Hfind.
  apply find_Some_elem in Hfind as [Hin Hmatch].
  unfold matches in Hmatch.
  destruct (heap d !! r) as [e|]; [|done].
  exists e. split; [done|]. split; [|done].
  simpl in Hmatch. unfold has_id in Hmatch. by apply bool_decide_eq_true in Hmatch.
Qed.

(** What [updateMetricsDisplay] writes into the panel. *)
Lemma updateMetricsDisplay_writes (st : State) (m : Ref) :
  getElementById "test-metrics" (document st) = Some m ->
  innerHTML <$> heap (document (updateMetricsDisplay st)) !! m =
  Some (metricsTemplate
          (totalEvents (testResults (this st)))
          (Z.of_nat (length (Object_keys (testResults (this st)))))
          (Math_round
             (inject_Z (clock (browser st) (ticks (browser st))
                        - startTime (this st)) / 1000))).
Proof.
  intros Hm. unfold updateMetricsDisplay. rewrite Hm. cbn.
  apply getElementById_Some in Hm as (e & He & _).
  rewrite lookup_alter, decide_True by done.
  by rewrite He.
Qed.

(** C7 (amended).  When the panel is present, the duration that
    [updateMetricsDisplay] writes is the elapsed time t - s in milliseconds
    rounded to the nearest whole second, a half rounding up: it is
    floor((t - s + 500) / 1000), where t is the clock reading of the render
    and s the session clock. *)
Theorem rendered_duration (st : State) (m : Ref) :
  getElementById "test-metrics" (document st) = Some m ->
  let t := clock (browser st) (ticks (browser st)) in
  let s := startTime (this st) in
  innerHTML <$> heap (document (updateMetricsDisplay st)) !! m =
  Some (metricsTemplate
          (Z.of_nat (sumOfLengths (testResults (this st))))
          (Z.of_nat (length (Object_keys (testResults (this st)))))
          ((t - s + 500) / 1000)).
Proof.
  intros Hm t s.
  rewrite (updateMetricsDisplay_writes st m Hm).
  by rewrite Math_round_milliseconds, totalEvents_sum.
Qed.

Lemma rendered_duration_witness :
  innerHTML <$> heap (document (updateMetricsDisplay sampleHalfSecond)) !! sampleMetrics =
  Some (metricsTemplate 0 0 1).
Proof.
  exact (rendered_duration sampleHalfSecond sampleMetrics eq_refl).
Defined.

(** C7 as stated fails: half a second after the start of the session
    (t - s = 500) the panel shows 1 second, not floor(500 / 1000) = 0. *)
Lemma rendered_duration_not_floored :
  ~ (forall (st : State) (m : Ref),
       getElementById "test-metrics" (document st) = Some m ->
       let t := clock (browser st) (ticks (browser st)) in
       let s := startTime (this st) in
       t >= s ->
       innerHTML <$> heap (document (updateMetricsDisplay st)) !! m =
       Some (metricsTemplate
               (Z.of_nat (sumOfLengths (testResults (this st))))
               (Z.of_nat (length (Object_keys (testResults (this st)))))
               ((t - s) / 1000))).
Proof.
  intros Hall.
  specialize (Hall sampleHalfSecond sampleMetrics eq_refl).
  assert (innerHTML <$> heap (document (updateMetricsDisplay sampleHalfSecond))
                           !! sampleMetrics
          <> Some (metricsTemplate 0 0 0)) as Hne.
  { apply differ. by vm_compute. }
  apply Hne. apply Hall. by vm_compute.
Qed.

(** ** Export *)

Section Exporter.
Context `{Host}.

Lemma this_followDownloadLink (a : Ref) (st : State) :
  this (followDownloadLink a st) = this st.
Proof.
  unfold followDownloadLink.
  destruct (heap (document st) !! a) as [e|]; [|done].
  by destruct (objectURLs (browser st) !! href e).
Qed.

Lemma this_exportTestResults (st : State) :
  this (exportTestResults st) = this st.
Proof.
  unfold exportTestResults. cbn.
  by rewrite this_followDownloadLink.
Qed.

(** C10.  Export leaves the event log, the counter and the session clock as
    they are, however often it runs, and an event recorded after an export is
    recorded as it would have been without it. *)
Theorem export_reads_only (st : State) (n : nat) :
  this (Nat.iter n exportTestResults st) = this st /\
  forall eventType data,
    testResults (this (logEvent eventType data (Nat.iter n exportTestResults st))) =
    testResults (this (logEvent eventType data st)).
Proof.
  assert (this (Nat.iter n exportTestResults st) = this st) as Hthis.
  { induction n as [|n IH]; [done|].
    by rewrite Nat.iter_succ, this_exportTestResults. }
  split; [done|]. intros eventType data.
  by rewrite !this_logEvent, Hthis.
Qed.

(** C4.  The file offered by export: its name carries the clock reading taken
    for it, and its text is the serialization, indented by 2, of an object
    with exactly the fields testResults, testDuration, timestamp and
    totalEvents, where testResults is the log as it is (an object with the
    event names of the log as keys, in the order of the log, each holding
    the array of the records stored under it), testDuration the
    first clock reading minus the session clock, timestamp the ISO form of
    the second reading, and totalEvents the sum of the lengths of the arrays
    of the log. *)
Theorem export_file (st : State) :
  let t1 := clock (browser st) (ticks (browser st)) in
  let t2 := clock (browser st) (S (ticks (browser st))) in
  let t3 := clock (browser st) (S (S (ticks (browser st)))) in
  downloads (browser (exportTestResults st)) =
  downloads (browser st) ++
  [mkDownload
     ("webfast-robustness-test-" +:+ pretty t3 +:+ ".json")
     (JSON_stringify
        (VObj [("testResults",
                VObj (map (fun entry =>
                             (eventName entry.1, VArr (map VObj entry.2)))
                          (testResults (this st))));
               ("testDuration", VNum (t1 - startTime (this st)));
               ("timestamp", VStr (toISOString t2));
               ("totalEvents",
                VNum (Z.of_nat (sumOfLengths (testResults (this st)))))])
        2)].
Proof.
  unfold exportTestResults, followDownloadLink, exportObject, logValue. cbn.
  rewrite !lookup_alter, !decide_True by done.
  rewrite lookup_insert_eq. cbn.
  rewrite lookup_insert_eq. cbn.
  by rewrite totalEvents_sum.
Qed.

End Exporter.

(** ** Stress test without a container *)

Section StressAbsent.
Context `{Host}.

(** C9.  When the page has no stress-test container, the stress-test
    generator changes nothing at all: in particular no stress-test-performed
    record is appended. *)
Theorem stress_test_without_container (st : State) :
  getElementById "stress-test-container" (document st) = None ->
  performStressTest st = st.
Proof.
  intros Hnone. unfold performStressTest. by rewrite Hnone.
Qed.

End StressAbsent.

Lemma stress_test_without_container_witness :
  performStressTest bareAfterEvent = bareAfterEvent /\
  testResults (this bareAfterEvent) =
  [(StressTestClick, [[("sectionIndex", VNum 0)]])].
Proof.
  split.
  - apply stress_test_without_container. by vm_compute.
  - by vm_compute.
Defined.

(** ** Keyboard activation of the ARIA button *)

Section Aria.
Context `{Host}.

Lemma click_aria_button (a : Ref) (st : State) (e : Element) :
  heap (document st) !! a = Some e ->
  onClick e = [AriaClick] ->
  click a st = ariaClick a st.
Proof.
  intros He Hwired. unfold click. by rewrite He, Hwired.
Qed.

(** C6.  On an element wired as [setupAriaButton] wires it, a keydown with
    key Enter or Space leaves exactly the state a click at the same moment
    leaves, and the one event either of them appends to the log is the
    aria-button-click record with the role attribute, the tag name and the
    clock reading. *)
Theorem aria_keyboard_activation (st : State) (a : Ref) (e : Element)
    (key : string) :
  heap (document st) !! a = Some e ->
  onClick e = [AriaClick] ->
  onKeydown e = [AriaKeydown] ->
  key = "Enter" \/ key = " " ->
  keydown a key st = click a st /\
  testResults (this (keydown a key st)) =
  push AriaButtonClick
    [("role", from_option VStr VNull (role e));
     ("tagName", VStr (tagName e));
     ("timestamp", VNum (clock (browser st) (ticks (browser st))))]
    (if has_key AriaButtonClick (testResults (this st))
     then testResults (this st)
     else testResults (this st) ++ [(AriaButtonClick, [])]).
Proof.
  intros He Hclick Hkey Hwhich.
  assert (keydown a key st = click a st) as Hsame.
  { unfold keydown. rewrite He, Hkey. cbn. unfold ariaKeydown.
    by destruct Hwhich as [-> | ->]. }
  split; [done|].
  rewrite Hsame, (click_aria_button a st e He Hclick).
  unfold ariaClick. rewrite He. cbn.
  by rewrite this_logEvent.
Qed.

End Aria.

Lemma aria_keyboard_activation_witness :
  keydown sampleAria " " sampleLoaded = click sampleAria sampleLoaded /\
  testResults (this (keydown sampleAria " " sampleLoaded)) =
  push AriaButtonClick
    [("role", from_option VStr VNull (role sampleAriaWired));
     ("tagName", VStr (tagName sampleAriaWired));
     ("timestamp",
      VNum (clock (browser sampleLoaded) (ticks (browser sampleLoaded))))]
    (if has_key AriaButtonClick (testResults (this sampleLoaded))
     then testResults (this sampleLoaded)
     else testResults (this sampleLoaded) ++ [(AriaButtonClick, [])]).
Proof.
  apply (aria_keyboard_activation sampleLoaded sampleAria sampleAriaWired " ");
    [by vm_compute | done | done | by right].
Defined.

Example aria_keyboard_activation_sample :
  testResults (this (keydown sampleAria "Enter" sampleLoaded)) =
  [(AriaButtonClick,
    [[("role", VStr "button"); ("tagName", VStr "DIV"); ("timestamp", VNum 2400)]])].
Proof. by vm_compute. Qed.

(** ** The panel follows the log *)

Lemma Object_keys_push (k : EventType) (data : Event) (l : EventLog) :
  Object_keys (push k data l) = Object_keys l.
Proof.
  induction l as [|[k' events] l IH]; [done|]. simpl.
  destruct (decide (k' = k)); simpl; [done | by rewrite IH].
Qed.

Lemma sumOfLengths_push (k : EventType) (data : Event) (l : EventLog) :
  k ∈ Object_keys l ->
  sumOfLengths (push k data l) = S (sumOfLengths l).
Proof.
  unfold sumOfLengths, Object_values, Object_keys.
  induction l as [|[k' events] l IH]; intros Hin.
  - by apply elem_of_nil in Hin.
  - simpl. destruct (decide (k' = k)) as [->|Hne]; cbn.
    + rewrite length_app. cbn. lia.
    + rewrite IH; [lia|].
      apply elem_of_cons in Hin as [Heq|Hin]; [by subst | done].
Qed.

Lemma sumOfLengths_new_key (k : EventType) (l : EventLog) :
  sumOfLengths (l ++ [(k, [])]) = sumOfLengths l.
Proof.
  unfold sumOfLengths, Object_values.
  induction l as [|[k' events] l IH]; cbn; [done | by rewrite IH].
Qed.

Lemma logged_keys (k : EventType) (data : Event) (l : EventLog) :
  Object_keys (logged k data l) =
  if has_key k l then Object_keys l else Object_keys l ++ [k].
Proof.
  unfold logged. rewrite Object_keys_push.
  destruct (has_key k l); [done|].
  unfold Object_keys. by rewrite map_app.
Qed.

Lemma logged_sum (k : EventType) (data : Event) (l : EventLog) :
  sumOfLengths (logged k data l) = S (sumOfLengths l).
Proof.
  unfold logged. destruct (has_key k l) eqn:Hkey.
  - apply sumOfLengths_push. unfold has_key in Hkey.
    by apply bool_decide_eq_true in Hkey.
  - rewrite sumOfLengths_push, sumOfLengths_new_key; [done|].
    unfold Object_keys. rewrite map_app. apply elem_of_app. right.
    by constructor.
Qed.

Lemma logged_NoDup (k : EventType) (data : Event) (l : EventLog) :
  NoDup (Object_keys l) -> NoDup (Object_keys (logged k data l)).
Proof.
  intros Hnd. rewrite logged_keys. destruct (has_key k l) eqn:Hkey; [done|].
  apply NoDup_app. split; [done|]. split; [|apply NoDup_singleton].
  intros x Hx Hxk. apply list_elem_of_singleton in Hxk as ->.
  unfold has_key in Hkey. by apply bool_decide_eq_false in Hkey.
Qed.

Lemma testResults_logEvent (k : EventType) (data : Event) (st : State) :
  testResults (this (logEvent k data st)) = logged k data (testResults (this st)).
Proof. by rewrite this_logEvent. Qed.





Lemma logEvents_log (calls : list (EventType * Event)) (st : State) :
  NoDup (Object_keys (testResults (this st))) ->
  let l := testResults (this (logEvents calls st)) in
  sumOfLengths l = (sumOfLengths (testResults (this st)) + length calls)%nat /\
  NoDup (Object_keys l) /\
  forall k, k ∈ Object_keys l <->
            k ∈ Object_keys (testResults (this st)) \/ k ∈ calls.*1.
Proof.
  revert st. induction calls as [|[k data] calls IH]; intros st Hnd.
  - cbn. split; [lia|]. split; [done|]. intros k. rewrite elem_of_nil. tauto.
  - cbn. specialize (IH (logEvent k data st)).
    rewrite testResults_logEvent in IH.
    destruct (IH (logged_NoDup k data _ Hnd)) as (Hsum & Hdup & Hkeys).
    split; [|split; [done|]].
    + unfold logEvents in Hsum. rewrite Hsum, logged_sum. lia.
    + intros k'. unfold logEvents in Hkeys. rewrite Hkeys, logged_keys.
      rewrite elem_of_cons.
      destruct (has_key k (testResults (this st))) eqn:Hkey.
      * unfold has_key in Hkey. apply bool_decide_eq_true in Hkey.
        split; [tauto|]. intros [?|[->|?]]; tauto.
      * rewrite elem_of_app, list_elem_of_singleton. tauto.
Qed.

(** *** A freshly constructed manager *)

Lemma this_forEach (elements : list Ref) (body : Ref -> Z -> State -> State)
    (st : State) :
  (forall r i st, this (body r i st) = this st) ->
  this (forEach elements body st) = this st.
Proof.
  intros Hbody. unfold forEach. generalize (imap pair elements). intros l.
  revert st. induction l as [|p l IH]; intros st; [done|].
  simpl. by rewrite IH, Hbody.
Qed.

Lemma this_setupDynamicIdButton (st : State) :
  this (setupDynamicIdButton st) = this st.
Proof. unfold setupDynamicIdButton. by destruct (getElementById _ _). Qed.

Lemma this_setupListInteractions (st : State) :
  this (setupListInteractions st) = this st.
Proof. unfold setupListInteractions. by apply this_forEach. Qed.

Lemma this_setupAriaButton (st : State) :
  this (setupAriaButton st) = this st.
Proof. unfold setupAriaButton. by destruct (querySelector _ _). Qed.

Lemma this_setupNestedElementTests (st : State) :
  this (setupNestedElementTests st) = this st.
Proof. unfold setupNestedElementTests. by apply this_forEach. Qed.

Lemma new_manager_fields (d : Document) (w : Browser) :
  let st := new_RobustnessTestManager d w in
  dynamicIdCounter (this st) = 1 /\ testResults (this st) = [].
Proof.
  unfold new_RobustnessTestManager, init, initializeMetrics. cbn.
  rewrite this_updateMetricsDisplay. cbn.
  by rewrite this_setupNestedElementTests, this_setupAriaButton,
    this_setupListInteractions, this_setupDynamicIdButton.
Qed.




Example panel_shows_totals_sample :
  let st := logEvents sampleCalls
              (new_RobustnessTestManager sampleDocument sampleBrowser) in
  testResults (this st) =
  [(StressTestClick, [[("sectionIndex", VNum 1)]; [("sectionIndex", VNum 2)]]);
   (AriaButtonClick, [[("role", VStr "button")]])] /\
  innerHTML <$> heap (document st) !! sampleMetrics =
  Some (metricsTemplate 3 2 3).
Proof. by vm_compute. Qed.

(** ** Clicks on nested elements *)

Section Nested.
Context `{Host}.

Lemma nestingLoop_chain (body : Ref) (inner outer : list Ref) (level : Z) :
  body ∉ inner ->
  nestingLoop body (inner ++ body :: outer) level =
  level + Z.of_nat (length inner).
Proof.
  revert level. induction inner as [|p inner IH]; intros level Hnot; simpl.
  - rewrite decide_True by done. lia.
  - apply not_elem_of_cons in Hnot as [Hne Hnot].
    rewrite decide_False by done. rewrite IH by done. lia.
Qed.

Lemma cssPathLoop_chain (d : Document) (below outer : list Ref)
    (path : list string) :
  body d ∉ below ->
  cssPathLoop d (below ++ body d :: outer) path =
  map (fun r => selectorOf (elementAt d r)) (rev below) ++ path.
Proof.
  revert path. induction below as [|c below IH]; intros path Hnot; simpl.
  - by rewrite decide_True.
  - apply not_elem_of_cons in Hnot as [Hne Hnot].
    rewrite decide_False by done. rewrite IH by done.
    by rewrite map_app, <- app_assoc.
Qed.

Lemma selectorOf_segment (e : Element) :
  classAttributeProper e -> selectorOf e = segment e.
Proof.
  intros Hproper. unfold selectorOf, segment.
  destruct (decide (id_ e = "")) as [Hid|Hid].
  - rewrite bool_decide_eq_false_2 by (by intros Hne; apply Hne).
    destruct (decide (classList e = [])) as [Hcl|Hcl].
    + destruct Hproper as [Hempty|Hne]; [|done].
      by rewrite bool_decide_eq_false_2 by (by intros Hne; apply Hne).
    + rewrite bool_decide_eq_true_2; [done|].
      intros Hempty. apply Hcl. unfold classList. by rewrite Hempty.
  - by rewrite bool_decide_eq_true_2.
Qed.

Lemma click_nested_element (element : Ref) (index : Z) (st : State) :
  onClick <$> heap (document st) !! element = Some [NestedClick index] ->
  click element st = nestedClick element index st.
Proof.
  unfold click. destruct (heap (document st) !! element) as [e|]; [|done].
  simpl. by intros [= ->].
Qed.

(** The record a click on a nested element appends, in terms of the loops of
    the script. *)
Lemma nestedClick_log (element : Ref) (index : Z) (st : State) :
  is_Some (heap (document st) !! element) ->
  testResults (this (nestedClick element index st)) =
  logged NestedElementClick
    [("elementIndex", VNum index);
     ("nestingLevel", VNum (calculateNestingLevel element (document st)));
     ("cssPath", VStr (generateCssPath element (document st)));
     ("timestamp", VNum (clock (browser st) (ticks (browser st))))]
    (testResults (this st)).
Proof.
  intros [e He]. unfold nestedClick. rewrite He. cbn.
  by rewrite this_logEvent.
Qed.

(** X23.  Let [element] carry the listener of [setupNestedElementTests] and
    be attached below the body, [inner] being its ancestors up to but excluding
    the body.  If the class attribute of [element] and of each of these
    ancestors is empty or holds at least one class, a click on [element]
    appends a nested-element-click record whose nestingLevel is the number
    of these ancestors and whose cssPath joins with " > " the segments of
    these ancestors, outermost first, and of [element] itself. *)
Theorem nested_click_record (st : State) (element : Ref) (index : Z)
    (inner outer : list Ref) :
  let d := document st in
  onClick <$> heap d !! element = Some [NestedClick index] ->
  parentChain d element = inner ++ body d :: outer ->
  body d ∉ element :: inner ->
  Forall (fun r => classAttributeProper (elementAt d r)) (element :: inner) ->
  testResults (this (click element st)) =
  logged NestedElementClick
    [("elementIndex", VNum index);
     ("nestingLevel", VNum (Z.of_nat (length inner)));
     ("cssPath",
      VStr (String.concat " > "
              (map (fun r => segment (elementAt d r)) (rev inner ++ [element]))));
     ("timestamp", VNum (clock (browser st) (ticks (browser st))))]
    (testResults (this st)).
Proof.
  intros d Hwired Hchain Hbody Hproper. subst d.
  rewrite (click_nested_element element index) by done.
  rewrite nestedClick_log
    by (by apply fmap_is_Some with (f := onClick); rewrite Hwired).
  unfold calculateNestingLevel, generateCssPath. rewrite Hchain.
  rewrite nestingLoop_chain
    by (by apply not_elem_of_cons in Hbody as [_ ?]).
  rewrite app_comm_cons.
  rewrite (cssPathLoop_chain _ (element :: inner) outer []) by done.
  rewrite app_nil_r. simpl rev.
  assert (map (fun r => selectorOf (elementAt (document st) r))
              (rev inner ++ [element]) =
          map (fun r => segment (elementAt (document st) r))
              (rev inner ++ [element])) as ->; [|done].
  apply map_ext_in. intros r Hr. apply selectorOf_segment.
  rewrite Forall_forall in Hproper. apply Hproper.
  apply in_app_or in Hr as [Hr|Hr].
  - constructor 2. apply list_elem_of_In. by apply in_rev.
  - destruct Hr as [->|[]]. by constructor.
Qed.

End Nested.

Lemma nested_click_record_witness :
  testResults (this (click sampleNested sampleLoaded)) =
  logged NestedElementClick
    [("elementIndex", VNum 1);
     ("nestingLevel", VNum (Z.of_nat (length [10; 9; 3]%nat)));
     ("cssPath",
      VStr (String.concat " > "
              (map (fun r => segment (elementAt (document sampleLoaded) r))
                   (rev [10; 9; 3]%nat ++ [sampleNested]))));
     ("timestamp",
      VNum (clock (browser sampleLoaded) (ticks (browser sampleLoaded))))]
    (testResults (this sampleLoaded)).
Proof.
  apply (nested_click_record sampleLoaded sampleNested 1 [10; 9; 3]%nat [0%nat]).
  - by vm_compute.
  - by vm_compute.
  - apply (bool_decide_unpack _). by vm_compute.
  - apply (bool_decide_unpack _). by vm_compute.
Defined.

Example nested_click_record_sample :
  testResults (this (click sampleNested sampleLoaded)) =
  [(NestedElementClick,
    [[("elementIndex", VNum 1);
      ("nestingLevel", VNum 3);
      ("cssPath",
       VStr "div#app > div.deeply-nested > div.level-1.deep > span.leaf.tip");
      ("timestamp", VNum 2400)]])].
Proof. by vm_compute. Qed.

(** C8, on the span of the sample page whose class attribute is one space:
    the span has no id and no class, so its segment should be its tag name
    alone; the record a click on it appends ends its cssPath with the tag
    name followed by a dot, because [generateCssPath] tests the class
    attribute (line 135) and then joins the empty class list (line 136). *)
Theorem nested_click_blank_class_record :
  let e := elementAt (document sampleLoaded) sampleNestedBlank in
  id_ e = "" /\
  className e = " " /\
  classList e = [] /\
  segment e = "span" /\
  selectorOf e = "span." /\
  testResults (this (click sampleNestedBlank sampleLoaded)) =
  [(NestedElementClick,
    [[("elementIndex", VNum 0);
      ("nestingLevel", VNum 3);
      ("cssPath",
       VStr "div#app > div.deeply-nested > div.level-1.deep > span.");
      ("timestamp", VNum 2400)]])].
Proof. by vm_compute. Qed.

(** Hence the description of the segments does not hold of every nested
    element. *)
Lemma nested_click_blank_class :
  ~ (forall (st : State) (element : Ref) (index : Z) (inner outer : list Ref),
       let d := document st in
       onClick <$> heap d !! element = Some [NestedClick index] ->
       parentChain d element = inner ++ body d :: outer ->
       body d ∉ element :: inner ->
       testResults (this (click element st)) =
       logged NestedElementClick
         [("elementIndex", VNum index);
          ("nestingLevel", VNum (Z.of_nat (length inner)));
          ("cssPath",
           VStr (String.concat " > "
                   (map (fun r => segment (elementAt d r))
                        (rev inner ++ [element]))));
          ("timestamp", VNum (clock (browser st) (ticks (browser st))))]
         (testResults (this st))).
Proof.
  intros Hall.
  specialize (Hall sampleLoaded sampleNestedBlank 0 [10; 9; 3]%nat [0%nat]).
  cbv zeta in Hall.
  assert (testResults (this (click sampleNestedBlank sampleLoaded)) =
          [(NestedElementClick,
            [[("elementIndex", VNum 0);
              ("nestingLevel", VNum 3);
              ("cssPath",
               VStr "div#app > div.deeply-nested > div.level-1.deep > span.");
              ("timestamp", VNum 2400)]])]) as Hcode by (by vm_compute).
  rewrite Hcode in Hall.
  assert (body (document sampleLoaded) ∉ [sampleNestedBlank; 10; 9; 3]%nat)
    as Hbody by (apply (bool_decide_unpack _); by vm_compute).
  specialize (Hall ltac:(by vm_compute) ltac:(by vm_compute) Hbody).
  vm_compute in Hall. discriminate Hall.
Qed.

(** ** The stress test *)

Lemma updateKids_updateKids (r : Ref) (f g : list Tree -> list Tree) (t : Tree) :
  updateKids r g (updateKids r f t) = updateKids r (g ∘ f) t.
Proof.
  induction t as [x kids IH] using Tree_ind_all. simpl.
  destruct (decide (x = r)) as [->|Hne]; simpl.
  - by rewrite decide_True.
  - rewrite decide_False by done. f_equal.
    induction kids as [|k kids IHkids]; [done|].
    apply Forall_cons in IH as [Hk Hrest].
    cbn. rewrite Hk. f_equal. by apply IHkids.
Qed.

(** Identities handed out one after the other differ. *)
Lemma later_ref_differs (a b : nat) (n : Ref) :
  Nat.eqb a b = false -> (a + n)%nat <> (b + n)%nat.
Proof. intros Hab Heq. apply Nat.eqb_neq in Hab. lia. Qed.

#[local] Ltac count_succ t :=
  lazymatch t with
  | S ?t' => let k := count_succ t' in constr:(S k)
  | _ => constr:(O)
  end.

#[local] Ltac succ_base t :=
  lazymatch t with
  | S ?t' => succ_base t'
  | _ => t
  end.

#[local] Ltac refs_differ :=
  lazymatch goal with
  | |- ?x <> ?y =>
      let a := count_succ x in
      let b := count_succ y in
      let n := succ_base x in
      exact (later_ref_differs a b n eq_refl)
  end.

#[local] Ltac heap_lookup :=
  repeat first
    [ rewrite lookup_alter_eq
    | rewrite lookup_insert_eq
    | rewrite lookup_alter_ne by refs_differ
    | rewrite lookup_insert_ne by refs_differ ].

Lemma buildSubsection_eq (i j : Z) (h : gmap Ref Element) (t : Tree)
    (b n : Ref) (sectionKids : list Tree) :
  buildSubsection i j (mkDocument h t b n, sectionKids) =
  (mkDocument
     (<[S n := stressButtonElement i j]> (<[n := stressSubsectionElement j]> h))
     t b (S (S n)),
   sectionKids ++ [Node n [Node (S n) []]]).
Proof.
  unfold buildSubsection, createElement, modify, with_heap. cbn.
  by rewrite !alter_insert_eq.
Qed.

Lemma buildSection_eq (container : Ref) (i : Z) (h : gmap Ref Element)
    (t : Tree) (b n : Ref) :
  buildSection container i (mkDocument h t b n) =
  mkDocument
    (sectionHeap i n h)
    (updateKids container
       (fun kids =>
          kids ++
          [Node (stressSection n 0)
             (map (fun j =>
                     Node (stressSubsection n 0 j) [Node (stressButton n 0 j) []])
                  [0; 1; 2]%nat)]) t)
    b (7 + n).
Proof.
  unfold buildSection, for_range, createElement, modify, with_heap.
  cbn -[buildSubsection].
  rewrite !buildSubsection_eq, alter_insert_eq. reflexivity.
Qed.

Lemma buildStressStructure_eq (container : Ref) (d : Document) :
  buildStressStructure container d =
  mkDocument
    (stressHeap (nextRef d) (alter (set_content "" "") container (heap d)))
    (updateKids container (fun _ => stressTree (nextRef d)) (tree d))
    (body d) (35 + nextRef d).
Proof.
  unfold buildStressStructure, for_range, setInnerHTML, modify, with_heap,
    with_tree. cbn -[buildSection].
  rewrite !buildSection_eq, !updateKids_updateKids. reflexivity.
Qed.

Lemma tree_buildStressStructure (container : Ref) (d : Document) :
  tree (buildStressStructure container d) =
  updateKids container (fun _ => stressTree (nextRef d)) (tree d).
Proof. by rewrite buildStressStructure_eq. Qed.

Lemma button_buildStressStructure (container : Ref) (d : Document) (i j : nat) :
  (i < 5)%nat -> (j < 3)%nat ->
  heap (buildStressStructure container d) !! stressButton (nextRef d) i j =
  Some (stressButtonElement (Z.of_nat i) (Z.of_nat j)).
Proof.
  intros Hi Hj. rewrite buildStressStructure_eq.
  unfold stressHeap, sectionHeap.
  destruct i as [|[|[|[|[|i]]]]]; [| | | | |lia];
    (destruct j as [|[|[|j]]]; [| | |lia]);
    cbn -[stressButtonElement stressSubsectionElement stressSectionElement];
    heap_lookup; reflexivity.
Qed.

(** Rendering writes into the panel only: an object whose id is not the one
    of the panel is left as it is. *)
Lemma heap_updateMetricsDisplay_other (st : State) (r : Ref) :
  id_ <$> heap (document st) !! r <> Some "test-metrics" ->
  heap (document (updateMetricsDisplay st)) !! r = heap (document st) !! r.
Proof.
  intros Hid. unfold updateMetricsDisplay.
  destruct (getElementById _ _) as [m|] eqn:Hm; [|done].
  cbn. apply lookup_alter_ne. intros ->.
  apply getElementById_Some in Hm as (e & He & Heid & _).
  apply Hid. by rewrite He, <- Heid.
Qed.

Lemma heap_logEvent_other (k : EventType) (data : Event) (st : State) (r : Ref) :
  id_ <$> heap (document st) !! r <> Some "test-metrics" ->
  heap (document (logEvent k data st)) !! r = heap (document st) !! r.
Proof.
  intros Hid. unfold logEvent. cbn.
  by rewrite heap_updateMetricsDisplay_other.
Qed.

(** ** Propagation *)

Section Propagation.
Context `{Host}.

Lemma click_unwired (x : Ref) (st : State) :
  unwired (document st) x -> click x st = st.
Proof.
  unfold unwired, listenersOf, click.
  destruct (heap (document st) !! x) as [e|]; [|done]. cbn. by intros ->.
Qed.

(** A click passes elements without click listeners and changes nothing. *)
Lemma bubbleClick_unwired (path : list Ref) (st : State) :
  Forall (unwired (document st)) path -> bubbleClick path st = st.
Proof.
  induction 1 as [|x path Hx _ IH]; [done|].
  cbn [bubbleClick]. cbv zeta. rewrite (click_unwired x st Hx).
  unfold unwired, listenersOf in Hx.
  destruct (heap (document st) !! x) as [e|]; cbn in *; [|done].
  by rewrite Hx.
Qed.

(** When the listeners of the target leave its ancestors without click
    listeners, the click is what the listeners of the target do. *)
Lemma dispatchClick_target (target : Ref) (st : State) :
  Forall (unwired (document (click target st)))
         (parentChain (document st) target) ->
  dispatchClick target st = click target st.
Proof.
  intros Hquiet. unfold dispatchClick. cbn [bubbleClick]. cbv zeta.
  destruct (from_option _ _ _); [done|]. by apply bubbleClick_unwired.
Qed.

Lemma unwired_fields (d d' : Document) (x : Ref) :
  onClick <$> heap d' !! x = onClick <$> heap d !! x ->
  unwired d x -> unwired d' x.
Proof. unfold unwired, listenersOf. by intros ->. Qed.

End Propagation.

Section Stress.
Context `{Host}.

Lemma click_stress_button (b : Ref) (i j : Z) (st : State) :
  onClick <$> heap (document st) !! b = Some [StressClick i j] ->
  click b st = stressClick i j st.
Proof.
  unfold click. destruct (heap (document st) !! b) as [e|]; [|done].
  simpl. by intros [= ->].
Qed.

(** C5.  When the page has the stress-test container, the generator replaces
    the children of the container by five sections of three subsections of
    one button each.  The leaves of that structure are these 15 buttons;
    the button of section i, subsection j carries one click listener, and a
    click on it, where it is attached and no ancestor of it carries a click
    listener, appends a stress-test-click record with sectionIndex i and
    subsectionIndex j and nothing else.  After building, the generator
    appends one stress-test-performed record, with elementsCreated 15. *)
Theorem stress_test_builds (st : State) (container : Ref) :
  getElementById "stress-test-container" (document st) = Some container ->
  let n := nextRef (document st) in
  let built := buildStressStructure container (document st) in
  let st' := performStressTest st in
  tree built = updateKids container (fun _ => stressTree n) (tree (document st)) /\
  tree (document st') = renderTree built /\
  flat_map leaves (stressTree n) =
  flat_map (fun i => map (stressButton n i) [0; 1; 2]%nat) [0; 1; 2; 3; 4]%nat /\
  (forall i j : nat,
     (i < 5)%nat -> (j < 3)%nat ->
     heap (document st') !! stressButton n i j =
     Some (stressButtonElement (Z.of_nat i) (Z.of_nat j)) /\
     (attached (document st') (stressButton n i j) ->
      Forall (unwired (document st'))
             (parentChain (document st') (stressButton n i j)) ->
      testResults (this (dispatchClick (stressButton n i j) st')) =
      logged StressTestClick
        [("sectionIndex", VNum (Z.of_nat i));
         ("subsectionIndex", VNum (Z.of_nat j));
         ("timestamp", VNum (clock (browser st') (ticks (browser st'))))]
        (testResults (this st')))) /\
  testResults (this st') =
  logged StressTestPerformed
    [("timestamp", VNum (clock (browser st) (ticks (browser st))));
     ("elementsCreated", VNum 15)]
    (testResults (this st)).
Proof.
  intros Hcontainer n built st'.
  assert (st' =
          logEvent StressTestPerformed
            [("timestamp", VNum (clock (browser st) (ticks (browser st))));
             ("elementsCreated", VNum 15)]
            (Date_now (with_document built st)).2) as Hst'.
  { subst st'. unfold performStressTest. by rewrite Hcontainer. }
  assert (forall i j : nat,
            (i < 5)%nat -> (j < 3)%nat ->
            heap (document st') !! stressButton n i j =
            Some (stressButtonElement (Z.of_nat i) (Z.of_nat j))) as Hbuttons.
  { intros i j Hi Hj. rewrite Hst'. subst built n.
    rewrite heap_logEvent_other; cbn -[buildStressStructure stressButton];
      rewrite button_buildStressStructure by done; done. }
  split; [apply tree_buildStressStructure|].
  split; [by rewrite Hst', tree_logEvent|].
  split; [reflexivity|].
  split.
  - intros i j Hi Hj. split; [by apply Hbuttons|].
    intros _ Hquiet.
    assert (click (stressButton n i j) st' =
            stressClick (Z.of_nat i) (Z.of_nat j) st') as Hclick
      by (apply click_stress_button; by rewrite Hbuttons).
    clearbody st'.
    rewrite dispatchClick_target; rewrite Hclick.
    + unfold stressClick. cbn. by rewrite this_logEvent.
    + eapply Forall_impl; [exact Hquiet|]. intros x.
      apply unwired_fields. unfold stressClick. cbn.
      by rewrite field_logEvent.
  - by rewrite Hst', this_logEvent.
Qed.

End Stress.

Lemma stress_test_builds_witness :
  let st := sampleLoaded in
  let n := nextRef (document st) in
  let built := buildStressStructure sampleContainer (document st) in
  let st' := performStressTest st in
  (attached (document st') (stressButton n 3 1) /\
   Forall (unwired (document st'))
          (parentChain (document st') (stressButton n 3 1))) /\
  tree built =
  updateKids sampleContainer (fun _ => stressTree n) (tree (document st)) /\
  tree (document st') = renderTree built /\
  flat_map leaves (stressTree n) =
  flat_map (fun i => map (stressButton n i) [0; 1; 2]%nat) [0; 1; 2; 3; 4]%nat /\
  (forall i j : nat,
     (i < 5)%nat -> (j < 3)%nat ->
     heap (document st') !! stressButton n i j =
     Some (stressButtonElement (Z.of_nat i) (Z.of_nat j)) /\
     (attached (document st') (stressButton n i j) ->
      Forall (unwired (document st'))
             (parentChain (document st') (stressButton n i j)) ->
      testResults (this (dispatchClick (stressButton n i j) st')) =
      logged StressTestClick
        [("sectionIndex", VNum (Z.of_nat i));
         ("subsectionIndex", VNum (Z.of_nat j));
         ("timestamp", VNum (clock (browser st') (ticks (browser st'))))]
        (testResults (this st')))) /\
  testResults (this st') =
  logged StressTestPerformed
    [("timestamp", VNum (clock (browser st) (ticks (browser st))));
     ("elementsCreated", VNum 15)]
    (testResults (this st)).
Proof.
  split.
  - apply (bool_decide_unpack _). by vm_compute.
  - apply (stress_test_builds sampleLoaded sampleContainer). by vm_compute.
Defined.

Example stress_test_builds_sample :
  let st' := performStressTest sampleLoaded in
  let button := stressButton (nextRef (document sampleLoaded)) 3 1 in
  testResults (this st') =
  [(StressTestPerformed,
    [[("timestamp", VNum 2400); ("elementsCreated", VNum 15)]])] /\
  length (flat_map leaves (stressTree (nextRef (document sampleLoaded)))) = 15%nat /\
  parentChain (document st') button =
  [stressSubsection (nextRef (document sampleLoaded)) 3 1;
   stressSection (nextRef (document sampleLoaded)) 3;
   sampleContainer; 3; 2; 0]%nat /\
  testResults (this (dispatchClick button st')) =
  [(StressTestPerformed,
    [[("timestamp", VNum 2400); ("elementsCreated", VNum 15)]]);
   (StressTestClick,
    [[("sectionIndex", VNum 3); ("subsectionIndex", VNum 1);
      ("timestamp", VNum 3800)]])].
Proof. by vm_compute. Qed.

(** ** Reset *)

Lemma outside_attached (p : Ref -> bool) (b : Ref) (t : Tree) :
  outside p b t = true -> b ∈ preorder t.
Proof.
  induction t as [x kids IH] using Tree_ind_all. simpl. intros Hout.
  apply orb_true_iff in Hout as [Hx|Hrest].
  - apply bool_decide_eq_true in Hx as ->. by constructor.
  - apply andb_true_iff in Hrest as [_ Hex].
    apply existsb_exists in Hex as (k & Hk & Hout).
    apply list_elem_of_In in Hk.
    constructor 2. apply elem_of_flat_map. exists k. split; [done|].
    rewrite Forall_forall in IH. by apply IH.
Qed.

Lemma outside_clear (p : Ref -> bool) (b c : Ref) (t : Tree) :
  outside p b t = true ->
  c = b \/ p c = true ->
  outside p b (updateKids c (fun _ => []) t) = true.
Proof.
  induction t as [x kids IH] using Tree_ind_all. simpl. intros Hout Hc.
  apply orb_true_iff in Hout as [Hx|Hrest].
  - destruct (decide (x = c)); simpl; by rewrite Hx.
  - apply andb_true_iff in Hrest as [Hpx Hex].
    destruct (decide (x = c)) as [->|Hne]; simpl.
    + destruct Hc as [->|Hpc].
      * by rewrite bool_decide_eq_true_2.
      * by rewrite Hpc in Hpx.
    + rewrite Hpx. simpl. apply orb_true_iff. right.
      apply existsb_exists in Hex as (k & Hk & Hout).
      apply existsb_exists. exists (updateKids c (fun _ => []) k).
      apply list_elem_of_In in Hk. split.
      * apply list_elem_of_In. by apply list_elem_of_fmap_2.
      * rewrite Forall_forall in IH. by apply IH.
Qed.

Lemma outside_ext (p q : Ref -> bool) (b : Ref) (t : Tree) :
  (forall r, p r = q r) -> outside p b t = outside q b t.
Proof.
  intros Hpq. induction t as [x kids IH] using Tree_ind_all. simpl.
  rewrite Hpq. do 2 f_equal.
  induction kids as [|k kids IHkids]; [done|].
  apply Forall_cons in IH as [Hk Hrest]. simpl.
  by rewrite Hk, IHkids.
Qed.

Lemma renderTree_subset (d : Document) (r : Ref) :
  r ∈ preorder (renderTree d) -> r ∈ preorder (tree d).
Proof.
  unfold renderTree. destruct (getElementById _ _); [|done].
  apply preorder_clear_subset.
Qed.

Lemma renderTree_outside (p : Ref -> bool) (b : Ref) (d : Document) :
  outside p b (tree d) = true ->
  (forall m, matches (has_id "test-metrics") d m = true -> p m = true) ->
  outside p b (renderTree d) = true.
Proof.
  intros Hout Hp. unfold renderTree.
  destruct (getElementById _ _) as [m|] eqn:Hm; [|done].
  apply outside_clear; [done|]. right. apply Hp.
  unfold getElementById in Hm. by apply find_Some_elem in Hm as [_ ?].
Qed.

Lemma matches_fmap (p : Element -> bool) (d d' : Document) (r : Ref) :
  p <$> heap d' !! r = p <$> heap d !! r ->
  matches p d' r = matches p d r.
Proof.
  unfold matches. destruct (heap d' !! r), (heap d !! r); simpl; congruence.
Qed.

Lemma matches_Some (p : Element -> bool) (d : Document) (r : Ref) (x : string) :
  id_ <$> heap d !! r = Some x ->
  matches p d r = true ->
  exists e, heap d !! r = Some e /\ id_ e = x /\ p e = true.
Proof.
  unfold matches. destruct (heap d !! r) as [e|]; simpl; [|done].
  intros [= <-] Hp. by exists e.
Qed.

(** The ids the dynamic button takes are not the id of the panel, and the
    ids the listener assigns are not the original id. *)
Lemma dynamic_id_not_panel (s : string) :
  s = "dynamic-id-btn" \/ String.prefix "dynamic-btn-" s = true ->
  s <> "test-metrics".
Proof.
  intros [->|Hprefix] Heq; [done|].
  subst s. by vm_compute in Hprefix.
Qed.

Lemma assigned_id_not_original (s : string) :
  String.prefix "dynamic-btn-" s = true -> s <> "dynamic-id-btn".
Proof. intros Hprefix ->. by vm_compute in Hprefix. Qed.

Lemma prefix_append (p s : string) : String.prefix p (p +:+ s) = true.
Proof.
  induction p as [|c p IH]; simpl.
  - by destruct s.
  - by destruct (ascii_dec c c).
Qed.

Lemma assigned_id_prefix (k : Z) :
  String.prefix "dynamic-btn-" ("dynamic-btn-" +:+ pretty k) = true.
Proof. apply prefix_append. Qed.

Lemma findDynamicButton_found (b : Ref) (d : Document) :
  b ∈ preorder (tree d) ->
  (exists s, id_ <$> heap d !! b = Some s /\
             (s = "dynamic-id-btn" \/ String.prefix "dynamic-btn-" s = true)) ->
  onlyDynamicButton b d ->
  findDynamicButton d = Some b.
Proof.
  intros Hin (s & Hs & Hform) Honly.
  unfold onlyDynamicButton in Honly. rewrite Forall_forall in Honly.
  destruct (heap d !! b) as [e|] eqn:He; [|done].
  injection Hs as <-.
  unfold findDynamicButton, getElementById, querySelector.
  destruct Hform as [Horig|Hprefix].
  - rewrite (find_unique _ _ b); [done|done| |].
    + unfold matches, has_id. rewrite He. simpl. by apply bool_decide_eq_true.
    + intros r Hr Hne. by apply Honly.
  - assert (find (matches (has_id "dynamic-id-btn") d) (preorder (tree d)) = None)
      as ->.
    { apply find_None_elem. intros r Hr.
      destruct (decide (r = b)) as [->|Hne]; [|by apply Honly].
      unfold matches, has_id. rewrite He. simpl. apply bool_decide_eq_false.
      by apply assigned_id_not_original. }
    apply find_unique; [done| |].
    + unfold matches, has_id_prefix. by rewrite He.
    + intros r Hr Hne. by apply Honly.
Qed.

Section Reset.
Context `{Host}.

Lemma dynamicIdClick_field_other {A} (f : Element -> A) (b r : Ref) (st : State) :
  keeps f -> r <> b ->
  f <$> heap (document (dynamicIdClick b st)) !! r =
  f <$> heap (document st) !! r.
Proof.
  intros Hkeep Hne. unfold dynamicIdClick.
  destruct (heap (document st) !! b) as [e|] eqn:He; [|done]. cbn.
  rewrite lookup_alter_ne by done.
  rewrite (field_logEvent f) by done. cbn.
  by rewrite !lookup_alter_ne by done.
Qed.

(** The tree after a click: the button has lost its children, then the
    panel has been rendered. *)
Lemma tree_dynamicIdClick (b : Ref) (st : State) :
  is_Some (heap (document st) !! b) ->
  exists d1,
    tree (document (dynamicIdClick b st)) = renderTree d1 /\
    tree d1 = updateKids b (fun _ => []) (tree (document st)) /\
    (forall r, r <> b -> heap d1 !! r = heap (document st) !! r) /\
    id_ <$> heap d1 !! b =
    Some ("dynamic-btn-" +:+ pretty (dynamicIdCounter (this st))).
Proof.
  intros [e He]. unfold dynamicIdClick. rewrite He. cbn.
  rewrite tree_logEvent. cbn.
  eexists. split; [reflexivity|]. cbn. split; [done|]. split.
  - intros r Hne. by rewrite !lookup_alter_ne by done.
  - rewrite !lookup_alter_eq, He. done.
Qed.

Lemma buttonInvariant_click (b : Ref) (st : State) :
  buttonInvariant b st -> buttonInvariant b (click b st).
Proof.
  intros (Hwired & (s & Hs & Hform) & Hout & Honly).
  rewrite click_dynamic_button by done.
  assert (is_Some (heap (document st) !! b)) as Hsome
    by (by apply fmap_is_Some with (f := onClick); rewrite Hwired).
  destruct (tree_dynamicIdClick b st Hsome) as (d1 & Htree & Htree1 & Hheap1 & Hid1).
  assert (forall r,
            matches (has_id "test-metrics") (document (dynamicIdClick b st)) r =
            matches (has_id "test-metrics") (document st) r) as Hpanel.
  { intros r. destruct (decide (r = b)) as [->|Hne].
    - unfold matches. pose proof (dynamicIdClick_id b st Hsome) as Hnew.
      destruct (heap (document (dynamicIdClick b st)) !! b) as [e'|]; [|done].
      destruct (heap (document st) !! b) as [e|]; [|done].
      simpl in *. injection Hnew as Hnew. injection Hs as Hs.
      unfold has_id.
      rewrite !bool_decide_eq_false_2; [done| |].
      + rewrite Hs. by apply dynamic_id_not_panel.
      + rewrite Hnew. apply dynamic_id_not_panel. right.
        apply assigned_id_prefix.
    - apply matches_fmap. by apply dynamicIdClick_field_other. }
  split; [|split; [|split]].
  - by rewrite (dynamicIdClick_field onClick).
  - eexists. split; [by apply dynamicIdClick_id|]. right. apply assigned_id_prefix.
  - unfold outsidePanel in *.
    rewrite (outside_ext _ _ _ _ Hpanel), Htree.
    apply renderTree_outside.
    + rewrite Htree1. apply outside_clear; [done | by left].
    + intros m Hm. destruct (decide (m = b)) as [->|Hne].
      * exfalso. apply (matches_Some _ _ _ _ Hid1) in Hm as (e' & _ & Hid' & Hp).
        unfold has_id in Hp. apply bool_decide_eq_true in Hp.
        rewrite Hp in Hid'. symmetry in Hid'. revert Hid'.
        apply dynamic_id_not_panel. right. apply assigned_id_prefix.
      * unfold matches in *. by rewrite <- Hheap1.
  - unfold onlyDynamicButton in *. rewrite Forall_forall in Honly.
    apply Forall_forall. intros r Hr Hne.
    rewrite Htree in Hr. apply renderTree_subset in Hr.
    rewrite Htree1 in Hr. apply preorder_clear_subset in Hr.
    destruct (Honly r Hr Hne) as [Horig Hprefix]. split.
    + etrans; [|exact Horig]. apply matches_fmap.
      by apply dynamicIdClick_field_other.
    + etrans; [|exact Hprefix]. apply matches_fmap.
      by apply dynamicIdClick_field_other.
Qed.

Lemma buttonInvariant_clicks (b : Ref) (st : State) (N : nat) :
  buttonInvariant b st -> buttonInvariant b (Nat.iter N (click b) st).
Proof.
  intros Hinv. induction N as [|N IH]; [done|].
  rewrite Nat.iter_succ. by apply buttonInvariant_click.
Qed.

End Reset.

Lemma resetTests_eq (st : State) :
  resetTests st =
  let st_r :=
    updateMetricsDisplay
      (with_startTime (clock (browser st) (ticks (browser st)))
         (Date_now (with_dynamicIdCounter 1 (with_testResults [] st))).2) in
  console_log LoggedReset
    match findDynamicButton (document st_r) with
    | Some b =>
        with_document
          (setInnerHTML b "🔄 Dynamic ID Button"
             (modify b (set_id "dynamic-id-btn") (document st_r))) st_r
    | None => st_r
    end.
Proof. reflexivity. Qed.

Lemma resetTests_this (st : State) :
  this (resetTests st) =
  mkManager 1 [] (clock (browser st) (ticks (browser st))).
Proof.
  rewrite resetTests_eq. cbn.
  destruct (findDynamicButton _); cbn; by rewrite this_updateMetricsDisplay.
Qed.

(** What reset does to a button that satisfies the invariant. *)
Lemma resetTests_button (b : Ref) (st : State) :
  buttonInvariant b st ->
  id_ <$> heap (document (resetTests st)) !! b = Some "dynamic-id-btn" /\
  innerHTML <$> heap (document (resetTests st)) !! b =
  Some "🔄 Dynamic ID Button" /\
  buttonInvariant b (resetTests st).
Proof.
  intros (Hwired & Hid & Hout & Honly).
  rewrite resetTests_eq. cbv zeta.
  set (st_r := updateMetricsDisplay _).
  assert (tree (document st_r) = renderTree (document st)) as Htree_r
    by (subst st_r; by rewrite tree_updateMetricsDisplay).
  assert (forall A (f : Element -> A) r,
            keeps f ->
            f <$> heap (document st_r) !! r = f <$> heap (document st) !! r)
    as Hfield_r
    by (intros A f r Hf; subst st_r; by rewrite field_updateMetricsDisplay).
  assert (forall r,
            matches (has_id "test-metrics") (document st_r) r =
            matches (has_id "test-metrics") (document st) r) as Hpanel_r
    by (intros r; by apply matches_fmap, Hfield_r).
  assert (outside (matches (has_id "test-metrics") (document st)) b
                  (tree (document st_r)) = true) as Hout_r.
  { rewrite Htree_r. by apply renderTree_outside. }
  assert (onlyDynamicButton b (document st_r)) as Honly_r.
  { unfold onlyDynamicButton in *. rewrite Forall_forall in Honly.
    apply Forall_forall. intros r Hr Hne.
    rewrite Htree_r in Hr. apply renderTree_subset in Hr.
    destruct (Honly r Hr Hne) as [Horig Hprefix]. split.
    - etrans; [|exact Horig]. by apply matches_fmap, Hfield_r.
    - etrans; [|exact Hprefix]. by apply matches_fmap, Hfield_r. }
  assert (findDynamicButton (document st_r) = Some b) as ->.
  { apply findDynamicButton_found; [|by rewrite Hfield_r|done].
    by apply outside_attached in Hout_r. }
  assert (is_Some (heap (document st_r) !! b)) as [e He].
  { apply fmap_is_Some with (f := onClick). by rewrite Hfield_r, Hwired. }
  cbn. rewrite !lookup_alter_eq, He. cbn.
  split; [reflexivity|]. split; [reflexivity|].
  split; [|split; [|split]]; cbn.
  - rewrite !lookup_alter_eq, He. cbn.
    specialize (Hfield_r _ onClick b keeps_onClick).
    rewrite He, Hwired in Hfield_r. by injection Hfield_r as ->.
  - rewrite !lookup_alter_eq, He. cbn. eexists. split; [done|by left].
  - unfold outsidePanel. cbn.
    rewrite (outside_ext _ (matches (has_id "test-metrics") (document st))).
    + apply outside_clear; [done | by left].
    + intros r. etrans; [|apply Hpanel_r].
      unfold matches. cbn. rewrite !lookup_alter.
      case_decide as Hbr; [subst r|done].
      rewrite He. cbn. unfold has_id. cbn.
      destruct Hid as (s & Hs & Hform).
      specialize (Hfield_r _ id_ b keeps_id).
      rewrite He, Hs in Hfield_r. injection Hfield_r as Hfield_r.
      rewrite (bool_decide_eq_false_2 (id_ e = "test-metrics"))
        by (rewrite Hfield_r; by apply dynamic_id_not_panel).
      rewrite decide_True by done. by vm_compute.
  - unfold onlyDynamicButton in *. cbn.
    rewrite Forall_forall in Honly_r. apply Forall_forall.
    intros r Hr Hne. apply preorder_clear_subset in Hr.
    destruct (Honly_r r Hr Hne) as [Horig Hprefix].
    unfold matches in *. cbn. by rewrite !lookup_alter_ne by done.
Qed.

Section ResetClaim.
Context `{Host}.

(** C3.  Take a page on which the dynamic button [b] has its original id and
    label and carries the listener of the script, is not inside the metrics
    panel, and is the only element whose id is dynamic-id-btn or starts with
    dynamic-btn-.  After any number N of clicks on the button (zero
    included), reset leaves the log empty, the counter at 1 and the session
    clock at the clock reading taken by the reset, and gives the button its
    original id and label back; a second reset in a row leaves the log, the
    counter, the id and the label as the first one left them. *)
Theorem reset_restores (st : State) (b : Ref) (N : nat) :
  onClick <$> heap (document st) !! b = Some [DynamicIdClick] ->
  id_ <$> heap (document st) !! b = Some "dynamic-id-btn" ->
  innerHTML <$> heap (document st) !! b = Some "🔄 Dynamic ID Button" ->
  outsidePanel b (document st) ->
  onlyDynamicButton b (document st) ->
  let clicked := Nat.iter N (click b) st in
  let once := resetTests clicked in
  let twice := resetTests once in
  testResults (this once) = [] /\
  dynamicIdCounter (this once) = 1 /\
  startTime (this once) = clock (browser clicked) (ticks (browser clicked)) /\
  id_ <$> heap (document once) !! b = id_ <$> heap (document st) !! b /\
  innerHTML <$> heap (document once) !! b =
  innerHTML <$> heap (document st) !! b /\
  testResults (this twice) = testResults (this once) /\
  dynamicIdCounter (this twice) = dynamicIdCounter (this once) /\
  id_ <$> heap (document twice) !! b = id_ <$> heap (document once) !! b /\
  innerHTML <$> heap (document twice) !! b =
  innerHTML <$> heap (document once) !! b.
Proof.
  intros Hwired Hid Hlabel Hout Honly clicked once twice.
  subst once twice clicked.
  assert (buttonInvariant b st) as Hinv.
  { split; [done|]. split; [|done]. eexists. split; [done | by left]. }
  apply (buttonInvariant_clicks b st N) in Hinv.
  destruct (resetTests_button b _ Hinv) as (Hid1 & Hlabel1 & Hinv1).
  destruct (resetTests_button b _ Hinv1) as (Hid2 & Hlabel2 & _).
  rewrite Hid1, Hlabel1, Hid2, Hlabel2, Hid, Hlabel.
  rewrite !resetTests_this.
  by repeat split.
Qed.

End ResetClaim.

Lemma reset_restores_witness :
  let st := sampleLoaded in
  let b := sampleButton in
  let clicked := Nat.iter 2 (click b) st in
  let once := resetTests clicked in
  let twice := resetTests once in
  testResults (this once) = [] /\
  dynamicIdCounter (this once) = 1 /\
  startTime (this once) = clock (browser clicked) (ticks (browser clicked)) /\
  id_ <$> heap (document once) !! b = id_ <$> heap (document st) !! b /\
  innerHTML <$> heap (document once) !! b =
  innerHTML <$> heap (document st) !! b /\
  testResults (this twice) = testResults (this once) /\
  dynamicIdCounter (this twice) = dynamicIdCounter (this once) /\
  id_ <$> heap (document twice) !! b = id_ <$> heap (document once) !! b /\
  innerHTML <$> heap (document twice) !! b =
  innerHTML <$> heap (document once) !! b.
Proof.
  apply (reset_restores sampleLoaded sampleButton 2).
  - by vm_compute.
  - by vm_compute.
  - by vm_compute.
  - by vm_compute.
  - apply (bool_decide_unpack _). by vm_compute.
Defined.

Example reset_restores_sample :
  let clicked := Nat.iter 2 (click sampleButton) sampleLoaded in
  id_ <$> heap (document clicked) !! sampleButton = Some "dynamic-btn-2" /\
  dynamicIdCounter (this clicked) = 3 /\
  this (resetTests clicked) = mkManager 1 [] 5200 /\
  id_ <$> heap (document (resetTests clicked)) !! sampleButton =
  Some "dynamic-id-btn".
Proof. by vm_compute. Qed.

(** ** What the constructor installs on the dynamic button *)

Lemma descendantsOf_matches (anc sel : Element -> bool) (d : Document)
    (inside : bool) (t : Tree) (r : Ref) :
  r ∈ descendantsOf anc sel d inside t -> matches sel d r = true.
Proof.
  revert inside. induction t as [x kids IH] using Tree_ind_all.
  intros inside. simpl. rewrite elem_of_app. intros [Hhere|Hbelow].
  - destruct (inside && matches sel d x) eqn:Hx.
    + apply list_elem_of_singleton in Hhere as ->.
      by apply andb_true_iff in Hx as [_ ?].
    + by apply elem_of_nil in Hhere.
  - apply elem_of_flat_map in Hbelow as (k & Hk & Hr).
    rewrite Forall_forall in IH. by apply (IH k Hk _ Hr).
Qed.

Lemma snd_imap_pair (g : nat -> nat) (l : list Ref) :
  (imap (fun i x => (g i, x)) l).*2 = l.
Proof.
  revert g. induction l as [|x l IH]; intros g; [done|].
  cbn. f_equal. apply (IH (g ∘ S)).
Qed.

Lemma heap_forEach_listeners (elements : list Ref) (h : Z -> ClickHandler)
    (st : State) (b : Ref) :
  b ∉ elements ->
  heap (document (forEach elements
                    (fun r i => addClickListener r (h i)) st)) !! b =
  heap (document st) !! b.
Proof.
  intros Hnot. unfold forEach.
  rewrite <- (snd_imap_pair (fun i => i) elements) in Hnot.
  change (imap (fun i x => (i, x)) elements) with (imap pair elements) in Hnot.
  revert st Hnot. generalize (imap pair elements). intros l.
  induction l as [|[i r] l IH]; intros st Hnot; [done|].
  cbn in Hnot. apply not_elem_of_cons in Hnot as [Hne Hnot].
  cbn. rewrite IH by done. cbn. by rewrite lookup_alter_ne.
Qed.

(** On a page whose dynamic button carries no listener yet and is neither a
    list item, nor a span, nor an element with the button role, the
    constructor leaves the counter at 1 and the button with the listener of
    [setupDynamicIdButton] alone. *)
Lemma constructor_wires_button (d : Document) (w : Browser) (b : Ref)
    (e : Element) :
  getElementById "dynamic-id-btn" d = Some b ->
  heap d !! b = Some e ->
  onClick e = [] ->
  tagName e <> "LI" -> tagName e <> "SPAN" -> role e <> Some "button" ->
  let st := new_RobustnessTestManager d w in
  dynamicIdCounter (this st) = 1 /\
  heap (document st) !! b = Some (add_onClick DynamicIdClick e).
Proof.
  intros Hfound He Hnone Hli Hspan Hrole st.
  split; [apply new_manager_fields|].
  subst st. unfold new_RobustnessTestManager, init, initializeMetrics.
  set (st0 := mkState (mkManager 1 [] 0) d w).
  assert (heap (document (setupDynamicIdButton st0)) !! b =
          Some (add_onClick DynamicIdClick e)) as H1.
  { unfold setupDynamicIdButton. cbn. rewrite Hfound. cbn.
    by rewrite lookup_alter_eq, He. }
  set (st1 := setupDynamicIdButton st0) in *.
  assert (heap (document (setupListInteractions st1)) !! b =
          Some (add_onClick DynamicIdClick e)) as H2.
  { unfold setupListInteractions. rewrite heap_forEach_listeners; [done|].
    intros Hin. apply descendantsOf_matches in Hin.
    unfold matches in Hin. rewrite H1 in Hin. cbn in Hin.
    by apply bool_decide_eq_true in Hin. }
  set (st2 := setupListInteractions st1) in *.
  assert (heap (document (setupAriaButton st2)) !! b =
          Some (add_onClick DynamicIdClick e)) as H3.
  { unfold setupAriaButton.
    destruct (querySelector _ _) as [a|] eqn:Ha; [|done].
    cbn. rewrite !lookup_alter_ne; [done| |];
      intros ->; unfold querySelector in Ha;
      apply find_Some_elem in Ha as [_ Ha];
      unfold matches in Ha; rewrite H2 in Ha; cbn in Ha;
      by apply bool_decide_eq_true in Ha. }
  set (st3 := setupAriaButton st2) in *.
  assert (heap (document (setupNestedElementTests st3)) !! b =
          Some (add_onClick DynamicIdClick e)) as H4.
  { unfold setupNestedElementTests. rewrite heap_forEach_listeners; [done|].
    intros Hin. apply descendantsOf_matches in Hin.
    unfold matches in Hin. rewrite H3 in Hin. cbn in Hin.
    by apply bool_decide_eq_true in Hin. }
  set (st4 := setupNestedElementTests st3) in *.
  cbn. rewrite heap_updateMetricsDisplay_other; cbn; rewrite H4; [done|].
  cbn. apply getElementById_Some in Hfound as (e' & He' & Hid & _).
  rewrite He in He'. injection He' as <-. by rewrite Hid.
Qed.

Section FreshStates.
Context `{Host}.

(** The two kinds of state the clicks are counted from: a freshly
    constructed manager and a freshly reset one. *)
Lemma fresh_page_clicks (d : Document) (w : Browser) (b : Ref) (e : Element)
    (N : nat) :
  getElementById "dynamic-id-btn" d = Some b ->
  heap d !! b = Some e ->
  onClick e = [] ->
  tagName e <> "LI" -> tagName e <> "SPAN" -> role e <> Some "button" ->
  let st' := Nat.iter N (click b) (new_RobustnessTestManager d w) in
  dynamicIdCounter (this st') = Z.of_nat N + 1 /\
  ((1 <= N)%nat ->
   id_ <$> heap (document st') !! b =
   Some ("dynamic-btn-" +:+ pretty (Z.of_nat N))).
Proof.
  intros Hfound He Hnone Hli Hspan Hrole.
  destruct (constructor_wires_button d w b e Hfound He Hnone Hli Hspan Hrole)
    as [Hone Hb].
  assert (onClick <$> heap (document (new_RobustnessTestManager d w)) !! b =
          Some [DynamicIdClick]) as Hwired.
  { rewrite Hb. cbn. by rewrite Hnone. }
  cbv zeta. split.
  - rewrite clicks_counter by done. lia.
  - intros HN. destruct N as [|N]; [lia|].
    rewrite clicks_id by done. do 3 f_equal. lia.
Qed.

Lemma reset_then_clicks (b : Ref) (st : State) (N : nat) :
  buttonInvariant b st ->
  let st' := Nat.iter N (click b) (resetTests st) in
  dynamicIdCounter (this st') = Z.of_nat N + 1 /\
  ((1 <= N)%nat ->
   id_ <$> heap (document st') !! b =
   Some ("dynamic-btn-" +:+ pretty (Z.of_nat N))).
Proof.
  intros Hinv.
  destruct (resetTests_button b st Hinv) as (_ & _ & Hwired & _).
  pose proof (resetTests_this st) as Hthis.
  cbv zeta. split.
  - rewrite clicks_counter by done. rewrite Hthis. cbn. lia.
  - intros HN. destruct N as [|N]; [lia|].
    rewrite clicks_id by done. rewrite Hthis. cbn. do 3 f_equal. lia.
Qed.

End FreshStates.

(** ** The page after construction *)

Lemma forEach_listeners_document (elements : list Ref) (h : Z -> ClickHandler)
    (st : State) :
  let st' := forEach elements (fun r i => addClickListener r (h i)) st in
  tree (document st') = tree (document st) /\
  forall A (f : Element -> A) r,
    (forall c e, f (add_onClick c e) = f e) ->
    f <$> heap (document st') !! r = f <$> heap (document st) !! r.
Proof.
  unfold forEach. generalize (imap pair elements). intros l. revert st.
  induction l as [|[i x] l IH]; intros st; [done|].
  cbn. destruct (IH (addClickListener x (h (Z.of_nat i)) st)) as [Htree Hfield].
  split; [by rewrite Htree|].
  intros A f r Hf. rewrite Hfield by done. cbn.
  rewrite lookup_alter. case_decide as Hxr; [subst r|done].
  by rewrite fmap_fmap_keep.
Qed.

(** The constructor changes the page in two ways only: it adds listeners,
    and it renders the panel. *)
Lemma constructor_document (d : Document) (w : Browser) :
  let st := new_RobustnessTestManager d w in
  tree (document st) = renderTree d /\
  forall A (f : Element -> A) r,
    keeps f ->
    (forall c e, f (add_onClick c e) = f e) ->
    (forall k e, f (add_onKeydown k e) = f e) ->
    f <$> heap (document st) !! r = f <$> heap d !! r.
Proof.
  unfold new_RobustnessTestManager, init, initializeMetrics.
  set (st0 := mkState (mkManager 1 [] 0) d w).
  assert (tree (document (setupDynamicIdButton st0)) = tree d /\
          forall A (f : Element -> A) r,
            (forall c e, f (add_onClick c e) = f e) ->
            f <$> heap (document (setupDynamicIdButton st0)) !! r =
            f <$> heap d !! r) as [Ht1 Hf1].
  { unfold setupDynamicIdButton. cbn.
    destruct (getElementById _ _) as [b|]; [|done]. cbn.
    split; [done|]. intros A f r Hf. rewrite lookup_alter.
    case_decide as Hbr; [subst r|done]. by rewrite fmap_fmap_keep. }
  set (st1 := setupDynamicIdButton st0) in *.
  destruct (forEach_listeners_document
              (querySelectorAll (has_id "unstable-list") (has_tag "LI")
                                (document st1))
              ListItemClick st1) as [Ht2 Hf2].
  fold (setupListInteractions st1) in Ht2, Hf2.
  set (st2 := setupListInteractions st1) in *.
  assert (tree (document (setupAriaButton st2)) = tree (document st2) /\
          forall A (f : Element -> A) r,
            (forall c e, f (add_onClick c e) = f e) ->
            (forall k e, f (add_onKeydown k e) = f e) ->
            f <$> heap (document (setupAriaButton st2)) !! r =
            f <$> heap (document st2) !! r) as [Ht3 Hf3].
  { unfold setupAriaButton.
    destruct (querySelector _ _) as [a|]; [|done]. cbn.
    split; [done|]. intros A f r Hc Hk.
    destruct (decide (a = r)) as [->|Hne].
    - rewrite !lookup_alter_eq. by rewrite !fmap_fmap_keep.
    - by rewrite !lookup_alter_ne by done. }
  set (st3 := setupAriaButton st2) in *.
  destruct (forEach_listeners_document
              (querySelectorAll (has_class "deeply-nested") (has_tag "SPAN")
                                (document st3))
              NestedClick st3) as [Ht4 Hf4].
  fold (setupNestedElementTests st3) in Ht4, Hf4.
  set (st4 := setupNestedElementTests st3) in *.
  cbn. split.
  - rewrite tree_updateMetricsDisplay. cbn.
    unfold renderTree, getElementById.
    rewrite Ht4, Ht3, Ht2, Ht1.
    rewrite (find_ext _ (matches (has_id "test-metrics") d)); [done|].
    intros r _. apply matches_fmap.
    by rewrite Hf4, Hf3, Hf2, Hf1.
  - intros A f r Hkeep Hc Hk.
    rewrite field_updateMetricsDisplay by done. cbn.
    by rewrite Hf4, Hf3, Hf2, Hf1.
Qed.

Section FreshPageReset.
Context `{Host}.

(** From the page to the reset: on a page whose dynamic button has its
    original id, carries no listener yet, is no list item, span or
    button-role element, is not inside the metrics panel and is the only
    element with an id of its kind, any number of clicks on the button after
    the script has been constructed, followed by a reset, leaves the manager
    and the button as the reset of C3 leaves them. *)
Lemma fresh_page_reset (d : Document) (w : Browser) (b : Ref) (e : Element)
    (N : nat) :
  getElementById "dynamic-id-btn" d = Some b ->
  heap d !! b = Some e ->
  onClick e = [] ->
  tagName e <> "LI" -> tagName e <> "SPAN" -> role e <> Some "button" ->
  outsidePanel b d ->
  onlyDynamicButton b d ->
  let clicked := Nat.iter N (click b) (new_RobustnessTestManager d w) in
  let st := resetTests clicked in
  this st = mkManager 1 [] (clock (browser clicked) (ticks (browser clicked))) /\
  id_ <$> heap (document st) !! b = Some "dynamic-id-btn" /\
  innerHTML <$> heap (document st) !! b = Some "🔄 Dynamic ID Button".
Proof.
  intros Hfound He Hnone Hli Hspan Hrole Hout Honly clicked st.
  subst st clicked.
  destruct (constructor_wires_button d w b e Hfound He Hnone Hli Hspan Hrole)
    as [_ Hb].
  destruct (constructor_document d w) as [Htree Hfield].
  assert (forall (p : Element -> bool) r,
            keeps p ->
            (forall c x, p (add_onClick c x) = p x) ->
            (forall k x, p (add_onKeydown k x) = p x) ->
            matches p (document (new_RobustnessTestManager d w)) r =
            matches p d r) as Hmatches
    by (intros p r ? ? ?; by apply matches_fmap, Hfield).
  assert (buttonInvariant b (new_RobustnessTestManager d w)) as Hinv.
  { split; [|split; [|split]].
    - rewrite Hb. cbn. by rewrite Hnone.
    - rewrite Hb. cbn. eexists. split; [done|]. left.
      by apply getElementById_Some in Hfound as (e' & He' & Hid & _);
        rewrite He in He'; injection He' as <-.
    - unfold outsidePanel in *.
      rewrite (outside_ext _ (matches (has_id "test-metrics") d))
        by (intros r; by apply Hmatches).
      rewrite Htree. by apply renderTree_outside.
    - unfold onlyDynamicButton in *. rewrite Forall_forall in Honly.
      apply Forall_forall. intros r Hr Hne.
      rewrite Htree in Hr. apply renderTree_subset in Hr.
      rewrite !Hmatches by done. by apply Honly. }
  apply (buttonInvariant_clicks b _ N) in Hinv.
  destruct (resetTests_button b _ Hinv) as (Hid & Hlabel & _).
  by rewrite resetTests_this.
Qed.

End FreshPageReset.

(** ** The log by type *)

Lemma firstSeen_snoc (l : list EventType) (k : EventType) :
  firstSeen (l ++ [k]) = if decide (k ∈ l) then firstSeen l else firstSeen l ++ [k].
Proof.
  induction l as [|x l IH]; [done|].
  cbn. rewrite IH.
  destruct (decide (k ∈ x :: l)) as [Hin|Hnot], (decide (k ∈ l)) as [Hl|Hl].
  - done.
  - apply elem_of_cons in Hin as [->|?]; [|done].
    rewrite filter_app, filter_cons_False, filter_nil, app_nil_r; [done|].
    by intros Hx.
  - exfalso. apply Hnot. by constructor.
  - apply not_elem_of_cons in Hnot as [Hne _].
    by rewrite filter_app, filter_cons_True by done.
Qed.

Lemma elem_of_firstSeen (l : list EventType) (k : EventType) :
  k ∈ firstSeen l <-> k ∈ l.
Proof.
  induction l as [|x l IH]; [done|]. cbn.
  rewrite !elem_of_cons, list_elem_of_filter, IH.
  destruct (decide (k = x)); tauto.
Qed.

Lemma NoDup_firstSeen (l : list EventType) : NoDup (firstSeen l).
Proof.
  induction l as [|x l IH]; cbn; [constructor|].
  constructor.
  - rewrite list_elem_of_filter. by intros [Hne _].
  - by apply NoDup_filter.
Qed.

(** [push] on a log whose keys are distinct. *)
Lemma push_map (k : EventType) (data : Event) (f : EventType -> list Event)
    (keys : list EventType) :
  NoDup keys ->
  push k data (map (fun k' => (k', f k')) keys) =
  map (fun k' => (k', if decide (k' = k) then f k' ++ [data] else f k')) keys.
Proof.
  induction keys as [|x keys IH]; intros Hnd; [done|].
  apply NoDup_cons in Hnd as [Hx Hnd]. cbn.
  destruct (decide (x = k)) as [->|Hne].
  - f_equal. apply map_ext_in. intros k' Hk'.
    rewrite decide_False; [done|]. intros ->. by apply list_elem_of_In in Hk'.
  - f_equal. by apply IH.
Qed.

Lemma recordsOf_snoc (k k' : EventType) (data : Event)
    (calls : list (EventType * Event)) :
  recordsOf k' (calls ++ [(k, data)]) =
  if decide (k' = k) then recordsOf k' calls ++ [data] else recordsOf k' calls.
Proof.
  unfold recordsOf. rewrite filter_app, fmap_app.
  destruct (decide (k' = k)) as [->|Hne].
  - by rewrite filter_cons_True.
  - rewrite filter_cons_False by (cbn; congruence). cbn. by rewrite app_nil_r.
Qed.

Lemma recordsOf_absent (k : EventType) (calls : list (EventType * Event)) :
  k ∉ calls.*1 -> recordsOf k calls = [].
Proof.
  unfold recordsOf. induction calls as [|[k' data] calls IH]; [done|].
  rewrite fmap_cons. intros [Hne Hnot]%not_elem_of_cons.
  rewrite filter_cons_False by (cbn in *; congruence). by apply IH.
Qed.

Lemma logEvents_snoc (calls : list (EventType * Event)) (call : EventType * Event)
    (st : State) :
  logEvents (calls ++ [call]) st = logEvent call.1 call.2 (logEvents calls st).
Proof. unfold logEvents. by rewrite foldl_snoc. Qed.

(** The log after a sequence of calls on an empty log. *)
Lemma logEvents_groups (calls : list (EventType * Event)) (st : State) :
  testResults (this st) = [] ->
  testResults (this (logEvents calls st)) =
  map (fun k => (k, recordsOf k calls)) (firstSeen calls.*1).
Proof.
  intros Hempty.
  induction calls as [|[k data] calls IH] using rev_ind; [done|].
  rewrite logEvents_snoc, testResults_logEvent, IH. cbn [fst snd].
  rewrite fmap_app. cbn [fmap list_fmap fst]. rewrite firstSeen_snoc.
  unfold logged, has_key, Object_keys. rewrite map_map. cbn [fst]. rewrite map_id.
  destruct (decide (k ∈ calls.*1)) as [Hin|Hnot].
  - rewrite bool_decide_eq_true_2 by (by apply elem_of_firstSeen).
    rewrite push_map by apply NoDup_firstSeen.
    apply map_ext. intros k'. by rewrite recordsOf_snoc.
  - rewrite bool_decide_eq_false_2 by (by rewrite elem_of_firstSeen).
    pose proof (recordsOf_absent k calls Hnot) as Hnone.
    replace [(k, [])] with (map (fun k' => (k', recordsOf k' calls)) [k])
      by (cbn; by rewrite Hnone).
    rewrite <- map_app, push_map.
    + apply map_ext. intros k'. by rewrite recordsOf_snoc.
    + apply NoDup_app. split; [apply NoDup_firstSeen|].
      split; [|apply NoDup_singleton].
      intros x Hx ->%list_elem_of_singleton. by apply Hnot, elem_of_firstSeen.
Qed.

(** X1.  The log of a freshly constructed manager after any sequence of
    [logEvent] calls: its keys are the types of the calls in the order in
    which each was first used, and under each key are the records of the
    calls of that type in call order. *)
Theorem log_groups_by_type (d : Document) (w : Browser)
    (calls : list (EventType * Event)) :
  testResults (this (logEvents calls (new_RobustnessTestManager d w))) =
  map (fun k => (k, recordsOf k calls)) (firstSeen calls.*1).
Proof.
  apply logEvents_groups. by destruct (new_manager_fields d w) as [_ ->].
Qed.

(** ** Reading the log back *)

Lemma eventsOf_push (k k' : EventType) (data : Event) (l : EventLog) :
  k ∈ Object_keys l ->
  eventsOf k' (push k data l) =
  if decide (k' = k) then eventsOf k' l ++ [data] else eventsOf k' l.
Proof.
  unfold eventsOf, Object_keys.
  induction l as [|[x events] l IH]; intros Hin; [by apply elem_of_nil in Hin|].
  cbn in Hin. cbn. destruct (decide (x = k)) as [->|Hne]; cbn.
  - destruct (decide (k' = k)) as [->|Hne'].
    + by rewrite !bool_decide_eq_true_2.
    + by rewrite !bool_decide_eq_false_2 by congruence.
  - apply elem_of_cons in Hin as [->|Hin]; [done|].
    destruct (decide (x = k')) as [->|Hne'].
    + rewrite bool_decide_eq_true_2 by done. cbn.
      by rewrite decide_False by congruence.
    + rewrite bool_decide_eq_false_2 by done. by apply IH.
Qed.

Lemma eventsOf_new_key (k k' : EventType) (l : EventLog) :
  k ∉ Object_keys l ->
  eventsOf k' (l ++ [(k, [])]) = eventsOf k' l.
Proof.
  unfold eventsOf, Object_keys.
  induction l as [|[x events] l IH]; intros Hnot.
  - cbn. by destruct (bool_decide (k = k')).
  - cbn in Hnot. apply not_elem_of_cons in Hnot as [Hne Hnot]. cbn.
    destruct (bool_decide (x = k')); [done | by apply IH].
Qed.

Lemma eventsOf_logged (k k' : EventType) (data : Event) (l : EventLog) :
  eventsOf k' (logged k data l) =
  if decide (k' = k) then eventsOf k' l ++ [data] else eventsOf k' l.
Proof.
  unfold logged, has_key. case_bool_decide as Hkey.
  - by apply eventsOf_push.
  - rewrite eventsOf_push.
    + by rewrite eventsOf_new_key.
    + unfold Object_keys. rewrite map_app. apply elem_of_app. right. by constructor.
Qed.

Lemma eventsOf_logEvents (k : EventType) (calls : list (EventType * Event))
    (st : State) :
  eventsOf k (testResults (this (logEvents calls st))) =
  eventsOf k (testResults (this st)) ++ recordsOf k calls.
Proof.
  induction calls as [|[k' data] calls IH] using rev_ind.
  - by rewrite app_nil_r.
  - rewrite logEvents_snoc, testResults_logEvent, eventsOf_logged, IH.
    rewrite recordsOf_snoc. cbn [fst].
    destruct (decide (k = k')); [by rewrite app_assoc | done].
Qed.

(** ** Logging on a page without the metrics panel *)

Lemma updateMetricsDisplay_absent (st : State) :
  getElementById "test-metrics" (document st) = None ->
  updateMetricsDisplay st = st.
Proof. intros Hnone. unfold updateMetricsDisplay. by rewrite Hnone. Qed.

(** X2.  On a page without the metrics panel, any sequence of [logEvent]
    calls leaves the document as it is and does not read the clock; the
    events are recorded all the same, each under its type in call order, and
    each call writes its line to the console. *)
Theorem logging_without_panel (st : State) (calls : list (EventType * Event)) :
  getElementById "test-metrics" (document st) = None ->
  let st' := logEvents calls st in
  document st' = document st /\
  ticks (browser st') = ticks (browser st) /\
  console (browser st') =
  console (browser st) ++ map (fun call => LoggedEvent call.1 call.2) calls /\
  forall k,
    eventsOf k (testResults (this st')) =
    eventsOf k (testResults (this st)) ++ recordsOf k calls.
Proof.
  intros Hnone st'. subst st'.
  assert (forall calls, document (logEvents calls st) = document st) as Hdoc.
  { intros l. induction l as [|[k data] l IH] using rev_ind; [done|].
    rewrite logEvents_snoc. unfold logEvent.
    by rewrite updateMetricsDisplay_absent by (cbn; by rewrite IH). }
  assert (forall calls k data,
            logEvents (calls ++ [(k, data)]) st =
            console_log (LoggedEvent k data)
              (with_testResults
                 (logged k data (testResults (this (logEvents calls st))))
                 (logEvents calls st))) as Hstep.
  { intros l k data. rewrite logEvents_snoc. unfold logEvent.
    by rewrite updateMetricsDisplay_absent by (cbn; by rewrite Hdoc). }
  split; [done|].
  split; [|split; [|intros k; apply eventsOf_logEvents]].
  - induction calls as [|[k data] calls IH] using rev_ind; [done|].
    by rewrite Hstep.
  - induction calls as [|[k data] calls IH] using rev_ind.
    + by rewrite app_nil_r.
    + rewrite Hstep. cbn. by rewrite IH, map_app, app_assoc.
Qed.

Lemma logging_without_panel_witness :
  let st' := logEvents sampleCalls bareLoaded in
  document st' = document bareLoaded /\
  ticks (browser st') = ticks (browser bareLoaded) /\
  console (browser st') =
  console (browser bareLoaded) ++
  map (fun call => LoggedEvent call.1 call.2) sampleCalls /\
  forall k,
    eventsOf k (testResults (this st')) =
    eventsOf k (testResults (this bareLoaded)) ++ recordsOf k sampleCalls.
Proof.
  apply (logging_without_panel bareLoaded sampleCalls). by vm_compute.
Defined.

(** ** What the timers undo *)

Lemma browser_updateMetricsDisplay (st : State) :
  timers (browser (updateMetricsDisplay st)) = timers (browser st) /\
  console (browser (updateMetricsDisplay st)) = console (browser st) /\
  objectURLs (browser (updateMetricsDisplay st)) = objectURLs (browser st) /\
  downloads (browser (updateMetricsDisplay st)) = downloads (browser st).
Proof. unfold updateMetricsDisplay. by destruct (getElementById _ _). Qed.

Lemma timers_logEvent (k : EventType) (data : Event) (st : State) :
  timers (browser (logEvent k data st)) = timers (browser st).
Proof.
  unfold logEvent. cbn.
  by destruct (browser_updateMetricsDisplay
                 (with_testResults
                    (push k data
                       (if has_key k (testResults (this st))
                        then testResults (this st)
                        else testResults (this st) ++ [(k, [])])) st))
    as (-> & _).
Qed.

Section Timers.
Context `{Host}.

Lemma field_listItemClick {A} (f : Element -> A) (item : Ref) (index : Z)
    (st : State) (r : Ref) :
  keeps f ->
  (forall s e, f (set_backgroundColor s e) = f e) ->
  f <$> heap (document (listItemClick item index st)) !! r =
  f <$> heap (document st) !! r.
Proof.
  intros Hkeep Hbg. unfold listItemClick.
  destruct (heap (document st) !! item) as [e|]; [|done]. cbn.
  rewrite lookup_alter. case_decide as Hx.
  - subst r. rewrite fmap_fmap_keep by done. by rewrite field_logEvent.
  - by rewrite field_logEvent.
Qed.

(** X3.  A click on a list item wired by [setupListInteractions], where no
    element is attached inside the item and no ancestor of it carries a
    click listener, appends an unstable-list-click record with the index the
    listener captured, the trimmed text of the item and the clock reading,
    paints the item with the highlight colour and queues its removal after
    1000 ms; the queued callback leaves the item with an empty background
    colour, whatever the colour was before the click, and changes nothing
    else of it. *)
Theorem list_item_click (st : State) (item : Ref) (e : Element) (index : Z) :
  heap (document st) !! item = Some e ->
  onClick e = [ListItemClick index] ->
  id_ e <> "test-metrics" ->
  childless (document st) item ->
  Forall (unwired (document st)) (parentChain (document st) item) ->
  let st' := dispatchClick item st in
  testResults (this st') =
  logged UnstableListClick
    [("itemIndex", VNum index);
     ("itemText", VStr (trim (textContent e)));
     ("timestamp", VNum (clock (browser st) (ticks (browser st))))]
    (testResults (this st)) /\
  heap (document st') !! item = Some (set_backgroundColor "#fff3cd" e) /\
  timers (browser st') = timers (browser st) ++ [(ClearBackground item, 1000)] /\
  heap (document (runTimeout (ClearBackground item) st')) !! item =
  Some (set_backgroundColor "" e).
Proof.
  intros He Hwired Hid _ Hquiet st'. subst st'.
  assert (click item st = listItemClick item index st) as Hclick
    by (unfold click; by rewrite He, Hwired).
  rewrite dispatchClick_target; rewrite Hclick;
    [|eapply Forall_impl; [exact Hquiet|]; intros x; apply unwired_fields;
      by apply field_listItemClick].
  unfold listItemClick. rewrite He. cbn.
  assert (forall k data st0,
            heap (document st0) !! item = Some e ->
            heap (document (logEvent k data st0)) !! item = Some e) as Hkept.
  { intros k data st0 He0. rewrite heap_logEvent_other; [done|].
    rewrite He0. cbn. congruence. }
  split; [by rewrite this_logEvent|].
  split; [|split].
  - rewrite lookup_alter_eq, Hkept by done. done.
  - by rewrite timers_logEvent.
  - rewrite !lookup_alter_eq, Hkept by done. done.
Qed.

(** X4.  A click on the dynamic ID button gives it the id dynamic-btn-c,
    where c is the counter before the click, the label that shows this id
    and the feedback colour, appends a dynamic-id-change record with the
    former id as oldId and the new one as newId, and queues the removal of
    the colour after 500 ms; the queued callback empties the background
    colour and leaves the new id and label. *)
Theorem dynamic_click_feedback (st : State) (b : Ref) (e : Element) :
  heap (document st) !! b = Some e ->
  onClick e = [DynamicIdClick] ->
  let newId := "dynamic-btn-" +:+ pretty (dynamicIdCounter (this st)) in
  let label := "🔄 Dynamic ID Button (ID: " +:+ newId +:+ ")" in
  let st' := click b st in
  let st'' := runTimeout (ClearBackground b) st' in
  testResults (this st') =
  logged DynamicIdChange
    [("oldId", VStr (id_ e)); ("newId", VStr newId);
     ("timestamp", VNum (clock (browser st) (ticks (browser st))))]
    (testResults (this st)) /\
  id_ <$> heap (document st') !! b = Some newId /\
  innerHTML <$> heap (document st') !! b = Some label /\
  backgroundColor <$> heap (document st') !! b = Some "#27ae60" /\
  timers (browser st') = timers (browser st) ++ [(ClearBackground b, 500)] /\
  id_ <$> heap (document st'') !! b = Some newId /\
  innerHTML <$> heap (document st'') !! b = Some label /\
  backgroundColor <$> heap (document st'') !! b = Some "".
Proof.
  intros He Hwired newId label st' st''. subst st'' st' label newId.
  unfold click. rewrite He, Hwired. cbn [foldl runClick].
  unfold dynamicIdClick. rewrite He. cbn.
  set (newId := "dynamic-btn-" +:+ pretty (dynamicIdCounter (this st))).
  set (label := String _ _).
  assert (forall k data st0 e0,
            heap (document st0) !! b = Some e0 ->
            id_ e0 = newId ->
            heap (document (logEvent k data st0)) !! b = Some e0) as Hkept.
  { intros k data st0 e0 He0 Hid0. rewrite heap_logEvent_other; [done|].
    rewrite He0. cbn. intros [= Heq]. rewrite Hid0 in Heq. revert Heq.
    apply dynamic_id_not_panel. right. apply assigned_id_prefix. }
  split; [by rewrite this_logEvent|].
  rewrite timers_logEvent. cbn.
  rewrite !lookup_alter_eq.
  erewrite Hkept; [|cbn; by rewrite !lookup_alter_eq, He|done].
  by cbn.
Qed.

(** X5.  A click on the ARIA button replaces its content by the text
    ARIA Button Clicked and queues a callback after 2000 ms; the callback
    writes the fixed text ARIA Role Button, whatever the content of the
    element was before the click.  Nothing else of the element changes. *)
Theorem aria_click_text (st : State) (a : Ref) (e : Element) :
  heap (document st) !! a = Some e ->
  onClick e = [AriaClick] ->
  let st' := click a st in
  let st'' := runTimeout (RestoreAriaText a) st' in
  heap (document st') !! a =
  Some (set_content "✅ ARIA Button Clicked!" "✅ ARIA Button Clicked!" e) /\
  timers (browser st') = timers (browser st) ++ [(RestoreAriaText a, 2000)] /\
  heap (document st'') !! a =
  Some (set_content "🎯 ARIA Role Button" "🎯 ARIA Role Button" e).
Proof.
  intros He Hwired st' st''. subst st'' st'.
  unfold click. rewrite He, Hwired. cbn [foldl runClick].
  unfold ariaClick. rewrite He. cbn.
  rewrite timers_logEvent. cbn.
  rewrite !lookup_alter_eq.
  set (data := [("role", _); _; _]).
  set (st1 := with_browser _ st).
  pose proof (field_logEvent
                (set_content "✅ ARIA Button Clicked!" "✅ ARIA Button Clicked!")
                AriaButtonClick data st1 a) as Hclicked.
  rewrite Hclicked by done.
  subst st1. cbn. by rewrite He.
Qed.

End Timers.

(** ** The ripple *)

Lemma ancestors_Node (r x : Ref) (kids : list Tree) :
  ancestors r (Node x kids) =
  if decide (x = r) then Some [] else ancestorsAmong r x kids.
Proof. reflexivity. Qed.

Lemma ancestorsAmong_cons (r x : Ref) (k : Tree) (kids : list Tree) :
  ancestorsAmong r x (k :: kids) =
  match ancestors r k with
  | Some chain => Some (chain ++ [x])
  | None => ancestorsAmong r x kids
  end.
Proof. reflexivity. Qed.

(** An element that is not attached has no chain of ancestors. *)
Lemma ancestors_absent (r : Ref) (t : Tree) :
  r ∉ preorder t -> ancestors r t = None.
Proof.
  induction t as [x kids IH] using Tree_ind_all.
  rewrite ancestors_Node. cbn. intros [Hne Hnot]%not_elem_of_cons.
  rewrite decide_False by done.
  induction kids as [|k kids IHkids]; [done|].
  apply Forall_cons in IH as [Hk Hrest]. cbn in Hnot.
  apply not_elem_of_app in Hnot as [Hnotk Hnotrest].
  rewrite ancestorsAmong_cons, Hk by done. by apply IHkids.
Qed.

(** A new last child of an attached element has that element as parent. *)
Lemma parent_of_appended (e n : Ref) (t : Tree) :
  n ∉ preorder t -> e ∈ preorder t ->
  exists chain,
    ancestors n (updateKids e (fun kids => kids ++ [Node n []]) t) =
    Some (e :: chain).
Proof.
  induction t as [x kids IH] using Tree_ind_all.
  cbn [preorder updateKids]. intros [Hne Hnot]%not_elem_of_cons Hin.
  destruct (decide (x = e)) as [->|Hxe].
  - exists []. rewrite ancestors_Node, decide_False by done.
    clear IH Hin. induction kids as [|k kids IHkids].
    + cbn. by rewrite decide_True.
    + cbn in Hnot. apply not_elem_of_app in Hnot as [Hnotk Hnotrest].
      cbn [app]. rewrite ancestorsAmong_cons, ancestors_absent by done.
      by apply IHkids.
  - apply elem_of_cons in Hin as [->|Hin]; [done|].
    rewrite ancestors_Node, decide_False by done.
    induction kids as [|k kids IHkids]; [by apply elem_of_nil in Hin|].
    apply Forall_cons in IH as [Hk Hrest]. cbn in Hnot, Hin.
    apply not_elem_of_app in Hnot as [Hnotk Hnotrest].
    rewrite fmap_cons, ancestorsAmong_cons.
    destruct (decide (e ∈ preorder k)) as [Hek|Hek].
    + destruct (Hk Hnotk Hek) as [chain ->]. by exists (chain ++ [x]).
    + rewrite updateKids_absent, ancestors_absent by done.
      apply IHkids; [done|done|].
      by apply elem_of_app in Hin as [?|?].
Qed.

(** Appending a new child to an element and removing it again gives the
    tree back. *)
Lemma updateKids_append_remove (e n : Ref) (t : Tree) :
  n ∉ preorder t ->
  updateKids e
    (fun kids => filter (fun k => subtree_ref k <> n) (kids ++ [Node n []])) t
  = t.
Proof.
  induction t as [x kids IH] using Tree_ind_all.
  cbn [preorder updateKids]. intros [Hne Hnot]%not_elem_of_cons.
  destruct (decide (x = e)) as [->|Hxe]; f_equal.
  - rewrite filter_app, filter_cons_False, filter_nil, app_nil_r
      by (cbn; by intros Hn).
    clear IH. induction kids as [|[y ys] kids IHkids]; [done|].
    cbn in Hnot. apply not_elem_of_cons in Hnot as [Hy Hnot].
    apply not_elem_of_app in Hnot as [_ Hnot].
    rewrite filter_cons_True by (cbn; congruence).
    f_equal. by apply IHkids.
  - induction kids as [|k kids IHkids]; [done|].
    apply Forall_cons in IH as [Hk Hrest]. cbn in Hnot.
    apply not_elem_of_app in Hnot as [Hnotk Hnotrest].
    rewrite fmap_cons, Hk by done. f_equal. by apply IHkids.
Qed.

Lemma document_removeRipple (ripple : Ref) (st : State) :
  heap (document (runTimeout (RemoveRipple ripple) st)) = heap (document st) /\
  tree (document (runTimeout (RemoveRipple ripple) st)) =
  match ancestors ripple (tree (document st)) with
  | Some (parent :: _) =>
      updateKids parent (filter (fun k => subtree_ref k <> ripple))
                 (tree (document st))
  | _ => tree (document st)
  end.
Proof.
  unfold runTimeout, parentNode.
  by destruct (ancestors ripple (tree (document st))) as [[|parent chain]|].
Qed.

(** X6.  [createRippleEffect] appends a new span of class ripple-effect as
    last child of the element, makes the element relatively positioned and
    queues the removal of the span after 600 ms.  The queued callback takes
    the span out again, so that the tree is the one before the effect; the
    position of the element stays relative. *)
Theorem ripple_is_removed (st : State) (element : Ref) (e : Element) :
  heap (document st) !! element = Some e ->
  freshIdentity (document st) ->
  let ripple := nextRef (document st) in
  let st' := createRippleEffect element st in
  let st'' := runTimeout (RemoveRipple ripple) st' in
  tree (document st') =
  updateKids element (fun kids => kids ++ [Node ripple []]) (tree (document st)) /\
  heap (document st') !! ripple =
  Some (set_className "ripple-effect" (blank "SPAN")) /\
  heap (document st') !! element = Some (set_position "relative" e) /\
  timers (browser st') = timers (browser st) ++ [(RemoveRipple ripple, 600)] /\
  tree (document st'') = tree (document st) /\
  heap (document st'') !! element = Some (set_position "relative" e).
Proof.
  intros He [Hheap Htree] ripple st' st''.
  assert (element <> ripple) as Hne by (subst ripple; congruence).
  assert (tree (document st') =
          updateKids element (fun kids => kids ++ [Node ripple []])
                     (tree (document st))) as Htree' by done.
  assert (heap (document st') !! element = Some (set_position "relative" e))
    as Helement.
  { subst st'. unfold createRippleEffect. cbn.
    by rewrite lookup_alter_eq, lookup_alter_ne, lookup_insert_ne, He by done. }
  destruct (document_removeRipple ripple st') as [Hheap'' Htree''].
  fold st'' in Hheap'', Htree''.
  split; [done|].
  split.
  { subst st'. unfold createRippleEffect. cbn.
    by rewrite lookup_alter_ne, lookup_alter_eq, lookup_insert_eq by done. }
  split; [done|]. split; [done|].
  rewrite Hheap'', Htree'', Htree'. split; [|done].
  subst ripple.
  destruct (decide (element ∈ preorder (tree (document st)))) as [Hin|Hnot].
  - destruct (parent_of_appended element _ _ Htree Hin) as [chain ->].
    rewrite updateKids_updateKids. by apply updateKids_append_remove.
  - by rewrite updateKids_absent, ancestors_absent by done.
Qed.

(** ** Nesting level and path *)

Lemma ancestors_attached (r : Ref) (t : Tree) (chain : list Ref) :
  ancestors r t = Some chain -> r ∈ preorder t.
Proof.
  intros Hsome. destruct (decide (r ∈ preorder t)) as [Hin|Hnot]; [done|].
  by rewrite ancestors_absent in Hsome.
Qed.

Lemma ancestorsAmong_skip (r x : Ref) (before rest : list Tree) :
  Forall (fun k => r ∉ preorder k) before ->
  ancestorsAmong r x (before ++ rest) = ancestorsAmong r x rest.
Proof.
  induction before as [|k before IH]; [done|].
  intros [Hk Hbefore]%Forall_cons. cbn [app].
  rewrite ancestorsAmong_cons, ancestors_absent by done. by apply IH.
Qed.

(** The child below which [ancestorsAmong] finds the element. *)
Lemma ancestorsAmong_Some (r x : Ref) (kids : list Tree) (chain : list Ref) :
  ancestorsAmong r x kids = Some chain ->
  exists before k after below,
    kids = before ++ k :: after /\
    ancestors r k = Some below /\
    chain = below ++ [x].
Proof.
  induction kids as [|k kids IH]; [done|].
  rewrite ancestorsAmong_cons.
  destruct (ancestors r k) as [below|] eqn:Hk.
  - intros [= <-]. by exists [], k, kids, below.
  - intros Hrest. destruct (IH Hrest) as (before & k' & after & below & -> & ? & ?).
    by exists (k :: before), k', after, below.
Qed.

(** In a tree in which every element is attached once, the chain of
    ancestors of an element is its parent followed by the chain of the
    parent. *)
Lemma ancestors_parent (child parent : Ref) (chain : list Ref) (t : Tree) :
  NoDup (preorder t) ->
  ancestors child t = Some (parent :: chain) ->
  ancestors parent t = Some chain.
Proof.
  revert chain. induction t as [x kids IH] using Tree_ind_all.
  intros chain Hnd. rewrite !ancestors_Node.
  destruct (decide (x = child)) as [->|Hxc]; [done|].
  intros (before & k & after & below & -> & Hk & Hchain)%ancestorsAmong_Some.
  cbn in Hnd. apply NoDup_cons in Hnd as [Hx Hnd].
  rewrite flat_map_app in Hx, Hnd. cbn in Hx, Hnd.
  apply NoDup_app in Hnd as (_ & Hdisj & Hnd).
  apply NoDup_app in Hnd as (Hndk & _ & _).
  apply Forall_app in IH as [_ [IHk _]%Forall_cons].
  destruct below as [|p below]; cbn in Hchain; injection Hchain as -> ->.
  - by rewrite decide_True.
  - pose proof (IHk below Hndk Hk) as Hpk.
    pose proof (ancestors_attached _ _ _ Hpk) as Hpin.
    rewrite decide_False.
    + rewrite ancestorsAmong_skip, ancestorsAmong_cons, Hpk; [done|].
      apply Forall_forall. intros k' Hk' Hpk'.
      apply (Hdisj p).
      * apply elem_of_flat_map. by exists k'.
      * apply elem_of_app. by left.
    + intros ->. apply Hx. apply elem_of_app. right. apply elem_of_app. by left.
Qed.

Lemma parentChain_parent (d : Document) (child parent : Ref) :
  NoDup (preorder (tree d)) ->
  parentNode child d = Some parent ->
  parentChain d child = parent :: parentChain d parent.
Proof.
  unfold parentNode, parentChain. intros Hnd.
  destruct (ancestors child (tree d)) as [[|p chain]|] eqn:Hchild; [done| |done].
  intros [= ->]. by rewrite (ancestors_parent _ _ _ _ Hnd Hchild).
Qed.

Lemma nestingLoop_level (body : Ref) (chain : list Ref) (level : Z) :
  nestingLoop body chain level = nestingLoop body chain 0 + level.
Proof.
  revert level. induction chain as [|p chain IH]; intros level; cbn; [lia|].
  destruct (decide (p = body)); [lia|].
  rewrite IH, (IH (0 + 1)). lia.
Qed.

Section Paths.
Context `{Host}.

Lemma cssPathLoop_path (d : Document) (chain : list Ref) (path : list string) :
  cssPathLoop d chain path = cssPathLoop d chain [] ++ path.
Proof.
  revert path. induction chain as [|c chain IH]; intros path; cbn; [done|].
  destruct (decide (c = body d)); [done|].
  rewrite IH, (IH [_]). by rewrite <- app_assoc.
Qed.

Lemma length_cssPathLoop (d : Document) (chain : list Ref) :
  Z.of_nat (length (cssPathLoop d chain [])) = nestingLoop (body d) chain 0.
Proof.
  induction chain as [|c chain IH]; cbn; [done|].
  destruct (decide (c = body d)); [done|].
  rewrite cssPathLoop_path, length_app, nestingLoop_level. cbn. lia.
Qed.

(** X7.  For every element other than the body, the number of segments that
    [generateCssPath] joins is the nesting level that
    [calculateNestingLevel] returns plus one: the two loops stop at the same
    ancestor.  The path of the body itself has no segment. *)
Theorem path_length_is_level_plus_one (d : Document) (element : Ref) :
  element <> body d ->
  generateCssPath element d = String.concat " > " (pathSegments element d) /\
  Z.of_nat (length (pathSegments element d)) =
  calculateNestingLevel element d + 1 /\
  pathSegments (body d) d = [].
Proof.
  intros Hne. split; [done|]. split.
  - unfold pathSegments, calculateNestingLevel. cbn.
    rewrite decide_False by done.
    rewrite cssPathLoop_path, length_app, Nat2Z.inj_add, length_cssPathLoop.
    cbn. lia.
  - unfold pathSegments. cbn. by rewrite decide_True.
Qed.

(** X8.  Where every element is attached once, the path of an element other
    than the body is the path of its parent followed by the selector of the
    element, and its nesting level is one more than that of its parent, or 0
    when the parent is the body. *)
Theorem path_extends_parent (d : Document) (child parent : Ref) :
  NoDup (preorder (tree d)) ->
  parentNode child d = Some parent ->
  child <> body d ->
  pathSegments child d =
  pathSegments parent d ++ [selectorOf (elementAt d child)] /\
  calculateNestingLevel child d =
  if decide (parent = body d) then 0
  else calculateNestingLevel parent d + 1.
Proof.
  intros Hnd Hparent Hne.
  unfold pathSegments, calculateNestingLevel.
  rewrite (parentChain_parent d child parent Hnd Hparent).
  split.
  - cbn [cssPathLoop]. rewrite (decide_False (P := child = body d)) by done.
    destruct (decide (parent = body d)); [done|].
    rewrite cssPathLoop_path, (cssPathLoop_path _ _ [_]).
    by rewrite <- app_assoc.
  - cbn [nestingLoop]. destruct (decide (parent = body d)); [done|].
    by rewrite nestingLoop_level.
Qed.

Lemma nestingLoop_to_root (body : Ref) (chain : list Ref) (level : Z) :
  body ∉ chain ->
  nestingLoop body chain level = level + Z.of_nat (length chain).
Proof.
  revert level. induction chain as [|p chain IH]; intros level Hnot; cbn; [lia|].
  apply not_elem_of_cons in Hnot as [Hne Hnot].
  rewrite decide_False, IH by done. lia.
Qed.

Lemma cssPathLoop_to_root (d : Document) (chain : list Ref) (path : list string) :
  body d ∉ chain ->
  cssPathLoop d chain path =
  map (fun r => selectorOf (elementAt d r)) (rev chain) ++ path.
Proof.
  revert path. induction chain as [|c chain IH]; intros path Hnot; cbn; [done|].
  apply not_elem_of_cons in Hnot as [Hne Hnot].
  rewrite decide_False, IH by done.
  by rewrite map_app, <- app_assoc.
Qed.

(** X9.  For an element that is not below the body (an element of the head,
    the root element, an element that is not attached) both loops run until
    [parentElement] is null: the nesting level is the number of all its
    ancestors and the path has a segment for each of them, from the root
    element down, and one for the element.  For the body itself the level
    is the number of its ancestors, while its path is empty. *)
Theorem level_and_path_outside_body (d : Document) (element : Ref) :
  body d ∉ parentChain d element ->
  calculateNestingLevel element d =
  Z.of_nat (length (parentChain d element)) /\
  generateCssPath element d =
  if decide (element = body d) then ""
  else String.concat " > "
         (map (fun r => selectorOf (elementAt d r))
              (rev (parentChain d element) ++ [element])).
Proof.
  intros Hnot. split.
  - unfold calculateNestingLevel. by rewrite nestingLoop_to_root.
  - unfold generateCssPath. cbn [cssPathLoop].
    destruct (decide (element = body d)); [done|].
    rewrite cssPathLoop_to_root by done.
    by rewrite map_app.
Qed.

End Paths.

(** ** The index a listener captures *)

Lemma sublist_flat_map {A B} (f g : A -> list B) (l : list A) :
  Forall (fun x => sublist (f x) (g x)) l ->
  sublist (flat_map f l) (flat_map g l).
Proof.
  induction 1 as [|x l Hx _ IH]; cbn; [done|]. by apply sublist_app.
Qed.

(** [querySelectorAll] returns elements in document order. *)
Lemma descendantsOf_sublist (anc sel : Element -> bool) (d : Document)
    (inside : bool) (t : Tree) :
  sublist (descendantsOf anc sel d inside t) (preorder t).
Proof.
  revert inside. induction t as [x kids IH] using Tree_ind_all. intros inside.
  cbn [descendantsOf preorder].
  assert (sublist
            (flat_map (descendantsOf anc sel d (inside || matches anc d x)) kids)
            (flat_map preorder kids)) as Hkids.
  { apply sublist_flat_map. eapply Forall_impl; [exact IH|]. intros k Hk. apply Hk. }
  destruct (inside && matches sel d x); cbn.
  - by apply sublist_skip.
  - by apply sublist_cons.
Qed.

Lemma heap_foldl_listeners (l : list (nat * Ref)) (h : Z -> ClickHandler)
    (st : State) (b : Ref) :
  b ∉ l.*2 ->
  heap (document (foldl (fun st p => addClickListener p.2 (h (Z.of_nat p.1)) st)
                        st l)) !! b =
  heap (document st) !! b.
Proof.
  revert st. induction l as [|[i r] l IH]; intros st Hnot; [done|].
  cbn in Hnot. apply not_elem_of_cons in Hnot as [Hne Hnot].
  cbn. rewrite IH by done. cbn. by rewrite lookup_alter_ne.
Qed.

(** [forEach] hands each element the listener made for its own position. *)
Lemma heap_forEach_indexed (elements : list Ref) (h : Z -> ClickHandler)
    (st : State) (k : nat) (item : Ref) :
  NoDup elements ->
  elements !! k = Some item ->
  heap (document (forEach elements
                    (fun r i => addClickListener r (h i)) st)) !! item =
  add_onClick (h (Z.of_nat k)) <$> heap (document st) !! item.
Proof.
  intros Hnd Hk. unfold forEach.
  assert ((k, item) ∈ imap pair elements) as Hin
    by (apply elem_of_lookup_imap; by exists k, item).
  rewrite <- (snd_imap_pair (fun i => i) elements) in Hnd.
  change (imap (fun i x => (i, x)) elements) with (imap pair elements) in Hnd.
  revert st Hin Hnd. generalize (imap pair elements). intros l.
  induction l as [|[i r] l IH]; intros st Hin Hnd; [by apply elem_of_nil in Hin|].
  cbn in Hnd. apply NoDup_cons in Hnd as [Hr Hnd]. cbn [foldl fst snd].
  apply elem_of_cons in Hin as [[= <- <-]|Hin].
  - rewrite heap_foldl_listeners by done. cbn. by rewrite lookup_alter_eq.
  - rewrite IH by done. cbn. rewrite lookup_alter_ne; [done|].
    intros ->. apply Hr. apply list_elem_of_fmap. by exists (k, item).
Qed.

(** X10.  [setupListInteractions] gives the list item at position k, in
    document order, of the items below the element with id unstable-list one
    more click listener, which records k as itemIndex; every element that is
    not such an item is left as it is. *)
Theorem list_items_get_their_index (st : State) (k : nat) (item : Ref) :
  let listItems :=
    querySelectorAll (has_id "unstable-list") (has_tag "LI") (document st) in
  NoDup (preorder (tree (document st))) ->
  listItems !! k = Some item ->
  sublist listItems (preorder (tree (document st))) /\
  heap (document (setupListInteractions st)) !! item =
  add_onClick (ListItemClick (Z.of_nat k)) <$> heap (document st) !! item /\
  forall r,
    r ∉ listItems ->
    heap (document (setupListInteractions st)) !! r = heap (document st) !! r.
Proof.
  intros listItems Hnd Hk.
  assert (sublist listItems (preorder (tree (document st)))) as Hsub
    by apply descendantsOf_sublist.
  split; [done|]. split.
  - apply heap_forEach_indexed; [|done]. by eapply sublist_NoDup.
  - intros r Hr. by apply heap_forEach_listeners.
Qed.

(** X11.  [setupNestedElementTests] gives the span at position k, in
    document order, of the spans below an element of class deeply-nested
    one more click listener, which records k as elementIndex; every element
    that is not such a span is left as it is. *)
Theorem nested_spans_get_their_index (st : State) (k : nat) (element : Ref) :
  let nestedElements :=
    querySelectorAll (has_class "deeply-nested") (has_tag "SPAN") (document st) in
  NoDup (preorder (tree (document st))) ->
  nestedElements !! k = Some element ->
  sublist nestedElements (preorder (tree (document st))) /\
  heap (document (setupNestedElementTests st)) !! element =
  add_onClick (NestedClick (Z.of_nat k)) <$> heap (document st) !! element /\
  forall r,
    r ∉ nestedElements ->
    heap (document (setupNestedElementTests st)) !! r = heap (document st) !! r.
Proof.
  intros nestedElements Hnd Hk.
  assert (sublist nestedElements (preorder (tree (document st)))) as Hsub
    by apply descendantsOf_sublist.
  split; [done|]. split.
  - apply heap_forEach_indexed; [|done]. by eapply sublist_NoDup.
  - intros r Hr. by apply heap_forEach_listeners.
Qed.

(** ** What export leaves behind *)

Section ExportPage.
Context `{Host}.

Lemma document_followDownloadLink (a : Ref) (st : State) :
  document (followDownloadLink a st) = document st.
Proof.
  unfold followDownloadLink.
  destruct (heap (document st) !! a) as [e|]; [|done].
  by destruct (objectURLs (browser st) !! href e).
Qed.

Lemma browser_followDownloadLink (a : Ref) (st : State) :
  let w := browser st in
  let w' := browser (followDownloadLink a st) in
  ticks w' = ticks w /\ timers w' = timers w /\ console w' = console w /\
  objectURLs w' = objectURLs w /\ urlsIssued w' = urlsIssued w.
Proof.
  unfold followDownloadLink.
  destruct (heap (document st) !! a) as [e|]; [|done].
  by destruct (objectURLs (browser st) !! href e).
Qed.

(** X12.  Export leaves the page as it found it: the anchor it appends to
    the body is removed again, so the tree is the same; every element object
    that existed is unchanged; the object URL it creates is revoked before it
    returns; it queues no timer and writes nothing to the console.  It reads
    the clock three times. *)
Theorem export_leaves_page (st : State) :
  freshIdentity (document st) ->
  let st' := exportTestResults st in
  tree (document st') = tree (document st) /\
  (forall r e,
     heap (document st) !! r = Some e -> heap (document st') !! r = Some e) /\
  objectURLs (browser st') =
  delete (blobURL (urlsIssued (browser st))) (objectURLs (browser st)) /\
  timers (browser st') = timers (browser st) /\
  console (browser st') = console (browser st) /\
  ticks (browser st') = (3 + ticks (browser st))%nat.
Proof.
  intros [Hheap Htree] st'. subst st'.
  unfold exportTestResults. cbn.
  rewrite !document_followDownloadLink. cbn.
  set (st1 := with_document _ _).
  destruct (browser_followDownloadLink (nextRef (document st)) st1)
    as (-> & -> & -> & -> & _).
  subst st1. cbn.
  split; [|split; [|split; [|done]]].
  - rewrite updateKids_updateKids. by apply updateKids_append_remove.
  - intros r e He.
    assert (r <> nextRef (document st)) as Hne by congruence.
    by rewrite !lookup_alter_ne, lookup_insert_ne.
  - apply delete_insert_eq.
Qed.

End ExportPage.

(** ** The panel after a reset *)

Lemma findDynamicButton_id (d : Document) (b : Ref) :
  findDynamicButton d = Some b ->
  exists s, id_ <$> heap d !! b = Some s /\
            (s = "dynamic-id-btn" \/ String.prefix "dynamic-btn-" s = true).
Proof.
  unfold findDynamicButton.
  destruct (getElementById "dynamic-id-btn" d) as [b0|] eqn:Hb0.
  - intros [= <-]. apply getElementById_Some in Hb0 as (e & He & Hid & _).
    exists (id_ e). rewrite He. split; [done | by left].
  - unfold querySelector. intros [_ Hmatch]%find_Some_elem.
    unfold matches in Hmatch. destruct (heap d !! b) as [e|]; [|done].
    exists (id_ e). split; [done | by right].
Qed.


(** ** What the listener of DOMContentLoaded changes *)

Lemma addClickListener_document (r0 : Ref) (h : ClickHandler) (st : State) :
  let st' := addClickListener r0 h st in
  tree (document st') = tree (document st) /\
  forall A (f : Element -> A) r,
    (forall c e, f (add_onClick c e) = f e) ->
    f <$> heap (document st') !! r = f <$> heap (document st) !! r.
Proof.
  cbn. split; [done|]. intros A f r Hf. rewrite lookup_alter.
  case_decide as Hr; [subst r|done]. by rewrite fmap_fmap_keep.
Qed.

Lemma addClickListenerById_document (s : string) (h : ClickHandler) (st : State) :
  let st' := addClickListenerById s h st in
  this st' = this st /\ browser st' = browser st /\
  tree (document st') = tree (document st) /\
  forall A (f : Element -> A) r,
    (forall c e, f (add_onClick c e) = f e) ->
    f <$> heap (document st') !! r = f <$> heap (document st) !! r.
Proof.
  unfold addClickListenerById.
  destruct (getElementById s (document st)) as [b|]; [|done].
  split; [done|]. split; [done|]. apply addClickListener_document.
Qed.

Lemma browser_forEach (elements : list Ref) (h : Z -> ClickHandler) (st : State) :
  browser (forEach elements (fun r i => addClickListener r (h i)) st) = browser st.
Proof.
  unfold forEach. generalize (imap pair elements). intros l. revert st.
  induction l as [|p l IH]; intros st; [done|]. cbn. by rewrite IH.
Qed.

Section Loading.
Context `{Host}.

Lemma setupAriaButton_document (st : State) :
  let st' := setupAriaButton st in
  tree (document st') = tree (document st) /\
  forall A (f : Element -> A) r,
    (forall c e, f (add_onClick c e) = f e) ->
    (forall k e, f (add_onKeydown k e) = f e) ->
    f <$> heap (document st') !! r = f <$> heap (document st) !! r.
Proof.
  unfold setupAriaButton.
  destruct (querySelector _ _) as [a|]; [|done]. cbn.
  split; [done|]. intros A f r Hc Hk.
  destruct (decide (a = r)) as [->|Hne].
  - rewrite !lookup_alter_eq. by rewrite !fmap_fmap_keep.
  - by rewrite !lookup_alter_ne by done.
Qed.

(** The setup methods only add listeners. *)
Lemma afterSetup_document (d : Document) (w : Browser) :
  this (afterSetup d w) = mkManager 1 [] 0 /\
  browser (afterSetup d w) = w /\
  tree (document (afterSetup d w)) = tree d /\
  forall A (f : Element -> A) r,
    (forall c e, f (add_onClick c e) = f e) ->
    (forall k e, f (add_onKeydown k e) = f e) ->
    f <$> heap (document (afterSetup d w)) !! r = f <$> heap d !! r.
Proof.
  unfold afterSetup.
  split.
  { by rewrite this_setupNestedElementTests, this_setupAriaButton,
      this_setupListInteractions, this_setupDynamicIdButton. }
  set (st0 := mkState (mkManager 1 [] 0) d w).
  destruct (addClickListenerById_document "dynamic-id-btn" DynamicIdClick st0)
    as (_ & Hw1 & Ht1 & Hf1).
  change (addClickListenerById "dynamic-id-btn" DynamicIdClick st0)
    with (setupDynamicIdButton st0) in Hw1, Ht1, Hf1.
  set (st1 := setupDynamicIdButton st0) in *.
  destruct (forEach_listeners_document
              (querySelectorAll (has_id "unstable-list") (has_tag "LI")
                                (document st1))
              ListItemClick st1) as [Ht2 Hf2].
  pose proof (browser_forEach
                (querySelectorAll (has_id "unstable-list") (has_tag "LI")
                                  (document st1))
                ListItemClick st1) as Hw2.
  fold (setupListInteractions st1) in Ht2, Hf2, Hw2.
  set (st2 := setupListInteractions st1) in *.
  destruct (setupAriaButton_document st2) as [Ht3 Hf3].
  assert (browser (setupAriaButton st2) = browser st2) as Hw3
    by (unfold setupAriaButton; by destruct (querySelector _ _)).
  set (st3 := setupAriaButton st2) in *.
  destruct (forEach_listeners_document
              (querySelectorAll (has_class "deeply-nested") (has_tag "SPAN")
                                (document st3))
              NestedClick st3) as [Ht4 Hf4].
  pose proof (browser_forEach
                (querySelectorAll (has_class "deeply-nested") (has_tag "SPAN")
                                  (document st3))
                NestedClick st3) as Hw4.
  fold (setupNestedElementTests st3) in Ht4, Hf4, Hw4.
  split; [by rewrite Hw4, Hw3, Hw2, Hw1|].
  split; [by rewrite Ht4, Ht3, Ht2, Ht1|].
  intros A f r Hc Hk. by rewrite Hf4, Hf3, Hf2, Hf1.
Qed.

Lemma new_manager_eq (d : Document) (w : Browser) :
  new_RobustnessTestManager d w =
  updateMetricsDisplay
    (with_startTime (clock w (ticks w)) (Date_now (afterSetup d w)).2).
Proof.
  unfold new_RobustnessTestManager, init, initializeMetrics.
  fold (afterSetup d w).
  destruct (afterSetup_document d w) as (_ & Hw & _).
  unfold Date_now. by rewrite Hw.
Qed.

Lemma getElementById_fields (s : string) (d d' : Document) :
  tree d' = tree d ->
  (forall r, id_ <$> heap d' !! r = id_ <$> heap d !! r) ->
  getElementById s d' = getElementById s d.
Proof.
  intros Htree Hid. unfold getElementById. rewrite Htree.
  apply find_ext. intros r _. apply matches_fmap.
  unfold has_id. specialize (Hid r).
  destruct (heap d' !! r) as [e1|], (heap d !! r) as [e2|]; cbn in *; try done.
  injection Hid as Hid. by rewrite Hid.
Qed.

Lemma loaded_manager (d : Document) (w : Browser) :
  this (onDOMContentLoaded d w) = mkManager 1 [] (clock w (ticks w)).
Proof.
  unfold onDOMContentLoaded.
  destruct (addClickListenerById_document "run-stress-test-btn" RunStressClick
              (addClickListenerById "reset-tests-btn" ResetClick
                 (addClickListenerById "export-results-btn" ExportClick
                    (new_RobustnessTestManager d w)))) as (-> & _).
  destruct (addClickListenerById_document "reset-tests-btn" ResetClick
              (addClickListenerById "export-results-btn" ExportClick
                 (new_RobustnessTestManager d w))) as (-> & _).
  destruct (addClickListenerById_document "export-results-btn" ExportClick
              (new_RobustnessTestManager d w)) as (-> & _).
  rewrite new_manager_eq, this_updateMetricsDisplay. cbn.
  by destruct (afterSetup_document d w) as (-> & _).
Qed.

(** X14.  The listener of DOMContentLoaded (lines 290-313), run on the page
    as it is when the event fires, constructs the manager with counter 1,
    an empty log and the first clock reading as session clock.  On the page
    it only adds listeners and renders the panel: the tree is the one of the
    page with the panel emptied, every element keeps its tag, id, class,
    role, style and link attributes, and the content of no element other
    than one with the id of the panel is assigned.  (The style element that
    the script adds to the head when it is loaded, lines 316-355, is there
    before the event fires: it is part of the page the listener runs on.) *)
Theorem DOMContentLoaded_adds_listeners_and_renders (d : Document) (w : Browser) :
  let st := onDOMContentLoaded d w in
  this st = mkManager 1 [] (clock w (ticks w)) /\
  tree (document st) = renderTree d /\
  forall r e,
    heap d !! r = Some e ->
    exists e',
      heap (document st) !! r = Some e' /\
      markupOf e' = markupOf e /\
      (id_ e <> "test-metrics" ->
       innerHTML e' = innerHTML e /\ textContent e' = textContent e).
Proof.
  cbv zeta. split; [apply loaded_manager|].
  unfold onDOMContentLoaded.
  set (st0 := new_RobustnessTestManager d w).
  destruct (addClickListenerById_document "export-results-btn" ExportClick st0)
    as (Hm1 & _ & Ht1 & Hf1).
  set (st1 := addClickListenerById _ _ st0) in *.
  destruct (addClickListenerById_document "reset-tests-btn" ResetClick st1)
    as (Hm2 & _ & Ht2 & Hf2).
  set (st2 := addClickListenerById _ _ st1) in *.
  destruct (addClickListenerById_document "run-stress-test-btn" RunStressClick st2)
    as (Hm3 & _ & Ht3 & Hf3).
  set (st3 := addClickListenerById _ _ st2) in *.
  destruct (afterSetup_document d w) as (Hm & Hw & Ht & Hf).
  destruct (constructor_document d w) as [Htree _]. fold st0 in Htree.
  split; [by rewrite Ht3, Ht2, Ht1|].
  intros r e He.
  pose (content := fun x : Element => (markupOf x, innerHTML x, textContent x)).
  assert (content <$> heap (document (afterSetup d w)) !! r = Some (content e))
    as Hsetup by (by rewrite Hf, He).
  assert (markupOf <$> heap (document st0) !! r = Some (markupOf e)) as Hmarkup.
  { subst st0. rewrite new_manager_eq, field_updateMetricsDisplay by done.
    cbn. by rewrite Hf, He. }
  assert (id_ e <> "test-metrics" ->
          content <$> heap (document st0) !! r = Some (content e)) as Hcontent.
  { intros Hid. subst st0. rewrite new_manager_eq.
    rewrite heap_updateMetricsDisplay_other; [done|].
    cbn. rewrite Hf, He by done. cbn. congruence. }
  assert (forall A (f : Element -> A),
            (forall c x, f (add_onClick c x) = f x) ->
            f <$> heap (document st3) !! r = f <$> heap (document st0) !! r)
    as Hlast by (intros A f Hfc; by rewrite Hf3, Hf2, Hf1).
  destruct (heap (document st3) !! r) as [e'|] eqn:He'.
  - exists e'. split; [done|]. split.
    + specialize (Hlast _ markupOf ltac:(done)). rewrite Hmarkup in Hlast.
      cbn in Hlast. congruence.
    + intros Hid. specialize (Hlast _ content ltac:(done)).
      rewrite (Hcontent Hid) in Hlast. unfold content in Hlast.
      cbn in Hlast. split; congruence.
  - specialize (Hlast _ markupOf ltac:(done)). by rewrite Hmarkup in Hlast.
Qed.

End Loading.

(** ** What a listener leaves alone *)

Lemma stressHeap_below (n r : Ref) (h : gmap Ref Element) :
  (r < n)%nat -> stressHeap n h !! r = h !! r.
Proof.
  intros Hr. unfold stressHeap, sectionHeap.
  by rewrite !lookup_insert_ne by lia.
Qed.

Lemma nextRef_logEvent (k : EventType) (data : Event) (st : State) :
  nextRef (document (logEvent k data st)) = nextRef (document st).
Proof.
  unfold logEvent, updateMetricsDisplay. cbn.
  by destruct (getElementById _ _).
Qed.

Lemma nextRef_updateMetricsDisplay (st : State) :
  nextRef (document (updateMetricsDisplay st)) = nextRef (document st).
Proof. unfold updateMetricsDisplay. by destruct (getElementById _ _). Qed.

Section Frame.
Context `{Host}.
Context {A : Type} (f : Element -> A).
Hypothesis f_content : keeps f.
Hypothesis f_id : forall s e, f (set_id s e) = f e.
Hypothesis f_background : forall s e, f (set_backgroundColor s e) = f e.
Hypothesis f_position : forall s e, f (set_position s e) = f e.

(** A field that no listener assigns is, on every element of the page, after
    a listener has run what it was before. *)
Lemma field_runClick (target : Ref) (st : State) (h : ClickHandler) (r : Ref) :
  inUse (document st) r ->
  f <$> heap (document (runClick target st h)) !! r =
  f <$> heap (document st) !! r.
Proof.
  unfold inUse. intros Hr.
  destruct h as [| |index|index|i j| | |]; cbn [runClick].
  - by apply dynamicIdClick_field.
  - unfold ariaClick.
    destruct (heap (document st) !! target) as [e|]; [|done]. cbn.
    rewrite lookup_alter. case_decide as Hx.
    + subst r. rewrite fmap_fmap_keep by done. by rewrite field_logEvent.
    + by rewrite field_logEvent.
  - unfold nestedClick.
    destruct (heap (document st) !! target) as [e|]; [|done].
    cbn -[createRippleEffect].
    set (data := [("elementIndex", _); _; _; _]).
    set (st1 := with_browser _ st).
    unfold createRippleEffect. cbn.
    rewrite nextRef_logEvent.
    change (nextRef (document st1)) with (nextRef (document st)).
    rewrite lookup_alter. case_decide as Hx.
    + subst r. rewrite fmap_fmap_keep by done.
      rewrite lookup_alter_ne, lookup_insert_ne by lia.
      by rewrite field_logEvent.
    + rewrite lookup_alter_ne, lookup_insert_ne by lia.
      by rewrite field_logEvent.
  - by apply field_listItemClick.
  - unfold stressClick. cbn. by rewrite field_logEvent.
  - unfold exportTestResults. cbn.
    rewrite !document_followDownloadLink. cbn.
    by rewrite !lookup_alter_ne, lookup_insert_ne by lia.
  - rewrite resetTests_eq. cbv zeta.
    set (st0 := with_startTime _ _).
    destruct (findDynamicButton (document (updateMetricsDisplay st0)))
      as [b|]; cbn.
    + rewrite lookup_alter. case_decide as Hx.
      * subst r. rewrite fmap_fmap_keep by done.
        rewrite lookup_alter_eq, fmap_fmap_keep by done.
        by rewrite field_updateMetricsDisplay.
      * rewrite lookup_alter_ne by done.
        by rewrite field_updateMetricsDisplay.
    + by rewrite field_updateMetricsDisplay.
  - unfold performStressTest.
    destruct (getElementById _ _) as [container|]; [|done].
    cbn -[buildStressStructure].
    rewrite field_logEvent by done. cbn -[buildStressStructure].
    rewrite buildStressStructure_eq. cbn -[stressHeap].
    rewrite stressHeap_below by done.
    rewrite lookup_alter. case_decide as Hx; [|done].
    subst r. by rewrite fmap_fmap_keep.
Qed.

Lemma nextRef_runClick (target : Ref) (st : State) (h : ClickHandler) :
  (nextRef (document st) <= nextRef (document (runClick target st h)))%nat.
Proof.
  destruct h as [| |index|index|i j| | |]; cbn [runClick].
  - unfold dynamicIdClick.
    destruct (heap (document st) !! target) as [e|]; [|done]. cbn.
    by rewrite nextRef_logEvent.
  - unfold ariaClick.
    destruct (heap (document st) !! target) as [e|]; [|done]. cbn.
    by rewrite nextRef_logEvent.
  - unfold nestedClick.
    destruct (heap (document st) !! target) as [e|]; [|done]. cbn.
    rewrite nextRef_logEvent. cbn. lia.
  - unfold listItemClick.
    destruct (heap (document st) !! target) as [e|]; [|done]. cbn.
    by rewrite nextRef_logEvent.
  - unfold stressClick. cbn. by rewrite nextRef_logEvent.
  - unfold exportTestResults. cbn.
    rewrite !document_followDownloadLink. cbn. lia.
  - rewrite resetTests_eq. cbv zeta.
    set (st0 := with_startTime _ _).
    destruct (findDynamicButton (document (updateMetricsDisplay st0)))
      as [b|]; cbn; by rewrite nextRef_updateMetricsDisplay.
  - unfold performStressTest.
    destruct (getElementById _ _) as [container|]; [|done].
    cbn -[buildStressStructure].
    rewrite nextRef_logEvent. cbn -[buildStressStructure].
    rewrite buildStressStructure_eq. cbn. lia.
Qed.

Lemma field_click (target : Ref) (st : State) (r : Ref) :
  inUse (document st) r ->
  inUse (document (click target st)) r /\
  f <$> heap (document (click target st)) !! r = f <$> heap (document st) !! r.
Proof.
  unfold click. destruct (heap (document st) !! target) as [e|]; [|done].
  generalize (onClick e). intros handlers. revert st.
  induction handlers as [|h handlers IH]; intros st Hr; [done|].
  cbn [foldl].
  pose proof (nextRef_runClick target st h) as Hnext.
  destruct (IH (runClick target st h)) as [Hnext' Hfield];
    [unfold inUse in *; lia|].
  split; [done|]. by rewrite Hfield, field_runClick.
Qed.

Lemma field_bubbleClick (path : list Ref) (st : State) (r : Ref) :
  inUse (document st) r ->
  inUse (document (bubbleClick path st)) r /\
  f <$> heap (document (bubbleClick path st)) !! r =
  f <$> heap (document st) !! r.
Proof.
  revert st. induction path as [|current path IH]; intros st Hr; [done|].
  cbn [bubbleClick]. cbv zeta.
  destruct (field_click current st r Hr) as [Hnext Hfield].
  destruct (from_option _ _ _); [done|].
  destruct (IH (click current st) Hnext) as [Hnext' Hfield'].
  split; [done|]. by rewrite Hfield', Hfield.
Qed.

End Frame.

Section Alone.
Context `{Host}.

(** On a target whose ancestors carry no click listener, a click is what the
    listeners of the target do. *)
Lemma dispatchClick_alone (target : Ref) (st : State) :
  Forall (inUse (document st)) (parentChain (document st) target) ->
  Forall (unwired (document st)) (parentChain (document st) target) ->
  dispatchClick target st = click target st.
Proof.
  intros Hused Hquiet. apply dispatchClick_target.
  rewrite Forall_forall in Hused, Hquiet. apply Forall_forall.
  intros x Hx. apply (unwired_fields (document st)); [|by apply Hquiet].
  by destruct (field_click onClick ltac:(done) ltac:(done) ltac:(done)
                 ltac:(done) target st x (Hused x Hx)) as [_ Hfield].
Qed.

End Alone.

(** ** The control buttons *)

Lemma getElementById_addClickListenerById (s s' : string) (h : ClickHandler)
    (st : State) :
  getElementById s (document (addClickListenerById s' h st)) =
  getElementById s (document st).
Proof.
  destruct (addClickListenerById_document s' h st) as (_ & _ & Htree & Hfield).
  apply getElementById_fields; [done|]. intros r. by apply Hfield.
Qed.

Lemma onClick_addClickListenerById (s : string) (h : ClickHandler) (st : State)
    (r : Ref) (l : list ClickHandler) :
  onClick <$> heap (document st) !! r = Some l ->
  onClick <$> heap (document (addClickListenerById s h st)) !! r =
  Some (if decide (getElementById s (document st) = Some r) then l ++ [h] else l).
Proof.
  intros Hl. unfold addClickListenerById.
  destruct (getElementById s (document st)) as [b|].
  - destruct (decide (Some b = Some r)) as [[= ->]|Hne].
    + cbn. rewrite lookup_alter_eq.
      destruct (heap (document st) !! r); [|done]. cbn in *. congruence.
    + cbn. by rewrite lookup_alter_ne by congruence.
  - by destruct (decide (None = Some r)).
Qed.

Lemma getElementById_distinct (s s' : string) (d : Document) (r : Ref) :
  getElementById s d = Some r -> s <> s' -> getElementById s' d <> Some r.
Proof.
  intros (e & He & Hid & _)%getElementById_Some Hne
         (e' & He' & Hid' & _)%getElementById_Some.
  congruence.
Qed.

Section Controls.
Context `{Host}.

(** The listeners of a control button after the listener of
    DOMContentLoaded has run: the method wired to it and nothing else, on an
    element that carried no click listener when the manager had been
    constructed. *)
Lemma click_control_button (d : Document) (w : Browser) (c : Control)
    (r : Ref) :
  let st0 := new_RobustnessTestManager d w in
  let st := onDOMContentLoaded d w in
  getElementById (controlId c) (document st0) = Some r ->
  onClick <$> heap (document st0) !! r = Some [] ->
  click r st = controlMethod c st.
Proof.
  intros st0 st Hfound Hnone. subst st. unfold onDOMContentLoaded. fold st0.
  clearbody st0.
  set (st1 := addClickListenerById "export-results-btn" ExportClick st0).
  set (st2 := addClickListenerById "reset-tests-btn" ResetClick st1).
  set (st3 := addClickListenerById "run-stress-test-btn" RunStressClick st2).
  assert (forall s, getElementById s (document st1) = getElementById s (document st0))
    as Hsame1
    by (intros s; subst st1; by rewrite !getElementById_addClickListenerById).
  assert (forall s, getElementById s (document st2) = getElementById s (document st0))
    as Hsame2
    by (intros s; subst st2; by rewrite getElementById_addClickListenerById).
  pose proof (onClick_addClickListenerById
                "export-results-btn" ExportClick st0 r _ Hnone) as H1.
  fold st1 in H1.
  pose proof (onClick_addClickListenerById
                "reset-tests-btn" ResetClick st1 r _ H1) as H2.
  fold st2 in H2. rewrite Hsame1 in H2.
  pose proof (onClick_addClickListenerById
                "run-stress-test-btn" RunStressClick st2 r _ H2) as H3.
  fold st3 in H3. rewrite Hsame2 in H3.
  clearbody st3. clear H1 H2 Hsame1 Hsame2. clear st2 st1.
  unfold click.
  destruct (heap (document st3) !! r) as [e'|]; [|done].
  injection H3 as H3. rewrite H3. clear H3.
  pose proof (fun s' => getElementById_distinct _ s' _ _ Hfound) as Hother.
  destruct c; unfold controlId in Hfound, Hother;
    cbn [app foldl runClick controlMethod].
  - rewrite (decide_False (P := _ "run-stress-test-btn" _ = _))
      by (apply Hother; discriminate).
    rewrite (decide_False (P := _ "reset-tests-btn" _ = _))
      by (apply Hother; discriminate).
    rewrite decide_True by done. done.
  - rewrite (decide_False (P := _ "run-stress-test-btn" _ = _))
      by (apply Hother; discriminate).
    rewrite (decide_True (P := _ "reset-tests-btn" _ = _)) by done.
    rewrite decide_False by (apply Hother; discriminate). done.
  - rewrite (decide_True (P := _ "run-stress-test-btn" _ = _)) by done.
    rewrite (decide_False (P := _ "reset-tests-btn" _ = _))
      by (apply Hother; discriminate).
    rewrite decide_False by (apply Hother; discriminate). done.
Qed.

(** X15.  After the listener of DOMContentLoaded has run, a click on the
    element that has the id of one of the three control buttons runs the
    method wired to that button (export, reset, stress test) and nothing
    else, provided the element carried no click listener when the manager
    had been constructed and no ancestor of it carries one. *)
Theorem control_button_runs_method (d : Document) (w : Browser) (c : Control)
    (r : Ref) :
  let st0 := new_RobustnessTestManager d w in
  let st := onDOMContentLoaded d w in
  getElementById (controlId c) (document st0) = Some r ->
  onClick <$> heap (document st0) !! r = Some [] ->
  Forall (inUse (document st)) (parentChain (document st) r) ->
  Forall (unwired (document st)) (parentChain (document st) r) ->
  dispatchClick r st = controlMethod c st.
Proof.
  intros st0 st Hfound Hnone Hused Hquiet.
  rewrite dispatchClick_alone by done. by apply click_control_button.
Qed.

End Controls.

(** ** The keyboard *)

Lemma querySelector_role_fields (s : string) (d d' : Document) :
  tree d' = tree d ->
  (forall r, role <$> heap d' !! r = role <$> heap d !! r) ->
  querySelector (has_role s) d' = querySelector (has_role s) d.
Proof.
  intros Htree Hrole. unfold querySelector. rewrite Htree.
  apply find_ext. intros r _. apply matches_fmap.
  unfold has_role. specialize (Hrole r).
  destruct (heap d' !! r) as [e1|], (heap d !! r) as [e2|]; cbn in *; try done.
  injection Hrole as Hrole. by rewrite Hrole.
Qed.

Section Keyboard.
Context `{Host}.

(** The keydown listeners after loading: the one of the ARIA button, on the
    first element of the page with the button role, and those of the page. *)
Lemma onKeydown_loaded (d : Document) (w : Browser) (r : Ref) :
  onKeydown <$> heap (document (onDOMContentLoaded d w)) !! r =
  (fun keys => if decide (querySelector (has_role "button") d = Some r)
               then keys ++ [AriaKeydown] else keys) <$>
  (onKeydown <$> heap d !! r).
Proof.
  unfold onDOMContentLoaded.
  destruct (addClickListenerById_document "run-stress-test-btn" RunStressClick
              (addClickListenerById "reset-tests-btn" ResetClick
                 (addClickListenerById "export-results-btn" ExportClick
                    (new_RobustnessTestManager d w)))) as (_ & _ & _ & ->);
    [|done].
  destruct (addClickListenerById_document "reset-tests-btn" ResetClick
              (addClickListenerById "export-results-btn" ExportClick
                 (new_RobustnessTestManager d w))) as (_ & _ & _ & ->); [|done].
  destruct (addClickListenerById_document "export-results-btn" ExportClick
              (new_RobustnessTestManager d w)) as (_ & _ & _ & ->); [|done].
  rewrite new_manager_eq, field_updateMetricsDisplay by done.
  cbn [document with_startTime Date_now snd with_browser]. unfold afterSetup.
  set (st0 := mkState (mkManager 1 [] 0) d w).
  destruct (addClickListenerById_document "dynamic-id-btn" DynamicIdClick st0)
    as (_ & _ & Ht1 & Hf1).
  change (addClickListenerById "dynamic-id-btn" DynamicIdClick st0)
    with (setupDynamicIdButton st0) in Ht1, Hf1.
  set (st1 := setupDynamicIdButton st0) in *.
  destruct (forEach_listeners_document
              (querySelectorAll (has_id "unstable-list") (has_tag "LI")
                                (document st1))
              ListItemClick st1) as [Ht2 Hf2].
  fold (setupListInteractions st1) in Ht2, Hf2.
  set (st2 := setupListInteractions st1) in *.
  destruct (forEach_listeners_document
              (querySelectorAll (has_class "deeply-nested") (has_tag "SPAN")
                                (document (setupAriaButton st2)))
              NestedClick (setupAriaButton st2)) as [_ Hf4].
  fold (setupNestedElementTests (setupAriaButton st2)) in Hf4.
  rewrite Hf4 by done.
  assert (querySelector (has_role "button") (document st2) =
          querySelector (has_role "button") d) as Haria.
  { apply querySelector_role_fields; [by rewrite Ht2, Ht1|].
    intros x. by rewrite Hf2, Hf1. }
  assert (onKeydown <$> heap (document st2) !! r = onKeydown <$> heap d !! r)
    as Hkeys by (by rewrite Hf2, Hf1).
  rewrite <- Hkeys.
  unfold setupAriaButton. rewrite Haria.
  destruct (querySelector (has_role "button") d) as [a|]; cbn.
  - destruct (decide (Some a = Some r)) as [[= ->]|Hne].
    + rewrite !lookup_alter_eq. by destruct (heap (document st2) !! r).
    + rewrite !lookup_alter_ne by congruence.
      by destruct (heap (document st2) !! r).
  - destruct (decide (None = Some r)); [done|].
    by destruct (heap (document st2) !! r).
Qed.

Lemma bubbleKeydown_silent (path : list Ref) (key : string) (st : State) :
  Forall (fun x => keyListenersOf (document st) x = []) path ->
  bubbleKeydown path key st = st.
Proof.
  induction 1 as [|x path Hx _ IH]; [done|].
  cbn [bubbleKeydown]. unfold keyListenersOf in Hx.
  destruct (heap (document st) !! x) as [e|]; cbn in Hx; [|done].
  by rewrite Hx.
Qed.

(** Keys on a path on which one element at most carries a keydown listener,
    the one of the ARIA button. *)
Lemma bubbleKeydown_aria (path : list Ref) (key : string) (st : State)
    (ariaButton : Ref) :
  NoDup path ->
  Forall (inUse (document st)) path ->
  keyListenersOf (document st) ariaButton = [AriaKeydown] ->
  (forall x, x <> ariaButton -> keyListenersOf (document st) x = []) ->
  bubbleKeydown path key st =
  if decide (ariaButton ∈ path /\ (key = "Enter" \/ key = " "))
  then dispatchClick ariaButton st else st.
Proof.
  intros Hnodup Hused Haria Hothers.
  induction path as [|x path IH].
  - rewrite decide_False; [done|]. intros [Hin _]. by apply elem_of_nil in Hin.
  - apply NoDup_cons in Hnodup as [Hx Hnodup].
    apply Forall_cons in Hused as [_ Hused].
    cbn [bubbleKeydown].
    destruct (decide (x = ariaButton)) as [->|Hne].
    + unfold keyListenersOf in Haria.
      destruct (heap (document st) !! ariaButton) as [e|]; [|done].
      cbn in Haria. rewrite Haria. cbn [foldl ariaKeydownListener].
      assert (forall st', (forall y, inUse (document st) y ->
                 onKeydown <$> heap (document st') !! y =
                 onKeydown <$> heap (document st) !! y) ->
              bubbleKeydown path key st' = st') as Hrest.
      { intros st' Hsame. apply bubbleKeydown_silent.
        rewrite Forall_forall in Hused. apply Forall_forall. intros y Hy.
        unfold keyListenersOf. rewrite Hsame by (by apply Hused).
        apply Hothers. by intros ->. }
      destruct (decide (key = "Enter")) as [->|Henter];
        [|destruct (decide (key = " ")) as [->|Hspace]].
      * rewrite decide_True by (split; [by left | by left]). cbn.
        apply Hrest. intros y Hy.
        by destruct (field_bubbleClick onKeydown ltac:(done) ltac:(done)
                       ltac:(done) ltac:(done)
                       (ariaButton :: parentChain (document st) ariaButton)
                       st y Hy) as [_ Hfield].
      * rewrite decide_True by (split; [by left | by right]). cbn.
        apply Hrest. intros y Hy.
        by destruct (field_bubbleClick onKeydown ltac:(done) ltac:(done)
                       ltac:(done) ltac:(done)
                       (ariaButton :: parentChain (document st) ariaButton)
                       st y Hy) as [_ Hfield].
      * rewrite !bool_decide_eq_false_2 by done. cbn.
        rewrite decide_False by (intros [_ [?|?]]; congruence).
        by apply Hrest.
    + specialize (Hothers x Hne). unfold keyListenersOf in Hothers.
      assert (match heap (document st) !! x with
              | Some e => foldl (ariaKeydownListener x key) st (onKeydown e)
              | None => st
              end = st) as ->.
      { destruct (heap (document st) !! x) as [e|]; [|done].
        cbn in Hothers. by rewrite Hothers. }
      rewrite (IH Hnodup Hused).
      destruct (decide (ariaButton ∈ path /\ (key = "Enter" \/ key = " ")))
        as [[Hin Hkey]|Hno].
      * by rewrite decide_True by (split; [by right | done]).
      * rewrite decide_False; [done|]. intros [Hin Hkey]. apply Hno.
        split; [|done]. apply elem_of_cons in Hin as [->|Hin]; [done|done].
Qed.

Lemma querySelector_Some (sel : Element -> bool) (d : Document) (r : Ref) :
  querySelector sel d = Some r -> is_Some (heap d !! r).
Proof.
  unfold querySelector. intros [_ Hmatch]%find_Some_elem.
  unfold matches in Hmatch. by destruct (heap d !! r).
Qed.

(** X16.  On a page that has no keydown listener of its own, the keydown
    listeners of the script do one thing only: when Enter or Space is
    pressed on the first element with the button role or on an element
    inside it, that element is clicked.  Any other key, and any key on an
    element outside it, the second button-role element included, runs no
    listener that changes the state.  (What the browser does with a key by
    default is no part of this.) *)
Theorem keys_reach_aria_button_only (d : Document) (w : Browser) (r : Ref)
    (key : string) :
  map_Forall (fun _ e => onKeydown e = []) (heap d) ->
  let st := onDOMContentLoaded d w in
  let path := r :: parentChain (document st) r in
  attached (document st) r ->
  NoDup path ->
  Forall (inUse (document st)) path ->
  dispatchKeydown r key st =
  match querySelector (has_role "button") d with
  | Some ariaButton =>
      if decide (ariaButton ∈ path /\ (key = "Enter" \/ key = " "))
      then dispatchClick ariaButton st
      else st
  | None => st
  end.
Proof.
  intros Hpage st path _ Hnodup Hused. unfold dispatchKeydown. fold path.
  assert (forall x,
            keyListenersOf (document st) x =
            if decide (querySelector (has_role "button") d = Some x)
            then [AriaKeydown] else []) as Hkeys.
  { intros x. unfold keyListenersOf. subst st. rewrite onKeydown_loaded.
    destruct (decide (querySelector (has_role "button") d = Some x)) as [Ha|Ha].
    - destruct (querySelector_Some _ _ _ Ha) as [e He]. rewrite He. cbn.
      by rewrite (Hpage x e He).
    - destruct (heap d !! x) as [e|] eqn:He; [|done]. cbn.
      by rewrite (Hpage x e He). }
  clearbody st. clearbody path.
  destruct (querySelector (has_role "button") d) as [ariaButton|].
  - apply bubbleKeydown_aria; [done|done| |].
    + by rewrite Hkeys, decide_True.
    + intros x Hx. rewrite Hkeys, decide_False; [done|]. congruence.
  - apply bubbleKeydown_silent. apply Forall_forall. intros x _.
    by rewrite Hkeys, decide_False.
Qed.

End Keyboard.

(** ** The history of the dynamic id *)

Section History.
Context `{Host}.

Lemma dynamicIdClick_log (b : Ref) (e : Element) (st : State) :
  heap (document st) !! b = Some e ->
  testResults (this (dynamicIdClick b st)) =
  logged DynamicIdChange
    [("oldId", VStr (id_ e));
     ("newId", VStr ("dynamic-btn-" +:+ pretty (dynamicIdCounter (this st))));
     ("timestamp", VNum (clock (browser st) (ticks (browser st))))]
    (testResults (this st)).
Proof.
  intros He. unfold dynamicIdClick. rewrite He. cbn.
  by rewrite this_logEvent.
Qed.

Lemma clicks_idAfter (b : Ref) (st : State) (original : string) (N : nat) :
  dynamicIdCounter (this st) = 1 ->
  onClick <$> heap (document st) !! b = Some [DynamicIdClick] ->
  id_ <$> heap (document st) !! b = Some original ->
  id_ <$> heap (document (Nat.iter N (click b) st)) !! b =
  Some (idAfter original N).
Proof.
  intros Hone Hwired Hid. destruct N as [|N]; [done|].
  rewrite clicks_id, Hone by done. cbn [idAfter].
  by replace (1 + Z.of_nat N) with (Z.of_nat (S N)) by lia.
Qed.

(** X17.  From a state with counter 1 (a fresh or freshly reset manager),
    N clicks on the dynamic ID button append N dynamic-id-change records
    that chain: the oldId of the first is the id the button had, the newId
    of the k-th is dynamic-btn-k, and the oldId of each later record is the
    newId of the record before it. *)
Theorem dynamic_id_history (st : State) (b : Ref) (original : string) (N : nat) :
  dynamicIdCounter (this st) = 1 ->
  onClick <$> heap (document st) !! b = Some [DynamicIdClick] ->
  id_ <$> heap (document st) !! b = Some original ->
  let st' := Nat.iter N (click b) st in
  idChange <$> eventsOf DynamicIdChange (testResults (this st')) =
  (idChange <$> eventsOf DynamicIdChange (testResults (this st))) ++
  ((fun k => (Some (VStr (idAfter original k)),
              Some (VStr (idAfter original (S k))))) <$> seq 0 N).
Proof.
  intros Hone Hwired Hid st'. subst st'.
  induction N as [|N IH]; [by rewrite app_nil_r|].
  pose proof (clicks_keep_listener b st N Hwired) as Hl.
  pose proof (clicks_counter b st N Hwired) as Hc.
  pose proof (clicks_idAfter b st original N Hone Hwired Hid) as Hi.
  rewrite Nat.iter_succ, click_dynamic_button by done.
  destruct (heap (document (Nat.iter N (click b) st)) !! b) as [e|] eqn:He;
    [|done].
  rewrite (dynamicIdClick_log b e) by done.
  rewrite eventsOf_logged, decide_True by done.
  rewrite fmap_app, IH, seq_S, fmap_app, <- app_assoc. do 2 f_equal.
  cbn in Hi. injection Hi as ->. rewrite Hc, Hone.
  replace (1 + Z.of_nat N) with (Z.of_nat (S N)) by lia.
  done.
Qed.

End History.

(** ** The exported file after logging *)

Lemma downloads_logEvents (calls : list (EventType * Event)) (st : State) :
  downloads (browser (logEvents calls st)) = downloads (browser st) /\
  startTime (this (logEvents calls st)) = startTime (this st).
Proof.
  induction calls as [|[k data] calls IH] using rev_ind; [done|].
  rewrite logEvents_snoc, this_logEvent. cbn [startTime fst snd].
  split; [|apply IH].
  unfold logEvent. cbn.
  set (st1 := with_testResults _ _).
  destruct (browser_updateMetricsDisplay st1) as (_ & _ & _ & ->).
  apply IH.
Qed.

Section ExportAfterLogging.
Context `{Host}.

Lemma downloads_exportTestResults (st : State) :
  downloads (browser (exportTestResults st)) =
  downloads (browser st) ++
  [mkDownload
     ("webfast-robustness-test-" +:+
      pretty (clock (browser st) (S (S (ticks (browser st))))) +:+ ".json")
     (JSON_stringify
        (exportObject (this st)
           (clock (browser st) (ticks (browser st)))
           (clock (browser st) (S (ticks (browser st)))))
        2)].
Proof.
  unfold exportTestResults, followDownloadLink.
  cbn -[String.append exportObject].
  rewrite !lookup_alter_eq, lookup_insert_eq. cbn -[String.append exportObject].
  by rewrite lookup_insert_eq.
Qed.

(** X18.  After any sequence of [logEvent] calls on a freshly constructed
    manager, the file that export offers holds the records grouped by type
    (types in the order of first use, records in call order), the number of
    calls as totalEvents, and as testDuration the time between the clock
    reading of the constructor and the one taken by the export. *)
Theorem export_after_logging (d : Document) (w : Browser)
    (calls : list (EventType * Event)) :
  let st := logEvents calls (new_RobustnessTestManager d w) in
  let t1 := clock (browser st) (ticks (browser st)) in
  let t2 := clock (browser st) (S (ticks (browser st))) in
  let t3 := clock (browser st) (S (S (ticks (browser st)))) in
  downloads (browser (exportTestResults st)) =
  downloads w ++
  [mkDownload
     ("webfast-robustness-test-" +:+ pretty t3 +:+ ".json")
     (JSON_stringify
        (VObj [("testResults",
                VObj (map (fun k =>
                             (eventName k, VArr (map VObj (recordsOf k calls))))
                          (firstSeen calls.*1)));
               ("testDuration", VNum (t1 - clock w (ticks w)));
               ("timestamp", VStr (toISOString t2));
               ("totalEvents", VNum (Z.of_nat (length calls)))])
        2)].
Proof.
  cbv zeta.
  destruct (new_manager_fields d w) as [_ Hempty].
  pose proof (logEvents_groups calls _ Hempty) as Hlog.
  destruct (downloads_logEvents calls (new_RobustnessTestManager d w))
    as [Hdownloads Hstart].
  destruct (logEvents_log calls (new_RobustnessTestManager d w)) as (Hsum & _).
  { rewrite Hempty. constructor. }
  rewrite Hempty in Hsum.
  change (sumOfLengths []) with 0%nat in Hsum. rewrite Nat.add_0_l in Hsum.
  assert (downloads (browser (new_RobustnessTestManager d w)) = downloads w /\
          startTime (this (new_RobustnessTestManager d w)) = clock w (ticks w))
    as [Hw Hs].
  { rewrite new_manager_eq, this_updateMetricsDisplay.
    set (st0 := with_startTime _ _).
    destruct (browser_updateMetricsDisplay st0) as (_ & _ & _ & ->).
    subst st0. cbn. by destruct (afterSetup_document d w) as (_ & -> & _). }
  rewrite Hw in Hdownloads. rewrite Hs in Hstart. clear Hw Hs Hempty.
  set (st := logEvents calls (new_RobustnessTestManager d w)) in *.
  clearbody st.
  rewrite downloads_exportTestResults. unfold exportObject.
  rewrite totalEvents_sum, Hsum, Hdownloads, Hstart, Hlog.
  unfold logValue. by rewrite map_map.
Qed.

End ExportAfterLogging.

(** ** Invariants of the manager *)

Lemma this_runTimeout (callback : Timeout) (st : State) :
  this (runTimeout callback st) = this st.
Proof.
  destruct callback as [element|ariaButton|ripple]; cbn; [done|done|].
  by destruct (parentNode ripple (document st)).
Qed.

Lemma this_fireTimer (n : nat) (st : State) :
  this (fireTimer n st) = this st.
Proof.
  unfold fireTimer. destruct (timers (browser st) !! n) as [[callback delay]|];
    [|done].
  by rewrite this_runTimeout.
Qed.

Lemma push_new_key (k : EventType) (data : Event) (events : list Event)
    (l : EventLog) :
  k ∉ Object_keys l ->
  push k data (l ++ [(k, events)]) = l ++ [(k, events ++ [data])].
Proof.
  unfold Object_keys. induction l as [|[k' events'] l IH]; intros Hnot; cbn.
  - by rewrite decide_True.
  - cbn in Hnot. apply not_elem_of_cons in Hnot as [Hne Hnot].
    rewrite decide_False by done. by rewrite IH.
Qed.

Lemma push_nonempty (k : EventType) (data : Event) (l : EventLog) :
  Forall (fun kv => kv.2 <> []) l ->
  Forall (fun kv => kv.2 <> []) (push k data l).
Proof.
  induction 1 as [|[k' events] l Hevents Hrest IH]; cbn; [done|].
  destruct (decide (k' = k)); constructor; [|done|done|done].
  cbn. by destruct events.
Qed.

Lemma logged_nonempty (k : EventType) (data : Event) (l : EventLog) :
  Forall (fun kv => kv.2 <> []) l ->
  Forall (fun kv => kv.2 <> []) (logged k data l).
Proof.
  intros Hl. unfold logged, has_key. case_bool_decide as Hkey.
  - by apply push_nonempty.
  - rewrite push_new_key by done. apply Forall_app. split; [done|].
    by constructor.
Qed.

(** A property of the manager that every listener of the script keeps holds
    in every state a loaded page can reach. *)
Section Invariant.
Context `{Host}.
Variable P : Manager -> Prop.
Hypothesis P_reset : forall s, P (mkManager 1 [] s).
Hypothesis P_logged :
  forall m k data,
    k <> DynamicIdChange -> P m ->
    P (mkManager (dynamicIdCounter m) (logged k data (testResults m))
                 (startTime m)).
Hypothesis P_renamed :
  forall m data,
    P m ->
    P (mkManager (dynamicIdCounter m + 1)
                 (logged DynamicIdChange data (testResults m)) (startTime m)).

Lemma invariant_logEvent (k : EventType) (data : Event) (st : State) :
  k <> DynamicIdChange -> P (this st) -> P (this (logEvent k data st)).
Proof.
  intros Hk Hst. rewrite this_logEvent. by apply (P_logged (this st)).
Qed.

Lemma invariant_runClick (target : Ref) (st : State) (h : ClickHandler) :
  P (this st) -> P (this (runClick target st h)).
Proof.
  intros Hst. destruct h as [| |index|index|i j| | |]; cbn [runClick].
  - unfold dynamicIdClick.
    destruct (heap (document st) !! target) as [e|]; [|done]. cbn.
    rewrite this_logEvent. by apply (P_renamed (this st)).
  - unfold ariaClick.
    destruct (heap (document st) !! target) as [e|]; [|done]. cbn.
    by apply invariant_logEvent.
  - unfold nestedClick.
    destruct (heap (document st) !! target) as [e|]; [|done]. cbn.
    by apply invariant_logEvent.
  - unfold listItemClick.
    destruct (heap (document st) !! target) as [e|]; [|done]. cbn.
    by apply invariant_logEvent.
  - unfold stressClick. cbn. by apply invariant_logEvent.
  - by rewrite this_exportTestResults.
  - rewrite resetTests_this. apply P_reset.
  - unfold performStressTest.
    destruct (getElementById _ _) as [container|]; [|done]. cbn.
    by apply invariant_logEvent.
Qed.

Lemma invariant_click (target : Ref) (st : State) :
  P (this st) -> P (this (click target st)).
Proof.
  unfold click. destruct (heap (document st) !! target) as [e|]; [|done].
  generalize (onClick e). intros handlers. revert st.
  induction handlers as [|h handlers IH]; intros st Hst; [done|].
  cbn. by apply IH, invariant_runClick.
Qed.

Lemma invariant_keydown (target : Ref) (key : string) (st : State) :
  P (this st) -> P (this (keydown target key st)).
Proof.
  unfold keydown. destruct (heap (document st) !! target) as [e|]; [|done].
  generalize (onKeydown e). intros handlers. revert st.
  induction handlers as [|[] handlers IH]; intros st Hst; [done|].
  cbn. apply IH. unfold ariaKeydown.
  destruct (_ || _); [by apply invariant_click | done].
Qed.

Lemma invariant_reachable (d : Document) (w : Browser) (actions : list Action) :
  P (this (interact actions (onDOMContentLoaded d w))).
Proof.
  assert (P (this (onDOMContentLoaded d w))) as Hloaded
    by (rewrite loaded_manager; apply P_reset).
  generalize dependent (onDOMContentLoaded d w). intros st.
  unfold interact. revert st.
  induction actions as [|a actions IH]; intros st Hst; [done|].
  cbn [foldl]. apply IH. destruct a as [target|target key|n]; cbn [act].
  - by apply invariant_click.
  - by apply invariant_keydown.
  - by rewrite this_fireTimer.
Qed.

End Invariant.

Section Reachable.
Context `{Host}.

(** X19.  In every state that a loaded page reaches by clicks on any of its
    elements, keys pressed on any of them and expiries of pending timers, in
    any order, the counter of the manager is one more than the number of
    dynamic-id-change records in the log; in particular it is never below
    1. *)
Theorem counter_counts_id_changes (d : Document) (w : Browser)
    (actions : list Action) :
  let st := interact actions (onDOMContentLoaded d w) in
  counterCountsChanges (this st) /\ 1 <= dynamicIdCounter (this st).
Proof.
  cbv zeta.
  assert (counterCountsChanges (this (interact actions (onDOMContentLoaded d w))))
    as Hinv.
  { apply invariant_reachable; unfold counterCountsChanges.
    - done.
    - intros m k data Hk Hm. cbn [dynamicIdCounter testResults].
      by rewrite eventsOf_logged, decide_False by done.
    - intros m data Hm. cbn [dynamicIdCounter testResults].
      rewrite eventsOf_logged, decide_True, length_app by done. cbn [length].
      lia. }
  split; [done|]. unfold counterCountsChanges in Hinv. lia.
Qed.

(** X25.  In every such state the log has no empty array and no key twice:
    a key comes into being with its first record, so the number of keys,
    which the panel shows as event types, is the number of types that have
    occurred since the log was last emptied. *)
Theorem log_has_no_empty_array (d : Document) (w : Browser)
    (actions : list Action) :
  let log := testResults (this (interact actions (onDOMContentLoaded d w))) in
  Forall (fun kv => kv.2 <> []) log /\ NoDup (Object_keys log).
Proof.
  cbv zeta.
  apply (invariant_reachable
           (fun m => Forall (fun kv => kv.2 <> []) (testResults m) /\
                     NoDup (Object_keys (testResults m)))).
  - split; constructor.
  - intros m k data _ [Hnonempty Hnodup]. cbn [testResults].
    split; [by apply logged_nonempty | by apply logged_NoDup].
  - intros m data [Hnonempty Hnodup]. cbn [testResults].
    split; [by apply logged_nonempty | by apply logged_NoDup].
Qed.

End Reachable.

(** ** What the stress test creates *)

(** X20.  A run of the stress test on a page with the container creates 35
    elements: the 5 sections, 15 subsections and 15 buttons that become the
    content of the container are the next 35 identities, in document order,
    while the record it appends gives elementsCreated as 15, the number of
    buttons. *)
Theorem stress_test_creates_35_elements (st : State) (container : Ref) :
  getElementById "stress-test-container" (document st) = Some container ->
  let n := nextRef (document st) in
  let st' := performStressTest st in
  tree (buildStressStructure container (document st)) =
  updateKids container (fun _ => stressTree n) (tree (document st)) /\
  nextRef (document st') = (35 + n)%nat /\
  flat_map preorder (stressTree n) = (fun k => (k + n)%nat) <$> seq 0 35 /\
  length (flat_map leaves (stressTree n)) = 15%nat /\
  field "elementsCreated"
    <$> last (eventsOf StressTestPerformed (testResults (this st'))) =
  Some (Some (VNum 15)).
Proof.
  intros Hcontainer n st'. subst st' n.
  split; [apply tree_buildStressStructure|].
  unfold performStressTest. rewrite Hcontainer.
  cbn -[buildStressStructure logEvent].
  rewrite nextRef_logEvent, testResults_logEvent, eventsOf_logged.
  rewrite decide_True, last_snoc by done.
  cbn -[buildStressStructure]. by rewrite buildStressStructure_eq.
Qed.

(** ** What reset leaves alone *)

(** X21.  Reset assigns to the panel and to the dynamic button only: an
    element object whose id is neither the one of the panel, nor
    dynamic-id-btn, nor of the form dynamic-btn-..., has after the reset the
    fields it had before, and reset cancels no pending timer. *)
Theorem reset_leaves_other_elements (st : State) (r : Ref) (e : Element) :
  heap (document st) !! r = Some e ->
  id_ e <> "test-metrics" ->
  id_ e <> "dynamic-id-btn" ->
  String.prefix "dynamic-btn-" (id_ e) = false ->
  heap (document (resetTests st)) !! r = Some e /\
  timers (browser (resetTests st)) = timers (browser st).
Proof.
  intros He Hpanel Horiginal Hassigned.
  rewrite resetTests_eq. cbv zeta.
  set (st0 := with_startTime _ _).
  assert (heap (document (updateMetricsDisplay st0)) !! r = Some e) as Hr.
  { rewrite heap_updateMetricsDisplay_other; [done|].
    subst st0. cbn. rewrite He. cbn. congruence. }
  destruct (browser_updateMetricsDisplay st0) as (Htimers & _).
  destruct (findDynamicButton (document (updateMetricsDisplay st0)))
    as [b|] eqn:Hb; cbn; rewrite Htimers; [|done].
  split; [|done].
  rewrite !lookup_alter_ne; [done| |];
    intros ->; apply findDynamicButton_id in Hb as (s & Hs & Hform);
    rewrite Hr in Hs; injection Hs as <-;
    destruct Hform; congruence.
Qed.

(** ** Which element reset relabels *)

Lemma findDynamicButton_fields (d d' : Document) :
  tree d' = tree d ->
  (forall r, id_ <$> heap d' !! r = id_ <$> heap d !! r) ->
  findDynamicButton d' = findDynamicButton d.
Proof.
  intros Htree Hid. unfold findDynamicButton.
  rewrite (getElementById_fields _ d d') by done.
  destruct (getElementById "dynamic-id-btn" d); [done|].
  unfold querySelector. rewrite Htree.
  apply find_ext. intros r _. apply matches_fmap.
  unfold has_id_prefix. specialize (Hid r).
  destruct (heap d' !! r) as [e1|], (heap d !! r) as [e2|]; cbn in *; try done.
  injection Hid as Hid. by rewrite Hid.
Qed.

(** X22.  Reset gives the id dynamic-id-btn and the original label to one
    element: the first element in document order, of the page with the panel
    emptied, whose id is dynamic-id-btn or else the first whose id starts
    with dynamic-btn-, whether or not that is the element the click listener
    is on.  The id of every other element is as before, and when no element
    matches, no id changes.  Besides the panel, that element is the only
    one to lose its children. *)
Theorem reset_relabels_first_match (st : State) :
  let d := document st in
  let found := findDynamicButton (with_tree (renderTree d) d) in
  let st' := resetTests st in
  (forall b,
     found = Some b ->
     id_ <$> heap (document st') !! b = Some "dynamic-id-btn" /\
     innerHTML <$> heap (document st') !! b = Some "🔄 Dynamic ID Button") /\
  (forall r,
     found <> Some r ->
     id_ <$> heap (document st') !! r = id_ <$> heap d !! r) /\
  tree (document st') =
  match found with
  | Some b => updateKids b (fun _ => []) (renderTree d)
  | None => renderTree d
  end.
Proof.
  cbv zeta. rewrite resetTests_eq. cbv zeta.
  set (st0 := with_startTime _ _).
  assert (findDynamicButton (document (updateMetricsDisplay st0)) =
          findDynamicButton
            (with_tree (renderTree (document st)) (document st))) as Hfound.
  { apply findDynamicButton_fields.
    - by rewrite tree_updateMetricsDisplay.
    - intros r. by rewrite field_updateMetricsDisplay. }
  rewrite <- Hfound.
  pose proof (fun r => field_updateMetricsDisplay id_ st0 r keeps_id) as Hids.
  change (document st0) with (document st) in Hids.
  pose proof (tree_updateMetricsDisplay st0) as Htree.
  change (document st0) with (document st) in Htree.
  destruct (findDynamicButton (document (updateMetricsDisplay st0)))
    as [b0|] eqn:Hb0; cbn; (split; [|split]).
  - intros b [= <-]. rewrite !lookup_alter_eq.
    apply findDynamicButton_id in Hb0 as (s & Hs & _).
    by destruct (heap (document (updateMetricsDisplay st0)) !! b0).
  - intros r Hr. by rewrite !lookup_alter_ne by congruence.
  - by rewrite Htree.
  - done.
  - intros r _. apply Hids.
  - done.
Qed.

(** ** The log only grows *)

Lemma eventsOf_logged_prefix (k k' : EventType) (data : Event) (l : EventLog) :
  eventsOf k' l `prefix_of` eventsOf k' (logged k data l).
Proof.
  rewrite eventsOf_logged. destruct (decide (k' = k)); [|done].
  by apply prefix_app_r.
Qed.

Section Growth.
Context `{Host}.

Lemma runClick_prefix (target : Ref) (st : State) (h : ClickHandler)
    (k : EventType) :
  h <> ResetClick ->
  eventsOf k (testResults (this st)) `prefix_of`
  eventsOf k (testResults (this (runClick target st h))).
Proof.
  intros Hh. destruct h as [| |index|index|i j| | |]; cbn [runClick].
  - unfold dynamicIdClick.
    destruct (heap (document st) !! target) as [e|]; [|done]. cbn.
    rewrite testResults_logEvent. apply eventsOf_logged_prefix.
  - unfold ariaClick.
    destruct (heap (document st) !! target) as [e|]; [|done]. cbn.
    rewrite testResults_logEvent. apply eventsOf_logged_prefix.
  - unfold nestedClick.
    destruct (heap (document st) !! target) as [e|]; [|done]. cbn.
    rewrite testResults_logEvent. apply eventsOf_logged_prefix.
  - unfold listItemClick.
    destruct (heap (document st) !! target) as [e|]; [|done]. cbn.
    rewrite testResults_logEvent. apply eventsOf_logged_prefix.
  - unfold stressClick. cbn.
    rewrite testResults_logEvent. apply eventsOf_logged_prefix.
  - by rewrite this_exportTestResults.
  - done.
  - unfold performStressTest.
    destruct (getElementById _ _) as [container|]; [|done]. cbn.
    rewrite testResults_logEvent. apply eventsOf_logged_prefix.
Qed.

Lemma click_prefix (target : Ref) (st : State) (k : EventType) :
  resetFree (document st) target ->
  eventsOf k (testResults (this st)) `prefix_of`
  eventsOf k (testResults (this (click target st))).
Proof.
  unfold resetFree, listenersOf, click.
  destruct (heap (document st) !! target) as [e|]; [|done]. cbn.
  generalize (onClick e). intros handlers. revert st.
  induction handlers as [|h handlers IH]; intros st Hnone; [done|].
  apply not_elem_of_cons in Hnone as [Hh Hnone]. cbn [foldl].
  etrans; [apply (runClick_prefix target st h k); congruence|].
  by apply IH.
Qed.

Lemma bubbleClick_prefix (path : list Ref) (st : State) (k : EventType) :
  Forall (inUse (document st)) path ->
  Forall (resetFree (document st)) path ->
  eventsOf k (testResults (this st)) `prefix_of`
  eventsOf k (testResults (this (bubbleClick path st))).
Proof.
  revert st. induction path as [|x path IH]; intros st Hused Hfree; [done|].
  apply Forall_cons in Hused as [_ Hused].
  apply Forall_cons in Hfree as [Hx Hfree].
  cbn [bubbleClick]. cbv zeta.
  pose proof (click_prefix x st k Hx) as Hstep.
  destruct (from_option _ _ _); [done|].
  etrans; [exact Hstep|]. apply IH.
  - eapply Forall_impl; [exact Hused|]. intros y Hy.
    by destruct (field_click onClick ltac:(done) ltac:(done) ltac:(done)
                   ltac:(done) x st y Hy) as [Hy' _].
  - rewrite Forall_forall in Hused, Hfree. apply Forall_forall. intros y Hy.
    unfold resetFree, listenersOf.
    destruct (field_click onClick ltac:(done) ltac:(done) ltac:(done)
                ltac:(done) x st y (Hused y Hy)) as [_ ->].
    by apply Hfree.
Qed.

(** X24.  A click on an attached element never removes or alters a
    recorded event when neither the element nor an ancestor of it carries a
    reset listener: for every event type, the records stored under it
    before the click are an initial part of those stored under it after the
    click, whatever listeners the click runs on its way. *)
Theorem log_only_grows (st : State) (target : Ref) (k : EventType) :
  attached (document st) target ->
  Forall (inUse (document st)) (target :: parentChain (document st) target) ->
  Forall (resetFree (document st)) (target :: parentChain (document st) target) ->
  eventsOf k (testResults (this st)) `prefix_of`
  eventsOf k (testResults (this (dispatchClick target st))).
Proof.
  intros _ Hused Hfree. by apply bubbleClick_prefix.
Qed.

End Growth.

(** ** Propagation as a sequence of interactions *)

Section Stages.
Context `{Host}.

Lemma interact_app (actions actions' : list Action) (st : State) :
  interact (actions ++ actions') st = interact actions' (interact actions st).
Proof. unfold interact. by rewrite foldl_app. Qed.

(** A click that propagates is the sequence of the clicks at the elements
    of its path, up to the element where it stops. *)
Lemma bubbleClick_interact (path : list Ref) (st : State) :
  exists stages,
    stages `prefix_of` path /\
    bubbleClick path st = interact (Click <$> stages) st.
Proof.
  revert st. induction path as [|x path IH]; intros st.
  - by exists [].
  - cbn [bubbleClick]. cbv zeta. destruct (from_option _ _ _).
    + exists [x]. split; [by apply prefix_cons, prefix_nil|done].
    + destruct (IH (click x st)) as (stages & Hpre & ->).
      exists (x :: stages). split; [by apply prefix_cons|done].
Qed.

(** A key that propagates is a sequence of clicks. *)
Lemma bubbleKeydown_interact (path : list Ref) (key : string) (st : State) :
  exists stages, bubbleKeydown path key st = interact (Click <$> stages) st.
Proof.
  revert st. induction path as [|x path IH]; intros st.
  - by exists [].
  - cbn [bubbleKeydown].
    assert (exists stages,
              match heap (document st) !! x with
              | Some e => foldl (ariaKeydownListener x key) st (onKeydown e)
              | None => st
              end = interact (Click <$> stages) st) as (stages & ->).
    { destruct (heap (document st) !! x) as [e|]; [|by exists []].
      generalize (onKeydown e). intros handlers. revert st.
      induction handlers as [|[] handlers IHh]; intros st; [by exists []|].
      cbn [foldl ariaKeydownListener].
      destruct (bool_decide (key = "Enter") || bool_decide (key = " ")).
      - destruct (bubbleClick_interact
                    (x :: parentChain (document st) x) st)
          as (stages & _ & Hstages).
        unfold dispatchClick. rewrite Hstages.
        destruct (IHh (interact (Click <$> stages) st)) as (stages' & ->).
        exists (stages ++ stages'). by rewrite fmap_app, interact_app.
      - apply IHh. }
    destruct (IH (interact (Click <$> stages) st)) as (stages' & ->).
    exists (stages ++ stages'). by rewrite fmap_app, interact_app.
Qed.

End Stages.

(** ** The properties above on the sample page *)

Example log_groups_by_type_sample :
  testResults (this (logEvents sampleCalls
                       (new_RobustnessTestManager sampleDocument sampleBrowser))) =
  map (fun k => (k, recordsOf k sampleCalls)) [StressTestClick; AriaButtonClick].
Proof. by vm_compute. Qed.

Lemma list_item_click_witness :
  let st' := dispatchClick sampleItem sampleLoaded in
  testResults (this st') =
  logged UnstableListClick
    [("itemIndex", VNum 1);
     ("itemText", VStr (trim (textContent sampleItemWired)));
     ("timestamp",
      VNum (clock (browser sampleLoaded) (ticks (browser sampleLoaded))))]
    (testResults (this sampleLoaded)) /\
  heap (document st') !! sampleItem =
  Some (set_backgroundColor "#fff3cd" sampleItemWired) /\
  timers (browser st') =
  timers (browser sampleLoaded) ++ [(ClearBackground sampleItem, 1000)] /\
  heap (document (runTimeout (ClearBackground sampleItem) st')) !! sampleItem =
  Some (set_backgroundColor "" sampleItemWired).
Proof.
  apply (list_item_click sampleLoaded sampleItem sampleItemWired 1).
  - by vm_compute.
  - by vm_compute.
  - by vm_compute.
  - apply (bool_decide_unpack _). by vm_compute.
  - apply (bool_decide_unpack _). by vm_compute.
Defined.

Lemma dynamic_click_feedback_witness :
  let newId := "dynamic-btn-" +:+ pretty (dynamicIdCounter (this sampleLoaded)) in
  let label := "🔄 Dynamic ID Button (ID: " +:+ newId +:+ ")" in
  let st' := click sampleButton sampleLoaded in
  let st'' := runTimeout (ClearBackground sampleButton) st' in
  testResults (this st') =
  logged DynamicIdChange
    [("oldId", VStr (id_ sampleButtonWired)); ("newId", VStr newId);
     ("timestamp",
      VNum (clock (browser sampleLoaded) (ticks (browser sampleLoaded))))]
    (testResults (this sampleLoaded)) /\
  id_ <$> heap (document st') !! sampleButton = Some newId /\
  innerHTML <$> heap (document st') !! sampleButton = Some label /\
  backgroundColor <$> heap (document st') !! sampleButton = Some "#27ae60" /\
  timers (browser st') =
  timers (browser sampleLoaded) ++ [(ClearBackground sampleButton, 500)] /\
  id_ <$> heap (document st'') !! sampleButton = Some newId /\
  innerHTML <$> heap (document st'') !! sampleButton = Some label /\
  backgroundColor <$> heap (document st'') !! sampleButton = Some "".
Proof.
  apply (dynamic_click_feedback sampleLoaded sampleButton sampleButtonWired);
    by vm_compute.
Defined.

Lemma aria_click_text_witness :
  let st' := click sampleAria sampleLoaded in
  let st'' := runTimeout (RestoreAriaText sampleAria) st' in
  heap (document st') !! sampleAria =
  Some (set_content "✅ ARIA Button Clicked!" "✅ ARIA Button Clicked!"
                    sampleAriaWired) /\
  timers (browser st') =
  timers (browser sampleLoaded) ++ [(RestoreAriaText sampleAria, 2000)] /\
  heap (document st'') !! sampleAria =
  Some (set_content "🎯 ARIA Role Button" "🎯 ARIA Role Button" sampleAriaWired).
Proof.
  apply (aria_click_text sampleLoaded sampleAria sampleAriaWired);
    by vm_compute.
Defined.

Lemma ripple_is_removed_witness :
  let ripple := nextRef (document sampleLoaded) in
  let st' := createRippleEffect sampleNested sampleLoaded in
  let st'' := runTimeout (RemoveRipple ripple) st' in
  tree (document st') =
  updateKids sampleNested (fun kids => kids ++ [Node ripple []])
             (tree (document sampleLoaded)) /\
  heap (document st') !! ripple =
  Some (set_className "ripple-effect" (blank "SPAN")) /\
  heap (document st') !! sampleNested =
  Some (set_position "relative" sampleNestedWired) /\
  timers (browser st') =
  timers (browser sampleLoaded) ++ [(RemoveRipple ripple, 600)] /\
  tree (document st'') = tree (document sampleLoaded) /\
  heap (document st'') !! sampleNested =
  Some (set_position "relative" sampleNestedWired).
Proof.
  apply (ripple_is_removed sampleLoaded sampleNested sampleNestedWired).
  - by vm_compute.
  - split; [by vm_compute|]. apply (bool_decide_unpack _). by vm_compute.
Defined.

Lemma path_length_is_level_plus_one_witness :
  generateCssPath sampleNested sampleDocument =
  String.concat " > " (pathSegments sampleNested sampleDocument) /\
  Z.of_nat (length (pathSegments sampleNested sampleDocument)) =
  calculateNestingLevel sampleNested sampleDocument + 1 /\
  pathSegments (body sampleDocument) sampleDocument = [].
Proof.
  apply (path_length_is_level_plus_one sampleDocument sampleNested).
  by vm_compute.
Defined.

Lemma path_extends_parent_witness :
  pathSegments sampleNested sampleDocument =
  pathSegments sampleLevel sampleDocument ++
  [selectorOf (elementAt sampleDocument sampleNested)] /\
  calculateNestingLevel sampleNested sampleDocument =
  if decide (sampleLevel = body sampleDocument) then 0
  else calculateNestingLevel sampleLevel sampleDocument + 1.
Proof.
  apply (path_extends_parent sampleDocument sampleNested sampleLevel).
  - apply (bool_decide_unpack _). by vm_compute.
  - by vm_compute.
  - by vm_compute.
Defined.

Example path_extends_parent_sample :
  pathSegments sampleLevel sampleDocument =
  ["div#app"; "div.deeply-nested"; "div.level-1.deep"] /\
  pathSegments sampleNested sampleDocument =
  ["div#app"; "div.deeply-nested"; "div.level-1.deep"; "span.leaf.tip"] /\
  calculateNestingLevel sampleLevel sampleDocument = 2 /\
  calculateNestingLevel sampleNested sampleDocument = 3.
Proof. by vm_compute. Qed.

Lemma level_and_path_outside_body_witness :
  calculateNestingLevel sampleHead sampleDocument =
  Z.of_nat (length (parentChain sampleDocument sampleHead)) /\
  generateCssPath sampleHead sampleDocument =
  if decide (sampleHead = body sampleDocument) then ""
  else String.concat " > "
         (map (fun r => selectorOf (elementAt sampleDocument r))
              (rev (parentChain sampleDocument sampleHead) ++ [sampleHead])).
Proof.
  apply (level_and_path_outside_body sampleDocument sampleHead).
  apply (bool_decide_unpack _). by vm_compute.
Defined.

Example level_and_path_outside_body_sample :
  calculateNestingLevel sampleHead sampleDocument = 1 /\
  generateCssPath sampleHead sampleDocument = "html > head" /\
  calculateNestingLevel (body sampleDocument) sampleDocument = 1 /\
  generateCssPath (body sampleDocument) sampleDocument = "".
Proof. by vm_compute. Qed.

Lemma list_items_get_their_index_witness :
  let listItems :=
    querySelectorAll (has_id "unstable-list") (has_tag "LI")
                     (document samplePage) in
  sublist listItems (preorder (tree (document samplePage))) /\
  heap (document (setupListInteractions samplePage)) !! sampleItem =
  add_onClick (ListItemClick (Z.of_nat 1))
    <$> heap (document samplePage) !! sampleItem /\
  forall r,
    r ∉ listItems ->
    heap (document (setupListInteractions samplePage)) !! r =
    heap (document samplePage) !! r.
Proof.
  apply (list_items_get_their_index samplePage 1 sampleItem).
  - apply (bool_decide_unpack _). by vm_compute.
  - by vm_compute.
Defined.

Lemma nested_spans_get_their_index_witness :
  let nestedElements :=
    querySelectorAll (has_class "deeply-nested") (has_tag "SPAN")
                     (document samplePage) in
  sublist nestedElements (preorder (tree (document samplePage))) /\
  heap (document (setupNestedElementTests samplePage)) !! sampleNested =
  add_onClick (NestedClick (Z.of_nat 1))
    <$> heap (document samplePage) !! sampleNested /\
  forall r,
    r ∉ nestedElements ->
    heap (document (setupNestedElementTests samplePage)) !! r =
    heap (document samplePage) !! r.
Proof.
  apply (nested_spans_get_their_index samplePage 1 sampleNested).
  - apply (bool_decide_unpack _). by vm_compute.
  - by vm_compute.
Defined.

Lemma export_leaves_page_witness :
  let st' := exportTestResults sampleLoaded in
  tree (document st') = tree (document sampleLoaded) /\
  (forall r e,
     heap (document sampleLoaded) !! r = Some e ->
     heap (document st') !! r = Some e) /\
  objectURLs (browser st') =
  delete (blobURL (urlsIssued (browser sampleLoaded)))
         (objectURLs (browser sampleLoaded)) /\
  timers (browser st') = timers (browser sampleLoaded) /\
  console (browser st') = console (browser sampleLoaded) /\
  ticks (browser st') = (3 + ticks (browser sampleLoaded))%nat.
Proof.
  apply (export_leaves_page sampleLoaded).
  split; [by vm_compute|]. apply (bool_decide_unpack _). by vm_compute.
Defined.


Example DOMContentLoaded_adds_listeners_and_renders_sample :
  heap (document sampleLoaded) !! sampleAria = Some sampleAriaWired /\
  heap (document sampleLoaded) !! sampleItem = Some sampleItemWired /\
  heap (document sampleLoaded) !! sampleButton = Some sampleButtonWired /\
  heap (document sampleLoaded) !! sampleNested = Some sampleNestedWired.
Proof. by vm_compute. Qed.

Lemma control_button_runs_method_witness :
  dispatchClick sampleReset (onDOMContentLoaded sampleDocument sampleBrowser) =
  controlMethod ResetControl (onDOMContentLoaded sampleDocument sampleBrowser).
Proof.
  apply (control_button_runs_method sampleDocument sampleBrowser ResetControl
                                    sampleReset).
  - by vm_compute.
  - by vm_compute.
  - apply (bool_decide_unpack _). by vm_compute.
  - apply (bool_decide_unpack _). by vm_compute.
Defined.

Lemma keys_reach_aria_button_only_witness :
  let st := onDOMContentLoaded sampleDocument sampleBrowser in
  let path := sampleAria :: parentChain (document st) sampleAria in
  dispatchKeydown sampleAria "Enter" st =
  match querySelector (has_role "button") sampleDocument with
  | Some ariaButton =>
      if decide (ariaButton ∈ path /\ ("Enter" = "Enter" \/ "Enter" = " "))
      then dispatchClick ariaButton st
      else st
  | None => st
  end.
Proof.
  apply (keys_reach_aria_button_only sampleDocument sampleBrowser sampleAria
                                     "Enter").
  - apply (bool_decide_unpack _). by vm_compute.
  - apply (bool_decide_unpack _). by vm_compute.
  - apply (bool_decide_unpack _). by vm_compute.
  - apply (bool_decide_unpack _). by vm_compute.
Defined.

Lemma dynamic_id_history_witness :
  let st' := Nat.iter 3 (click sampleButton) sampleLoaded in
  idChange <$> eventsOf DynamicIdChange (testResults (this st')) =
  (idChange <$> eventsOf DynamicIdChange (testResults (this sampleLoaded))) ++
  ((fun k => (Some (VStr (idAfter "dynamic-id-btn" k)),
              Some (VStr (idAfter "dynamic-id-btn" (S k))))) <$> seq 0 3).
Proof.
  apply (dynamic_id_history sampleLoaded sampleButton "dynamic-id-btn" 3);
    by vm_compute.
Defined.

Example dynamic_id_history_sample :
  idChange <$> eventsOf DynamicIdChange
                 (testResults (this (Nat.iter 3 (click sampleButton) sampleLoaded))) =
  [(Some (VStr "dynamic-id-btn"), Some (VStr "dynamic-btn-1"));
   (Some (VStr "dynamic-btn-1"), Some (VStr "dynamic-btn-2"));
   (Some (VStr "dynamic-btn-2"), Some (VStr "dynamic-btn-3"))].
Proof. by vm_compute. Qed.

Example counter_counts_id_changes_sample :
  let st := interact sampleVisit sampleLoaded in
  dynamicIdCounter (this st) = 2 /\
  Object_keys (testResults (this st)) = [StressTestPerformed; DynamicIdChange] /\
  length (eventsOf DynamicIdChange (testResults (this st))) = 1%nat /\
  timers (browser st) =
  [(ClearBackground 4, 500); (RestoreAriaText 5, 2000); (ClearBackground 4, 500)].
Proof. by vm_compute. Qed.

Lemma stress_test_creates_35_elements_witness :
  let n := nextRef (document sampleLoaded) in
  let st' := performStressTest sampleLoaded in
  tree (buildStressStructure sampleContainer (document sampleLoaded)) =
  updateKids sampleContainer (fun _ => stressTree n)
             (tree (document sampleLoaded)) /\
  nextRef (document st') = (35 + n)%nat /\
  flat_map preorder (stressTree n) = (fun k => (k + n)%nat) <$> seq 0 35 /\
  length (flat_map leaves (stressTree n)) = 15%nat /\
  field "elementsCreated"
    <$> last (eventsOf StressTestPerformed (testResults (this st'))) =
  Some (Some (VNum 15)).
Proof.
  apply (stress_test_creates_35_elements sampleLoaded sampleContainer).
  by vm_compute.
Defined.

Lemma reset_leaves_other_elements_witness :
  heap (document (resetTests sampleLoaded)) !! sampleAria = Some sampleAriaWired /\
  timers (browser (resetTests sampleLoaded)) = timers (browser sampleLoaded).
Proof.
  apply (reset_leaves_other_elements sampleLoaded sampleAria sampleAriaWired);
    by vm_compute.
Defined.

Example reset_relabels_first_match_sample :
  let st' := resetTests decoyClicked in
  id_ <$> heap (document decoyClicked) !! decoyButton = Some "dynamic-btn-1" /\
  id_ <$> heap (document st') !! decoyGroup = Some "dynamic-id-btn" /\
  innerHTML <$> heap (document st') !! decoyGroup = Some "🔄 Dynamic ID Button" /\
  id_ <$> heap (document st') !! decoyButton = Some "dynamic-btn-1" /\
  id_ <$> heap (document (click decoyButton st')) !! decoyButton =
  Some "dynamic-btn-1".
Proof. by vm_compute. Qed.

Lemma log_only_grows_witness :
  eventsOf DynamicIdChange (testResults (this sampleLoaded)) `prefix_of`
  eventsOf DynamicIdChange
    (testResults (this (dispatchClick sampleButton sampleLoaded))).
Proof.
  apply (log_only_grows sampleLoaded sampleButton DynamicIdChange).
  - apply (bool_decide_unpack _). by vm_compute.
  - apply (bool_decide_unpack _). by vm_compute.
  - apply (bool_decide_unpack _). by vm_compute.
Defined.

(** ** Propagation on a page with elements inside wired elements *)

Example propagation_sample :
  click innerBold innerLoaded = innerLoaded /\
  testResults (this (dispatchClick innerBold innerLoaded)) =
  [(NestedElementClick,
    [[("elementIndex", VNum 0); ("nestingLevel", VNum 2);
      ("cssPath", VStr "ul#unstable-list > li > span");
      ("timestamp", VNum 1700)]])] /\
  testResults (this (dispatchClick innerItem innerLoaded)) =
  [(UnstableListClick,
    [[("itemIndex", VNum 0); ("itemText", VStr "Deep");
      ("timestamp", VNum 1700)]])] /\
  testResults
    (this (dispatchClick innerIcon (dispatchClick innerItem innerLoaded))) = [] /\
  testResults (this (dispatchKeydown innerLabel "Enter" innerLoaded)) =
  [(AriaButtonClick,
    [[("role", VStr "button"); ("tagName", VStr "DIV");
      ("timestamp", VNum 1700)]])] /\
  dispatchKeydown innerLabel "a" innerLoaded = innerLoaded /\
  dispatchKeydown innerIcon "Enter" innerLoaded = innerLoaded.
Proof. by vm_compute. Qed.
